(** * ESGCompanyScraper: a shallow embedding of [temp.py] and its properties

    The development follows the class [ESGCompanyScraper]: the company-name
    table and [normalize_company_name], the retrying navigation [safe_get],
    the search strategies of [search_esg_today_for_company] and
    [search_alternative_esg_sources], the retrieval pass
    [get_article_content], the analysis passes [analyze_esg_themes],
    [add_sustainable_finance_data], [detect_sentiment] and [extract_quotes],
    the aggregation of [generate_report] and the orchestration of
    [run_complete_analysis].

    Conventions of the model.
    - A Python [str] is a [string]; its characters are bytes, a character
      outside ASCII being carried as its UTF-8 bytes.  [Str.lower]
      lower-cases the letters A-Z and leaves every other byte as it is, and
      the word characters of [Re] are the ASCII letters, the digits and the
      underscore: this is what [str.lower] and [\w] are on ASCII text.
      Where a property depends on it, the texts are taken in ASCII
      ([Str.is_ascii]) or [str.lower] is a parameter
      ([normalize_company_name_with]).
    - Counts ([len] of a list, [str.count], [len(re.findall ...)]) are [nat].
    - A [float] is the rational it is equal to: [binary64] is the double
      nearest to a rational, [round2] is [round(x, 2)].
    - The browser (Selenium's driver) is the environment: every function that
      drives it takes, as an extra argument, the answers the browser gives.
      An exception is an answer too; the [try] blocks of the source decide
      what becomes of it.  The file system and the clock are the environment
      of the two steps that write a file ([Disk]).
    - The pauses ([time.sleep]) between pages and articles, the log and the
      text of the files written are left out, except the pause between the
      attempts of [safe_get], which is part of its trace.
    - A local list of the source whose name is also the key of an article
      ([positive_words], [sustainable_finance_keywords]) is named
      [positive_word_list], [sustainable_finance_keyword_list]. *)

From Stdlib Require Import String Ascii List Bool Arith Lia ZArith QArith.
From Stdlib Require DecimalString.
From Stdlib Require Import Permutation Sorted.
Import ListNotations.
Open Scope nat_scope.
Open Scope string_scope.

(** ** Strings *)

Module Str.

Definition is_upper (c : ascii) : bool :=
  let n := nat_of_ascii c in (65 <=? n)%nat && (n <=? 90)%nat.

Definition is_lower (c : ascii) : bool :=
  let n := nat_of_ascii c in (97 <=? n)%nat && (n <=? 122)%nat.

Definition is_digit (c : ascii) : bool :=
  let n := nat_of_ascii c in (48 <=? n)%nat && (n <=? 57)%nat.

Definition lower_char (c : ascii) : ascii :=
  if is_upper c then ascii_of_nat (nat_of_ascii c + 32) else c.

(** [s.lower()] *)
Fixpoint lower (s : string) : string :=
  match s with
  | EmptyString => EmptyString
  | String c r => String (lower_char c) (lower r)
  end.

(** [s.isascii()] *)
Fixpoint is_ascii (s : string) : bool :=
  match s with
  | EmptyString => true
  | String c r => (nat_of_ascii c <? 128)%nat && is_ascii r
  end.

(** [len(s)]: a character outside ASCII is carried as its UTF-8 bytes, of
    which those from 128 to 191 continue a character and the others begin
    one. *)
Definition is_continuation (c : ascii) : bool :=
  let n := nat_of_ascii c in (128 <=? n)%nat && (n <=? 191)%nat.

Fixpoint len (s : string) : nat :=
  match s with
  | EmptyString => 0
  | String c r => (if is_continuation c then 0 else 1) + len r
  end.

(** [s.replace(" ", "")] *)
Fixpoint remove_spaces (s : string) : string :=
  match s with
  | EmptyString => EmptyString
  | String c r =>
      if Ascii.eqb c " " then remove_spaces r else String c (remove_spaces r)
  end.

(** [x in l] for a list of strings *)
Definition mem (x : string) (l : list string) : bool :=
  existsb (String.eqb x) l.

(** [sub in s] for strings *)
Fixpoint contains (sub s : string) : bool :=
  prefix sub s ||
  match s with
  | EmptyString => false
  | String _ r => contains sub r
  end.

(** [any(v in s for v in vs)] *)
Definition any_in (vs : list string) (s : string) : bool :=
  existsb (fun v => contains v s) vs.

(** [s.count(sub)] for a non-empty [sub]: occurrences are counted from left
    to right and do not overlap, so after an occurrence the scan resumes
    behind it ([skip] characters are passed over without being tested). *)
Fixpoint count_from (sub s : string) (skip : nat) : nat :=
  match s with
  | EmptyString => 0
  | String _ r =>
      match skip with
      | S k => count_from sub r k
      | O => if prefix sub s
             then S (count_from sub r (String.length sub - 1))
             else count_from sub r 0
      end
  end.

Definition count (s sub : string) : nat := count_from sub s 0.

End Str.

(** ** The company-name table *)

(** [self.company_variations]: a dict, iterated in insertion order. *)
Definition company_variations : list (string * list string) :=
  [ ("jpmorgan", ["jpmorgan"; "jp morgan"; "j.p. morgan"; "jpm"; "jpmc";
                  "j.p. morgan chase"; "jpmorgan chase"]);
    ("goldman sachs", ["goldman sachs"; "goldman"; "goldman sachs group"; "gs"]);
    ("blackrock", ["blackrock"; "black rock"]);
    ("morgan stanley", ["morgan stanley"; "ms"]);
    ("citigroup", ["citigroup"; "citi"; "citibank"]);
    ("bank of america", ["bank of america"; "bofa"; "bac";
                         "bank of america corporation"]);
    ("wells fargo", ["wells fargo"; "wf"; "wells"]);
    ("microsoft", ["microsoft"; "msft"; "microsoft corporation"]);
    ("apple", ["apple"; "aapl"; "apple inc"; "apple inc."]);
    ("amazon", ["amazon"; "amzn"; "amazon.com"; "amazon.com inc"; "amazon inc"]);
    ("google", ["google"; "googl"; "goog"; "alphabet"; "alphabet inc"]);
    ("facebook", ["facebook"; "meta"; "fb"; "meta platforms"]);
    ("tesla", ["tesla"; "tsla"; "tesla inc"; "tesla motors"]);
    ("nvidia", ["nvidia"; "nvda"]);
    ("exxonmobil", ["exxonmobil"; "exxon mobil"; "exxon"; "xom"]);
    ("chevron", ["chevron"; "cvx"; "chevron corporation"]);
    ("shell", ["shell"; "royal dutch shell"; "rdsa"]);
    ("bp", ["bp"; "british petroleum"; "bp plc"]);
    ("unilever", ["unilever"; "ul"]);
    ("nestle", ["nestle"; "nestlé"; "nsrgy"]) ].

(** The test of the loop of [normalize_company_name]:
    [company_lower in variations]. *)
Definition entry_has (company_lower : string) (e : string * list string) : bool :=
  Str.mem company_lower (snd e).

(** [normalize_company_name], with [str.lower] as a parameter: the first
    entry of the table, in its order, one of whose variations is the
    lower-cased name; without one, the lower-cased name and its two simple
    variations. *)
Definition normalize_company_name_with (str_lower : string -> string)
    (company_name : string) : string * list string :=
  let company_lower := str_lower company_name in
  match find (entry_has company_lower) company_variations with
  | Some (standard_name, variations) => (standard_name, variations)
  | None => (company_lower, [company_lower; Str.remove_spaces company_lower])
  end.

(** [normalize_company_name] with the lower-casing of ASCII text. *)
Definition normalize_company_name (company_name : string) : string * list string :=
  normalize_company_name_with Str.lower company_name.

(** Lower case in the words of the specification, for ASCII text: [t] is
    [s] with each of the letters A to Z replaced by the letter 32 places
    further, and nothing else changed. *)
Definition lower_cased (s t : string) : Prop :=
  String.length t = String.length s
  /\ forall i c,
       String.get i s = Some c ->
       (65 <= nat_of_ascii c <= 90 ->
        String.get i t = Some (ascii_of_nat (nat_of_ascii c + 32)))
       /\ (~ 65 <= nat_of_ascii c <= 90 -> String.get i t = Some c).

(** [t] is [s] without its spaces. *)
Definition spaces_removed (s t : string) : Prop :=
  list_ascii_of_string t
  = filter (fun c => negb (Ascii.eqb c " ")) (list_ascii_of_string s).

(** ** Whole-word matching: [re.findall(r'\b' + re.escape(kw) + r'\b', s)] *)

Module Re.

(** [\w] on ASCII text: a letter, a digit or the underscore.  Bytes outside
    ASCII count as non-word characters. *)
Definition is_word (c : ascii) : bool :=
  Str.is_lower c || Str.is_upper c || Str.is_digit c || Ascii.eqb c "_".

Definition is_word_opt (o : option ascii) : bool :=
  match o with
  | Some c => is_word c
  | None => false
  end.

(** [\b] between two neighbouring positions: exactly one side is a word
    character; beyond either end of the string there is none. *)
Definition boundary (before after : option ascii) : bool :=
  xorb (is_word_opt before) (is_word_opt after).

(** The pattern matches at the current position: [s] is what is left of the
    subject from there, [prev] the character just before it. *)
Definition match_here (kw : string) (prev : option ascii) (s : string) : bool :=
  let n := String.length kw in
  prefix kw s
  && boundary prev (String.get 0 s)
  && boundary (match n with O => prev | S k => String.get k s end)
              (String.get n s).

(** The number of matches [findall] returns: the subject is scanned from
    left to right and a match is not searched inside the previous one. *)
Fixpoint findall_from (kw : string) (prev : option ascii) (s : string)
    (skip : nat) : nat :=
  match s with
  | EmptyString =>
      match skip with
      | O => if match_here kw prev s then 1 else 0
      | S _ => 0
      end
  | String c r =>
      match skip with
      | S k => findall_from kw (Some c) r k
      | O =>
          if match_here kw prev s
          then S (findall_from kw (Some c) r (String.length kw - 1))
          else findall_from kw (Some c) r 0
      end
  end.

(** [len(re.findall(r'\b' + re.escape(kw) + r'\b', s))] *)
Definition count_words (kw s : string) : nat := findall_from kw None s 0.

(** With [re.IGNORECASE] a character of the pattern matches the same
    letter in either case. *)
Definition same_letter (a b : ascii) : bool :=
  Ascii.eqb (Str.lower_char a) (Str.lower_char b).

Fixpoint prefix_ignorecase (kw s : string) : bool :=
  match kw, s with
  | EmptyString, _ => true
  | String a kw', String b s' => same_letter a b && prefix_ignorecase kw' s'
  | String _ _, EmptyString => false
  end.

Definition match_here_ignorecase (kw : string) (prev : option ascii) (s : string)
    : bool :=
  let n := String.length kw in
  prefix_ignorecase kw s
  && boundary prev (String.get 0 s)
  && boundary (match n with O => prev | S k => String.get k s end)
              (String.get n s).

Fixpoint findall_ignorecase_from (kw : string) (prev : option ascii) (s : string)
    (skip : nat) : nat :=
  match s with
  | EmptyString =>
      match skip with
      | O => if match_here_ignorecase kw prev s then 1 else 0
      | S _ => 0
      end
  | String c r =>
      match skip with
      | S k => findall_ignorecase_from kw (Some c) r k
      | O =>
          if match_here_ignorecase kw prev s
          then S (findall_ignorecase_from kw (Some c) r (String.length kw - 1))
          else findall_ignorecase_from kw (Some c) r 0
      end
  end.

(** [len(re.findall(r'\b' + re.escape(kw) + r'\b', s, re.IGNORECASE))] *)
Definition count_words_ignorecase (kw s : string) : nat :=
  findall_ignorecase_from kw None s 0.

(** The positions at which the keyword stands as a whole word, counted one
    by one (overlapping or not): the reading of "number of whole-word
    matches" that does not mention the scan. *)
Fixpoint occurrences_from (kw : string) (prev : option ascii) (s : string) : nat :=
  (if match_here kw prev s then 1 else 0) +
  match s with
  | EmptyString => 0
  | String c r => occurrences_from kw (Some c) r
  end.

Definition whole_word_occurrences (kw s : string) : nat :=
  occurrences_from kw None s.

End Re.

(** ** Articles *)

Record Quote := mkQuote {
  q_text : string;
  q_speaker : string;
  q_pattern : string
}.

Record ThemeCounts := mkCounts {
  environmental : nat;
  social : nat;
  governance : nat
}.

Record ThemeKeywords := mkKeywords {
  kw_environmental : list string;
  kw_social : list string;
  kw_governance : list string
}.

(** An article is a Python dict.  The seven keys written by every dict
    literal that creates an article are plain fields; a key that a later pass
    adds is an [option], [None] while the key is absent.  [date] holds a
    Python value that can be [None] after the retrieval pass: it is an
    [option] too, [None] being Python's. *)
Record Article := mkArticle {
  title : string;
  date : option string;
  link : string;
  excerpt : string;
  source : string;
  search_method : string;
  company : string;
  full_content : option string;
  categories : option (list string);
  mention_count : option nat;
  relevant_paragraphs : option (list string);
  esg_theme_counts : option ThemeCounts;
  esg_keywords : option ThemeKeywords;
  primary_esg_focus : option string;
  sustainable_finance_mentions : option nat;
  sustainable_finance_keywords : option (list string);
  sustainable_finance_focus : option bool;
  sentiment_score : option Q;
  sentiment : option string;
  positive_words : option nat;
  negative_words : option nat;
  quotes : option (list Quote);
  quote_count : option nat
}.

(** The dict literal of the search strategies. *)
Definition new_article (t d l e src m c : string) : Article :=
  mkArticle t (Some d) l e src m c
    None None None None None None None None None None None None None None
    None None.

(** ['full_content' not in article or not article['full_content']] *)
Definition no_content (a : Article) : bool :=
  match full_content a with
  | None => true
  | Some c => String.eqb c ""
  end.

(** ** Theme analysis *)

Definition environmental_keywords : list string :=
  [ "climate"; "carbon"; "emissions"; "renewable"; "sustainable";
    "green"; "environment"; "pollution"; "waste"; "recycling";
    "biodiversity"; "conservation"; "energy efficiency"; "net zero";
    "greenhouse gas"; "ghg"; "carbon neutral"; "carbon footprint" ].

Definition social_keywords : list string :=
  [ "diversity"; "inclusion"; "equity"; "human rights"; "labor";
    "community"; "health"; "safety"; "wellbeing"; "stakeholder";
    "employee"; "workforce"; "social impact"; "ethical"; "dei";
    "equal opportunity"; "gender"; "racial"; "discrimination";
    "accessibility"; "social justice"; "fair trade" ].

Definition governance_keywords : list string :=
  [ "board"; "executive"; "compensation"; "transparency"; "disclosure";
    "compliance"; "risk management"; "ethics"; "corruption"; "bribery";
    "accountability"; "shareholder"; "voting"; "audit"; "regulatory";
    "corporate governance"; "oversight"; "fiduciary"; "code of conduct";
    "conflict of interest"; "whistleblower"; "diversity targets" ].

(** The inner loop over the keywords of one theme: the total of the match
    counts (a count of 0 adds nothing) and the keywords that matched. *)
Definition keyword_total (keywords : list string) (content : string) : nat :=
  fold_left (fun acc kw => acc + Re.count_words kw content) keywords 0.

Definition keywords_found (keywords : list string) (content : string) : list string :=
  filter (fun kw => (0 <? Re.count_words kw content)%nat) keywords.

(** [max(theme_counts.items(), key=lambda x: x[1])]: the running best is
    replaced only by a strictly larger count, so the first of several largest
    items is returned. *)
Fixpoint max_by_count (best : string * nat) (rest : list (string * nat)) : string * nat :=
  match rest with
  | [] => best
  | x :: tl => max_by_count (if (snd best <? snd x)%nat then x else best) tl
  end.

(** The items of [theme_counts] come in the order of the dict literal:
    environmental, social, governance. *)
Definition primary_focus (c : ThemeCounts) : string :=
  let max_theme :=
    max_by_count ("environmental", environmental c)
                 [("social", social c); ("governance", governance c)] in
  if (0 <? snd max_theme)%nat then fst max_theme else "undetermined".

Definition theme_counts_of (content : string) : ThemeCounts :=
  mkCounts (keyword_total environmental_keywords content)
           (keyword_total social_keywords content)
           (keyword_total governance_keywords content).

(** One turn of the loop of [analyze_esg_themes].  [list(set(keywords))]
    holds the matched keywords, each once, in an order Python does not fix;
    the model keeps the order of the keyword list. *)
Definition analyze_article (a : Article) : Article :=
  if no_content a then a
  else
    let content := Str.lower (match full_content a with Some c => c | None => "" end) in
    let theme_counts := theme_counts_of content in
    mkArticle (title a) (date a) (link a) (excerpt a) (source a)
      (search_method a) (company a) (full_content a) (categories a)
      (mention_count a) (relevant_paragraphs a)
      (Some theme_counts)
      (Some (mkKeywords (keywords_found environmental_keywords content)
                        (keywords_found social_keywords content)
                        (keywords_found governance_keywords content)))
      (Some (primary_focus theme_counts))
      (sustainable_finance_mentions a) (sustainable_finance_keywords a)
      (sustainable_finance_focus a) (sentiment_score a) (sentiment a)
      (positive_words a) (negative_words a) (quotes a) (quote_count a).

Definition analyze_esg_themes (articles : list Article) : list Article :=
  map analyze_article articles.

(** ** Sustainable-finance analysis *)

Definition sustainable_finance_keyword_list : list string :=
  [ "green bond"; "sustainable bond"; "social bond";
    "sustainability-linked"; "transition finance"; "esg fund";
    "impact investing"; "socially responsible"; "sri";
    "sustainable finance"; "green finance"; "climate finance";
    "net zero financing"; "carbon neutral investment"; "stranded assets" ].

(** One turn of the loop of [add_sustainable_finance_data]. *)
Definition finance_article (a : Article) : Article :=
  if no_content a then a
  else
    let content := Str.lower (match full_content a with Some c => c | None => "" end) in
    let finance_mentions := keyword_total sustainable_finance_keyword_list content in
    mkArticle (title a) (date a) (link a) (excerpt a) (source a)
      (search_method a) (company a) (full_content a) (categories a)
      (mention_count a) (relevant_paragraphs a)
      (esg_theme_counts a) (esg_keywords a) (primary_esg_focus a)
      (Some finance_mentions)
      (Some (keywords_found sustainable_finance_keyword_list content))
      (Some (3 <? finance_mentions)%nat)
      (sentiment_score a) (sentiment a)
      (positive_words a) (negative_words a) (quotes a) (quote_count a).

Definition add_sustainable_finance_data (articles : list Article) : list Article :=
  map finance_article articles.

(** ** Sentiment *)

Definition positive_word_list : list string :=
  [ "positive"; "success"; "innovation"; "leadership"; "achieve";
    "improve"; "progress"; "sustainable"; "responsible"; "ethical";
    "benefit"; "advance"; "growth"; "excellence"; "quality";
    "commitment"; "partnership"; "transparency"; "trust"; "award" ].

Definition negative_word_list : list string :=
  [ "negative"; "fail"; "risk"; "concern"; "issue"; "problem";
    "controversy"; "violation"; "penalty"; "fine"; "litigation";
    "criticism"; "damage"; "greenwashing"; "investigation"; "scandal";
    "warning"; "insufficient"; "dangerous"; "harmful"; "misleading" ].

(** [sum(content.count(" " + word + " ") for word in words)] *)
Definition padded_count (words : list string) (content : string) : nat :=
  fold_left (fun acc word => acc + Str.count content (" " ++ word ++ " ")) words 0.

(** *** Binary floating point

    [sentiment_score] is a Python [float]: the quotient of the two integers
    is the double nearest to the exact quotient, [round(x, 2)] rounds the
    exact value of that double, and [0.1] is the double nearest to one
    tenth.  A double is kept here as the rational it is equal to. *)

(** The integer nearest to [n/d], a tie going to the even one. *)
Definition round_half_even (n d : Z) : Z :=
  let f := (n / d)%Z in
  match (2 * (n mod d) ?= d)%Z with
  | Lt => f
  | Gt => (f + 1)%Z
  | Eq => if Z.even f then f else (f + 1)%Z
  end.

(** The binary places a double keeps of [n/d], for [0 < n/d < 2^53]: as
    many as leave 53 significant bits, and never more than the 1074 of the
    subnormal numbers. *)
Definition binary64_places (n d : Z) : Z :=
  Z.min (Z.log2 ((2 ^ 53 * d - 1) / n)) 1074.

Definition binary64_of (n : Z) (d : positive) : Q :=
  let s := binary64_places n (Zpos d) in
  Qmake (round_half_even (n * 2 ^ s) (Zpos d)) (Z.to_pos (2 ^ s)).

(** The double nearest to [x], a tie going to the even mantissa, for [x] of
    absolute value below 2^53 (a quotient of the counts is at most 1). *)
Definition binary64 (x : Q) : Q :=
  match Qnum x with
  | Z0 => 0
  | Zpos n => binary64_of (Zpos n) (Qden x)
  | Zneg n => - binary64_of (Zpos n) (Qden x)
  end.

Definition binary64_range (x : Q) : Prop :=
  (Z.abs (Qnum x) < 2 ^ 53 * Zpos (Qden x))%Z.

(** The literal [0.1]. *)
Definition tenth : Q := binary64 (1 # 10).

(** The exact quotient (pos - neg) / (pos + neg). *)
Definition quotient_of (positive_count negative_count : nat) : Q :=
  Qmake (Z.of_nat positive_count - Z.of_nat negative_count)
        (Pos.of_nat (positive_count + negative_count)).

(** The local variable [sentiment_score]: the double the division gives,
    or the integer 0. *)
Definition score_of (positive_count negative_count : nat) : Q :=
  let total := positive_count + negative_count in
  if (0 <? total)%nat
  then binary64 (quotient_of positive_count negative_count)
  else 0%Q.

(** [round(x, 2)] of a double [x]: the exact value of [x] is rounded to
    the nearest multiple of 1/100, a tie going to the even one.  The result
    stands for the double nearest to it, which is the one Python returns
    and prints with these two decimals. *)
Definition round2 (x : Q) : Q :=
  Qmake (round_half_even (Qnum x * 100) (Zpos (Qden x))) 100.

Definition Qltb (x y : Q) : bool := negb (Qle_bool y x).

Definition sentiment_label (sentiment_score : Q) : string :=
  if Qltb tenth sentiment_score then "positive"
  else if Qltb sentiment_score (- tenth) then "negative"
  else "neutral".

(** One turn of the loop of [detect_sentiment]: the label is taken from the
    quotient itself, the stored score is the quotient rounded. *)
Definition sentiment_article (a : Article) : Article :=
  if no_content a then a
  else
    let content := Str.lower (match full_content a with Some c => c | None => "" end) in
    let positive_count := padded_count positive_word_list content in
    let negative_count := padded_count negative_word_list content in
    let score := score_of positive_count negative_count in
    mkArticle (title a) (date a) (link a) (excerpt a) (source a)
      (search_method a) (company a) (full_content a) (categories a)
      (mention_count a) (relevant_paragraphs a)
      (esg_theme_counts a) (esg_keywords a) (primary_esg_focus a)
      (sustainable_finance_mentions a) (sustainable_finance_keywords a)
      (sustainable_finance_focus a)
      (Some (round2 score)) (Some (sentiment_label score))
      (Some positive_count) (Some negative_count)
      (quotes a) (quote_count a).

Definition detect_sentiment (articles : list Article) : list Article :=
  map sentiment_article articles.

(** ** Quotes *)

Section Quotes.

(** The two calls of [re.findall] in [extract_quotes] are taken as they are:
    each gives, for a content, the pairs of groups of its matches
    ([pattern1]: quoted text, then speaker; [pattern2]: speaker, then quoted
    text). *)
Variable findall_pattern1 : string -> list (string * string).
Variable findall_pattern2 : string -> list (string * string).

Definition is_company_quote (name_variations : list string) (q : Quote) : bool :=
  Str.any_in name_variations (Str.lower (q_speaker q))
  || Str.any_in name_variations (Str.lower (q_text q)).

Definition quotes_article (a : Article) : Article :=
  if no_content a then a
  else
    let content := match full_content a with Some c => c | None => "" end in
    let found :=
      (map (fun m => mkQuote (fst m) (snd m) "attribution") (findall_pattern1 content)
       ++ map (fun m => mkQuote (snd m) (fst m) "preceding_attribution")
              (findall_pattern2 content))%list in
    let name_variations := snd (normalize_company_name (company a)) in
    let company_quotes := filter (is_company_quote name_variations) found in
    mkArticle (title a) (date a) (link a) (excerpt a) (source a)
      (search_method a) (company a) (full_content a) (categories a)
      (mention_count a) (relevant_paragraphs a)
      (esg_theme_counts a) (esg_keywords a) (primary_esg_focus a)
      (sustainable_finance_mentions a) (sustainable_finance_keywords a)
      (sustainable_finance_focus a) (sentiment_score a) (sentiment a)
      (positive_words a) (negative_words a)
      (Some company_quotes) (Some (List.length company_quotes)).

Definition extract_quotes (articles : list Article) : list Article :=
  map quotes_article articles.

End Quotes.

(** ** Report aggregation *)

(** [d[k] = d.get(k, 0) + 1] on a dict kept as an association list. *)
Fixpoint bump (k : string) (d : list (string * nat)) : list (string * nat) :=
  match d with
  | [] => [(k, 1)]
  | (k', n) :: tl => if String.eqb k' k then (k', S n) :: tl else (k', n) :: bump k tl
  end.

Definition bump_opt (k : option string) (d : list (string * nat)) : list (string * nat) :=
  match k with
  | Some key => bump key d
  | None => d
  end.

Definition add_counts (t : ThemeCounts) (c : option ThemeCounts) : ThemeCounts :=
  match c with
  | Some c => mkCounts (environmental t + environmental c) (social t + social c)
                       (governance t + governance c)
  | None => t
  end.

(** [x.get('mention_count', 0)] *)
Definition mention_key (a : Article) : nat :=
  match mention_count a with
  | Some n => n
  | None => 0
  end.

(** [sorted(articles, key=..., reverse=True)]: descending and stable. *)
Fixpoint insert_desc (x : Article) (l : list Article) : list Article :=
  match l with
  | [] => [x]
  | y :: tl =>
      if (mention_key y <? mention_key x)%nat then x :: y :: tl
      else y :: insert_desc x tl
  end.

Definition sorted_by_mentions (articles : list Article) : list Article :=
  fold_left (fun acc x => insert_desc x acc) articles [].

Record ReportSummary := mkSummary {
  theme_totals : ThemeCounts;
  primary_focus_count : list (string * nat);
  sentiment_count : list (string * nat);
  top_articles : list Article
}.

(** The aggregation of [generate_report]; the HTML text built from it is
    left out. *)
Definition report_summary (articles : list Article) : ReportSummary :=
  mkSummary
    (fold_left (fun t a => add_counts t (esg_theme_counts a)) articles (mkCounts 0 0 0))
    (fold_left (fun d a => bump_opt (primary_esg_focus a) d) articles
       [("environmental", 0); ("social", 0); ("governance", 0); ("undetermined", 0)])
    (fold_left (fun d a => bump_opt (sentiment a) d) articles
       [("positive", 0); ("neutral", 0); ("negative", 0)])
    (firstn 10 (sorted_by_mentions articles)).

(** ** Navigation with retries *)

(** What [safe_get] does to the outside world, in order. *)
Inductive Event :=
| Get (url : string)
| Sleep (seconds : nat).

(** The loop of [safe_get], [remaining] turns before [range(retries)] is
    exhausted.  [get_ok attempt] tells whether [driver.get] returns on that
    attempt (it raises otherwise).  The result is [Some True], [Some False],
    or [None] when the loop ends without a [return]. *)
Fixpoint safe_get_loop (get_ok : nat -> bool) (url : string)
    (retries retry_delay attempt remaining : nat) : option bool * list Event :=
  match remaining with
  | O => (None, [])
  | S r =>
      if get_ok attempt then (Some true, [Get url])
      else if (attempt <? retries - 1)%nat then
        let '(result, events) :=
          safe_get_loop get_ok url retries retry_delay (S attempt) r in
        (result, Get url :: Sleep retry_delay :: events)
      else (Some false, [Get url])
  end.

Definition safe_get (get_ok : nat -> bool) (url : string)
    (retries retry_delay : nat) : option bool * list Event :=
  safe_get_loop get_ok url retries retry_delay 0 retries.

(** [if self.safe_get(url)], with the default [retries=3, retry_delay=2]. *)
Definition navigate (get_ok : nat -> bool) (url : string) : bool :=
  match fst (safe_get get_ok url 3 2) with
  | Some ok => ok
  | None => false
  end.

(** ** The browser as seen by the search strategies *)

(** A sub-element found inside a result: its text and its [href] (the
    elements the strategies look for are links and headings; [href] is read
    from links only and is taken to be present). *)
Record SubElement := mkSub {
  se_text : string;
  se_href : string
}.

(** An element of a result list.  [c_find selector] is the sub-element
    [find_element] returns, [None] when it raises.  [c_broken] marks an
    element on which a driver call outside the selector loops raises: the
    handler around the element's processing then skips it. *)
Record Container := mkContainer {
  c_broken : bool;
  c_text : string;
  c_find : string -> option SubElement
}.

(** A loaded page: either a driver call on it raises before any result is
    read, or it shows its source and answers [find_elements]. *)
Inductive PageBody :=
| Raises
| Shows (page_source : string) (find_elements : string -> list Container).

Record Browser := mkBrowser {
  get_ok : string -> nat -> bool;
  body : string -> PageBody
}.

Definition plus_for_spaces (s : string) : string :=
  (fix go (s : string) : string :=
     match s with
     | EmptyString => EmptyString
     | String c r => String (if Ascii.eqb c " " then "+"%char else c) (go r)
     end) s.

Definition decimal (n : nat) : string :=
  DecimalString.NilEmpty.string_of_uint (Nat.to_uint n).

(** The selector loops: the first selector that finds something. *)
Fixpoint resolve_first {A : Type} (find : string -> option A)
    (selectors : list string) : option A :=
  match selectors with
  | [] => None
  | s :: tl =>
      match find s with
      | Some e => Some e
      | None => resolve_first find tl
      end
  end.

Fixpoint first_nonempty {A : Type} (find_elements : string -> list A)
    (selectors : list string) : list A :=
  match selectors with
  | [] => []
  | s :: tl =>
      match find_elements s with
      | [] => first_nonempty find_elements tl
      | found => found
      end
  end.

Definition text_or (default : string) (find : string -> option SubElement)
    (selectors : list string) : string :=
  match resolve_first find selectors with
  | Some e => se_text e
  | None => default
  end.

Definition article_selectors : list string :=
  ["article.post"; ".post"; ".article"; ".entry"; ".search-post"].
Definition listing_selectors : list string :=
  ["article.post"; ".post"; ".article"; ".entry"].
Definition title_selectors : list string :=
  ["h2.entry-title a"; "h1.entry-title a"; ".entry-title a"; "h3 a"].
Definition date_selectors : list string :=
  ["time.entry-date"; ".entry-date"; ".date"; ".published"].
Definition excerpt_selectors : list string :=
  ["div.entry-content p"; ".excerpt"; ".summary"; ".entry-summary p"].

(** The article a result element of ESG Today gives, if it has a title. *)
Definition read_container (method standard_name : string) (c : Container)
    : option Article :=
  if c_broken c then None
  else
    match resolve_first (c_find c) title_selectors with
    | None => None
    | Some title_element =>
        Some (new_article (se_text title_element)
                (text_or "Date not found" (c_find c) date_selectors)
                (se_href title_element)
                (text_or "Excerpt not available" (c_find c) excerpt_selectors)
                "ESG Today" method standard_name)
    end.

(** [any(a["link"] == link for a in articles)] *)
Definition has_link (l : string) (articles : list Article) : bool :=
  existsb (fun a => String.eqb (link a) l) articles.

(** [if not any(a["link"] == link for a in articles): articles.append(...)] *)
Definition append_new (articles : list Article) (article_data : Article)
    : list Article :=
  if has_link (link article_data) articles then articles
  else (articles ++ [article_data])%list.

(** *** Method 1: the site's own search; every result is appended. *)
Definition direct_search (b : Browser) (company_name standard_name : string)
    : list Article :=
  let search_url := "https://www.esgnews.com/?s=" ++ plus_for_spaces company_name in
  if navigate (get_ok b search_url) search_url then
    match body b search_url with
    | Raises => []
    | Shows page_source find_elements =>
        if Str.contains "No results found" page_source
           || Str.contains "Nothing Found" page_source
        then []
        else
          fold_left
            (fun articles c =>
               match read_container "direct_search" standard_name c with
               | Some article_data => (articles ++ [article_data])%list
               | None => articles
               end)
            (first_nonempty find_elements article_selectors) []
    end
  else [].

(** *** Method 2: browse the news pages and keep what mentions the company. *)
Definition browse_container (name_variations : list string)
    (standard_name : string) (articles : list Article) (c : Container)
    : list Article :=
  if c_broken c then articles
  else if Str.any_in name_variations (Str.lower (c_text c)) then
    match read_container "browse_filter" standard_name c with
    | Some article_data => append_new articles article_data
    | None => articles
    end
  else articles.

Definition news_urls (page : nat) : list string :=
  [ "https://www.esgnews.com/category/news/page/" ++ decimal page ++ "/";
    "https://www.esgnews.com/news/page/" ++ decimal page ++ "/";
    "https://www.esgnews.com/page/" ++ decimal page ++ "/" ].

(** The loop over the URL patterns of one page: a URL that does not load or
    shows "Page not found" passes to the next one, the first other one is
    processed and ends the loop, an exception ends the page. *)
Fixpoint browse_urls (b : Browser) (name_variations : list string)
    (standard_name : string) (urls : list string) (articles : list Article)
    : list Article :=
  match urls with
  | [] => articles
  | news_url :: tl =>
      if navigate (get_ok b news_url) news_url then
        match body b news_url with
        | Raises => articles
        | Shows page_source find_elements =>
            if Str.contains "Page not found" page_source
            then browse_urls b name_variations standard_name tl articles
            else if Str.any_in name_variations (Str.lower page_source)
            then fold_left (browse_container name_variations standard_name)
                   (first_nonempty find_elements listing_selectors) articles
            else articles
        end
      else browse_urls b name_variations standard_name tl articles
  end.

Definition browse_filter (b : Browser) (name_variations : list string)
    (standard_name : string) (max_pages : nat) (articles : list Article)
    : list Article :=
  fold_left
    (fun articles page =>
       browse_urls b name_variations standard_name (news_urls page) articles)
    (seq 1 max_pages) articles.

(** *** Method 3: a search engine restricted to the site. *)
Definition google_result (standard_name : string) (articles : list Article)
    (result : Container) : list Article :=
  if c_broken result then articles
  else
    match c_find result "a" with
    | None => articles
    | Some link_element =>
        if Str.contains "esgtoday.com" (se_href link_element) then
          match c_find result "h3" with
          | None => articles
          | Some title_element =>
              append_new articles
                (new_article (se_text title_element) "Date not found"
                   (se_href link_element)
                   (match c_find result "div.VwiC3b" with
                    | Some snippet_element => se_text snippet_element
                    | None => "Snippet not available"
                    end)
                   "ESG Today" "google_search" standard_name)
          end
        else articles
    end.

Definition google_search (b : Browser) (company_name standard_name : string)
    (articles : list Article) : list Article :=
  let google_search_url :=
    "https://www.google.com/search?q=site:esgtoday.com+"
    ++ plus_for_spaces company_name in
  if navigate (get_ok b google_search_url) google_search_url then
    match body b google_search_url with
    | Raises => articles
    | Shows _ find_elements =>
        fold_left (google_result standard_name)
          (firstn 5 (find_elements "div.g")) articles
    end
  else articles.

Definition search_esg_today_for_company (b : Browser) (company_name : string)
    (max_pages : nat) : list Article :=
  let '(standard_name, name_variations) := normalize_company_name company_name in
  let articles := direct_search b company_name standard_name in
  let articles :=
    if (List.length articles <? 3)%nat
    then browse_filter b name_variations standard_name max_pages articles
    else articles in
  if (List.length articles <? 2)%nat
  then google_search b company_name standard_name articles
  else articles.

(** *** The alternative sources *)

Definition alternative_sources (company_name : string) : list (string * string) :=
  [ ("Responsible Investor",
     "https://www.responsible-investor.com/search-results?searchterm="
     ++ plus_for_spaces company_name);
    ("ESG Investor",
     "https://www.esginvestor.net/?s=" ++ plus_for_spaces company_name);
    ("Sustainable Views",
     "https://www.sustainableviews.com/?s=" ++ plus_for_spaces company_name) ].

Definition alt_article_selectors : list string :=
  ["article"; ".post"; ".result"; ".search-result"; ".article"].
Definition alt_title_selectors : list string :=
  ["h2 a"; "h3 a"; ".title a"; ".entry-title a"].
Definition alt_date_selectors : list string :=
  [".date"; "time"; ".meta-date"; ".published"].
Definition alt_excerpt_selectors : list string :=
  [".excerpt"; ".summary"; "p"; ".content p"].

Definition alt_container (source_name company_name : string)
    (results : list Article) (c : Container) : list Article :=
  if c_broken c then results
  else
    match resolve_first (c_find c) alt_title_selectors with
    | None => results
    | Some title_element =>
        (results ++
         [ new_article (se_text title_element)
             (text_or "Date not found" (c_find c) alt_date_selectors)
             (se_href title_element)
             (text_or "Excerpt not available" (c_find c) alt_excerpt_selectors)
             source_name "alternative_source" company_name ])%list
    end.

(** The loop over the sources stops at the first one that gave a result. *)
Fixpoint alt_sources_loop (b : Browser) (company_name : string)
    (max_results : nat) (sources : list (string * string))
    (results : list Article) : list Article :=
  match sources with
  | [] => results
  | (name, url) :: tl =>
      if navigate (get_ok b url) url then
        match body b url with
        | Raises => alt_sources_loop b company_name max_results tl results
        | Shows _ find_elements =>
            match
              fold_left (alt_container name company_name)
                (firstn max_results
                   (first_nonempty find_elements alt_article_selectors))
                results
            with
            | [] => alt_sources_loop b company_name max_results tl []
            | found => found
            end
        end
      else alt_sources_loop b company_name max_results tl results
  end.

Definition search_alternative_esg_sources (b : Browser) (company_name : string)
    (max_results : nat) : list Article :=
  alt_sources_loop b company_name max_results
    (alternative_sources company_name) [].

(** ** Content retrieval *)

Record ContentElement := mkContent {
  ce_paragraphs : list string;
  ce_text : string
}.

(** An article page once loaded.  [find_content selector] is the element
    the wait and [find_element] give, [None] when either raises.
    [early_failure] is the message of an exception raised while the
    paragraphs or the element's text are first read, [late_failure] that of
    one raised when the paragraphs are read again for the relevant ones.
    [find_categories selector] gives the texts of the elements found ([None]:
    the call raises); [find_date selector] gives the text and the [datetime]
    attribute of the element found ([None]: the call raises). *)
Record ArticlePage := mkPage {
  find_content : string -> option ContentElement;
  early_failure : option string;
  find_categories : string -> option (list string);
  find_date : string -> option (string * option string);
  late_failure : option string
}.

(** The visit of one article: how [driver.get] answers on each attempt, and
    the page shown once loaded. *)
Record Visit := mkVisit {
  v_get_ok : nat -> bool;
  v_page : ArticlePage
}.

Definition content_selectors : list string :=
  ["div.entry-content"; "article"; ".post-content"; ".article-content"].
Definition category_selectors : list string :=
  ["span.cat-links a"; ".categories a"; ".tags a"; ".post-categories a"].
Definition page_date_selectors : list string :=
  ["time.entry-date"; ".entry-date"; ".date"; ".published"; "time[datetime]"].

Definition newline : string := String (ascii_of_nat 10) EmptyString.

(** ["\n".join(l)] *)
Fixpoint join_lines (l : list string) : string :=
  match l with
  | [] => ""
  | [p] => p
  | p :: tl => p ++ newline ++ join_lines tl
  end.

(** The three writes shared by every failure branch. *)
Definition extraction_failed (a : Article) (full : string) : Article :=
  mkArticle (title a) (date a) (link a) (excerpt a) (source a)
    (search_method a) (company a) (Some full) (categories a)
    (Some 0) (Some [])
    (esg_theme_counts a) (esg_keywords a) (primary_esg_focus a)
    (sustainable_finance_mentions a) (sustainable_finance_keywords a)
    (sustainable_finance_focus a) (sentiment_score a) (sentiment a)
    (positive_words a) (negative_words a) (quotes a) (quote_count a).

Definition set_content (a : Article) (content : string) (mentions : nat)
    (relevant : list string) : Article :=
  mkArticle (title a) (date a) (link a) (excerpt a) (source a)
    (search_method a) (company a) (Some content) (categories a)
    (Some mentions) (Some relevant)
    (esg_theme_counts a) (esg_keywords a) (primary_esg_focus a)
    (sustainable_finance_mentions a) (sustainable_finance_keywords a)
    (sustainable_finance_focus a) (sentiment_score a) (sentiment a)
    (positive_words a) (negative_words a) (quotes a) (quote_count a).

Definition set_categories_date (a : Article) (cats : list string)
    (d : option string) : Article :=
  mkArticle (title a) d (link a) (excerpt a) (source a)
    (search_method a) (company a) (full_content a) (Some cats)
    (mention_count a) (relevant_paragraphs a)
    (esg_theme_counts a) (esg_keywords a) (primary_esg_focus a)
    (sustainable_finance_mentions a) (sustainable_finance_keywords a)
    (sustainable_finance_focus a) (sentiment_score a) (sentiment a)
    (positive_words a) (negative_words a) (quotes a) (quote_count a).

(** The category loop inside its [try]: [None] when a call raises. *)
Fixpoint first_categories (find : string -> option (list string))
    (selectors : list string) : option (list string) :=
  match selectors with
  | [] => Some []
  | s :: tl =>
      match find s with
      | None => None
      | Some [] => first_categories find tl
      | Some texts => Some texts
      end
  end.

Definition truthy (v : option string) : bool :=
  match v with
  | Some s => negb (String.eqb s "")
  | None => false
  end.

(** The date loop: [article['date'] = text or datetime], left as soon as
    the value is truthy; a selector whose call raises is passed over. *)
Fixpoint resolve_date (find : string -> option (string * option string))
    (selectors : list string) (current : option string) : option string :=
  match selectors with
  | [] => current
  | s :: tl =>
      match find s with
      | None => resolve_date find tl current
      | Some (text, datetime) =>
          let v := if String.eqb text "" then datetime else Some text in
          if truthy v then v else resolve_date find tl v
      end
  end.

Definition is_some_string (v : option string) (s : string) : bool :=
  match v with
  | Some x => String.eqb x s
  | None => false
  end.

(** The sum of the whole-word matches of the variations, found with
    [re.IGNORECASE], in the lower-cased content. *)
Definition count_mentions (name_variations : list string) (content : string) : nat :=
  fold_left
    (fun acc variation =>
       acc + Re.count_words_ignorecase variation (Str.lower content))
    name_variations 0.

(** One turn of the loop of [get_article_content]. *)
Definition retrieve (a : Article) (v : Visit) : Article :=
  if negb (navigate (v_get_ok v) (link a)) then
    extraction_failed a "Content extraction failed - page could not be loaded"
  else
    let page := v_page v in
    match resolve_first (find_content page) content_selectors with
    | None =>
        extraction_failed a "Content extraction failed - content element not found"
    | Some content_element =>
        match early_failure page with
        | Some e => extraction_failed a ("Content extraction failed: " ++ e)
        | None =>
            let paragraphs_text :=
              filter (fun p => negb (String.eqb p "")) (ce_paragraphs content_element) in
            let content := join_lines paragraphs_text in
            let content :=
              if (Str.len content <? 100)%nat
              then ce_text content_element else content in
            let cats :=
              match first_categories (find_categories page) category_selectors with
              | Some texts => texts
              | None => []
              end in
            let d :=
              if is_some_string (date a) "Date not found"
              then resolve_date (find_date page) page_date_selectors (date a)
              else date a in
            let a := set_categories_date a cats d in
            let name_variations := snd (normalize_company_name (company a)) in
            let mentions := count_mentions name_variations content in
            match late_failure page with
            | Some e => extraction_failed a ("Content extraction failed: " ++ e)
            | None =>
                set_content a content mentions
                  (filter (fun p => Str.any_in name_variations (Str.lower p))
                     paragraphs_text)
            end
        end
    end.

(** [visits i] is the visit of the article of index [i]. *)
Fixpoint get_article_content_from (i : nat) (visits : nat -> Visit)
    (articles : list Article) : list Article :=
  match articles with
  | [] => []
  | a :: tl => retrieve a (visits i) :: get_article_content_from (S i) visits tl
  end.

Definition get_article_content (visits : nat -> Visit) (articles : list Article)
    : list Article :=
  get_article_content_from 0 visits articles.

(** ** The whole run *)

(** The file system and the clock as a run meets them: the two time stamps
    that go into the file names, the working directory, and whether a file
    of a given name can be created and written. *)
Record Disk := mkDisk {
  save_time : string;
  report_time : string;
  getcwd : string;
  writes : string -> bool
}.

(** What a call comes to: a value, or an exception. *)
Inductive Outcome (A : Type) : Type :=
| Returned (x : A)
| Raised.

Arguments Returned {A} x.
Arguments Raised {A}.

(** [company_name.replace(" ", "_")] *)
Fixpoint underscore_for_spaces (s : string) : string :=
  match s with
  | EmptyString => EmptyString
  | String c r =>
      String (if Ascii.eqb c " " then "_"%char else c) (underscore_for_spaces r)
  end.

(** [safe_company = company_name.replace(" ", "_").lower()] *)
Definition safe_company (company_name : string) : string :=
  Str.lower (underscore_for_spaces company_name).

Fixpoint ends_with_slash (s : string) : bool :=
  match s with
  | EmptyString => false
  | String c EmptyString => Ascii.eqb c "/"
  | String _ r => ends_with_slash r
  end.

(** [os.path.join(a, b)] with "/" as the separator. *)
Definition path_join (a b : string) : string :=
  if prefix "/" b then b
  else if String.eqb a "" || ends_with_slash a then a ++ b
  else a ++ "/" ++ b.

Definition json_file_name (d : Disk) (company_name : string) : string :=
  safe_company company_name ++ "_esg_articles_" ++ save_time d ++ ".json".

Definition report_file_name (d : Disk) (company_name : string) : string :=
  path_join (getcwd d)
    (safe_company company_name ++ "_esg_report_" ++ report_time d ++ ".html").

(** [save_to_json], called without a file name: nothing is written for an
    empty list; otherwise [DataFrame.to_json] writes the file, and raises
    when the file cannot be written (nothing in [save_to_json] catches
    that). *)
Definition save_to_json (d : Disk) (articles : list Article)
    (company_name : string) : Outcome (option string) :=
  match articles with
  | [] => Returned None
  | _ =>
      let filename := json_file_name d company_name in
      if writes d filename then Returned (Some filename) else Raised
  end.

(** [generate_report], called without a directory: the aggregation
    ([report_summary] below) and the text built from it raise nothing; the
    write is inside a [try], and a failure of it gives [None]. *)
Definition generate_report (d : Disk) (articles : list Article)
    (company_name : string) : option string :=
  match articles with
  | [] => None
  | _ =>
      let filename := report_file_name d company_name in
      if writes d filename then Some filename else None
  end.

(** The dict [run_complete_analysis] returns. *)
Record RunResult := mkResult {
  r_articles : list Article;
  r_json_file : option string;
  r_report_file : option string;
  r_article_count : nat
}.

(** Steps 1 and 2 of [run_complete_analysis]: the search on ESG Today and,
    with fewer than 3 articles, the alternative sources, whose results
    [extend] the list as they are. *)
Definition discover (b : Browser) (company_name : string) : list Article :=
  let articles := search_esg_today_for_company b company_name 5 in
  if (List.length articles <? 3)%nat
  then (articles ++ search_alternative_esg_sources b company_name 5)%list
  else articles.

Section Run.

Variable findall_pattern1 : string -> list (string * string).
Variable findall_pattern2 : string -> list (string * string).

(** The four analysis passes, in the order of [run_complete_analysis]. *)
Definition analysis_passes (articles : list Article) : list Article :=
  extract_quotes findall_pattern1 findall_pattern2
    (detect_sentiment (add_sustainable_finance_data (analyze_esg_themes articles))).

(** [run_complete_analysis]: [None] is the result of the run that found no
    article, and of the run in which a step raises, which the handler around
    the whole body turns into [None]; of the steps, only the saving of the
    JSON file can raise.  [cleanup], in the [finally] clause, changes
    nothing of the result. *)
Definition run_complete_analysis (d : Disk) (b : Browser) (visits : nat -> Visit)
    (company_name : string) : option RunResult :=
  match discover b company_name with
  | [] => None
  | articles =>
      let articles := analysis_passes (get_article_content visits articles) in
      match save_to_json d articles company_name with
      | Raised => None
      | Returned json_file =>
          Some (mkResult articles json_file
                  (generate_report d articles company_name)
                  (List.length articles))
      end
  end.

End Run.

(** ** Failed fetches *)




(** ** Tokens, as the words of a content separated by white space *)

(** White space for [str.split()]. *)
Definition is_space (c : ascii) : bool :=
  let n := nat_of_ascii c in
  ((9 <=? n)%nat && (n <=? 13)%nat) || ((28 <=? n)%nat && (n <=? 32)%nat).

(** [s.split()]: [cur] is the token being read, reversed. *)
Fixpoint split_from (cur : list ascii) (s : string) : list string :=
  let flush (rest : list string) :=
    match cur with
    | [] => rest
    | _ => string_of_list_ascii (rev cur) :: rest
    end in
  match s with
  | EmptyString => flush []
  | String c r =>
      if is_space c then flush (split_from [] r)
      else split_from (c :: cur) r
  end.

Definition tokens (s : string) : list string := split_from [] s.

(** How often [word] is one of the tokens of [content]. *)
Definition token_hits (word : string) (l : list string) : nat :=
  List.length (filter (String.eqb word) l).

Definition token_count (word content : string) : nat :=
  token_hits word (tokens content).

Definition token_total (words : list string) (content : string) : nat :=
  fold_left (fun acc word => acc + token_count word content) words 0.

(** A word that [str.split()] cannot cut: not empty, no white space. *)
Fixpoint no_space (w : string) : bool :=
  match w with
  | EmptyString => true
  | String c r => negb (is_space c) && no_space r
  end.

Definition plain_word (w : string) : bool :=
  negb (String.eqb w "") && no_space w.

(** ** Reading the trace of [safe_get] *)

(** [k] attempts that failed, each followed by the delay. *)
Fixpoint failed_attempts (url : string) (retry_delay k : nat) : list Event :=
  match k with
  | O => []
  | S k' => Get url :: Sleep retry_delay :: failed_attempts url retry_delay k'
  end.

Definition is_get (e : Event) : bool :=
  match e with
  | Get _ => true
  | Sleep _ => false
  end.

Definition attempts_made (events : list Event) : nat :=
  List.length (filter is_get events).

(** ** Whole-word occurrences, position by position *)

(** [s[j:]] *)
Fixpoint drop (j : nat) (s : string) : string :=
  match j, s with
  | O, _ => s
  | S j', String _ r => drop j' r
  | S _, EmptyString => EmptyString
  end.

(** The pattern matches [j] characters further on. *)
Fixpoint match_at (kw : string) (prev : option ascii) (s : string) (j : nat)
    {struct j} : bool :=
  match j with
  | O => Re.match_here kw prev s
  | S j' =>
      match s with
      | EmptyString => false
      | String c r => match_at kw (Some c) r j'
      end
  end.

(** The occurrences at the positions from [skip] on. *)
Fixpoint occurrences_after (kw : string) (prev : option ascii) (s : string)
    (skip : nat) : nat :=
  match s with
  | EmptyString =>
      match skip with
      | O => if Re.match_here kw prev s then 1 else 0
      | S _ => 0
      end
  | String c r =>
      match skip with
      | S k => occurrences_after kw (Some c) r k
      | O => (if Re.match_here kw prev s then 1 else 0)
             + occurrences_after kw (Some c) r 0
      end
  end.

(** A keyword could stand as a whole word at two overlapping places only if
    one of its proper suffixes, starting at a word boundary of the keyword,
    were also a prefix of it. *)
Definition overlaps_at (kw : string) (j : nat) : bool :=
  prefix (drop j kw) kw
  && Re.boundary (String.get (j - 1) kw) (String.get j kw).

Definition overlap_free (kw : string) : bool :=
  forallb (fun j => negb (overlaps_at kw j)) (seq 1 (String.length kw - 1)).

(** The total, over a keyword list, of the whole-word occurrences. *)
Definition whole_word_total (keywords : list string) (content : string) : nat :=
  fold_left (fun acc kw => acc + Re.whole_word_occurrences kw content) keywords 0.

(** The sustainable-finance keywords other than "sustainable bond". *)
Definition other_finance_keywords : list string :=
  filter (fun kw => negb (String.eqb kw "sustainable bond"))
    sustainable_finance_keyword_list.

(** ** Links of an accumulated list *)

Definition links (articles : list Article) : list string := map link articles.

(** [after] is [before] followed by articles that were appended under the
    check on links: their links differ from one another and from every link
    of [before]. *)
Definition appended_under_check (before after : list Article) : Prop :=
  exists added,
    after = (before ++ added)%list
    /\ NoDup (links added)
    /\ forall x, In x added -> ~ In (link x) (links before).

(** ** Sample inputs *)

(** An article whose content names two environmental and two social
    keywords. *)
Definition tied_article : Article :=
  mkArticle "Bank sets targets" (Some "Date not found")
    "https://www.esgnews.com/bank-sets-targets/" "Excerpt not available"
    "ESG Today" "direct_search" "citigroup"
    (Some "Climate pledge and carbon plan meet diversity and equity goals.")
    None None None None None None None None None None None None None None None.

(** An article whose content names one sustainable-finance keyword four
    times, once before a comma and once in capitals. *)
Definition bond_article : Article :=
  mkArticle "Issuer prices notes" (Some "Date not found")
    "https://www.esgnews.com/issuer-prices-notes/" "Excerpt not available"
    "ESG Today" "direct_search" "citigroup"
    (Some "A sustainable bond, a Sustainable Bond, one more sustainable bond and a last sustainable bond were priced; sustainable bonds sell.")
    None None None None None None None None None None None None None None None.

(** An article as a search strategy creates it: no content yet. *)
Definition fresh_article : Article :=
  new_article "Shell sets new target" "Date not found"
    "https://www.esgnews.com/shell-sets-new-target/" "Excerpt not available"
    "ESG Today" "direct_search" "shell".

(** The same article once a page without any text has been retrieved. *)
Definition blank_article : Article :=
  set_content fresh_article "" 0 [].



(** No match of either quote pattern: what both give on any content without
    a double quote. *)
Definition no_quotes (content : string) : list (string * string) := [].

(** An element of a result list whose title link is found by one selector. *)
Definition result_element (t href title_selector : string) : Container :=
  mkContainer false t
    (fun selector =>
       if String.eqb selector title_selector then Some (mkSub t href) else None).

Definition shell_search_url : string := "https://www.esgnews.com/?s=shell".
Definition shell_listing_url : string :=
  "https://www.esgnews.com/category/news/page/1/".
Definition shell_alternative_url : string :=
  "https://www.responsible-investor.com/search-results?searchterm=shell".

Definition shell_result : Container :=
  result_element "Shell sets new target"
    "https://www.esgnews.com/shell-sets-new-target/" "h2.entry-title a".

(** Only the search page of ESG Today loads; it shows one result. *)
Definition single_result_browser : Browser :=
  mkBrowser
    (fun url _ => String.eqb url shell_search_url)
    (fun _ =>
       Shows "<html><body>Search results</body></html>"
         (fun selector =>
            if String.eqb selector "article.post" then [shell_result] else [])).

(** The search page lists one article twice; the first news page loads too
    and shows another article about the company. *)
Definition repeated_result_browser : Browser :=
  mkBrowser
    (fun url _ => String.eqb url shell_search_url || String.eqb url shell_listing_url)
    (fun url =>
       if String.eqb url shell_search_url
       then Shows "<html><body>Search results</body></html>"
              (fun selector =>
                 if String.eqb selector "article.post"
                 then [shell_result; shell_result] else [])
       else Shows "<html><body>Shell in the news</body></html>"
              (fun selector =>
                 if String.eqb selector "article.post"
                 then [ result_element "Shell and BP report"
                          "https://www.esgnews.com/shell-and-bp-report/"
                          "h2.entry-title a" ]
                 else [])).

(** The search page shows one result; the first alternative source loads and
    lists a result with the same link. *)
Definition alternative_browser : Browser :=
  mkBrowser
    (fun url _ => String.eqb url shell_search_url
                  || String.eqb url shell_alternative_url)
    (fun url =>
       if String.eqb url shell_search_url
       then Shows "<html><body>Search results</body></html>"
              (fun selector =>
                 if String.eqb selector "article.post" then [shell_result] else [])
       else Shows "<html><body>Results for shell</body></html>"
              (fun selector =>
                 if String.eqb selector "article"
                 then [ result_element "Shell sets new target"
                          "https://www.esgnews.com/shell-sets-new-target/" "h2 a" ]
                 else [])).

(** A visit whose navigation fails on every attempt. *)
Definition unreachable_visit : Visit :=
  mkVisit (fun _ => false)
    (mkPage (fun _ => None) None (fun _ => None) (fun _ => None) None).

(** An article whose content has 16 words of the positive list and 13 of
    the negative list, each between two spaces. *)
Definition mixed_article : Article :=
  mkArticle "Sector review" (Some "Date not found")
    "https://www.esgnews.com/sector-review/" "Excerpt not available"
    "ESG Today" "direct_search" "shell"
    (Some "The report notes progress and growth and success and innovation and leadership and quality and excellence and commitment and partnership and transparency and trust and benefit and progress and growth and success and quality but also risk and concern and controversy and violation and penalty and litigation and criticism and damage and greenwashing and investigation and scandal and warning and risk in the sector.")
    None None None None None None None None None None None None None None None.

(** An article whose content begins and ends with a word of the negative
    list and has two of them side by side. *)
Definition edge_article : Article :=
  mkArticle "Watchdog statement" (Some "Date not found")
    "https://www.esgnews.com/watchdog-statement/" "Excerpt not available"
    "ESG Today" "direct_search" "shell"
    (Some "Greenwashing is a risk risk managers say and a concern")
    None None None None None None None None None None None None None None None.

(** ** Reading more of the trace and of the results *)

(** The seconds slept in a trace. *)
Definition total_sleep (events : list Event) : nat :=
  list_sum (map (fun e => match e with Sleep d => d | Get _ => 0 end) events).

(** [after] is [before] followed by articles that all satisfy [P]. *)
Definition appended_with (P : Article -> Prop) (before after : list Article) : Prop :=
  exists added, after = (before ++ added)%list /\ Forall P added.

(** The fields no pass after the search writes. *)
Definition identity (a : Article) : string * string * string * string * string * string :=
  (title a, link a, excerpt a, source a, search_method a, company a).

(** An article as the strategies on ESG Today create it. *)
Definition created_by (method standard_name : string) (a : Article) : Prop :=
  search_method a = method
  /\ source a = "ESG Today"
  /\ company a = standard_name
  /\ full_content a = None.

(** The sum of the counters of a dict of counters. *)
Definition counters_sum (d : list (string * nat)) : nat :=
  list_sum (map snd d).

(** The articles that have a value under a key. *)
Definition having {A : Type} (field : Article -> option A) (articles : list Article)
    : list Article :=
  filter (fun a => match field a with Some _ => true | None => false end) articles.

(** A result page that lists three articles. *)
Definition three_result_browser : Browser :=
  mkBrowser
    (fun url _ => String.eqb url shell_search_url)
    (fun _ =>
       Shows "<html><body>Search results</body></html>"
         (fun selector =>
            if String.eqb selector "article.post"
            then [ shell_result;
                   result_element "Shell and BP report"
                     "https://www.esgnews.com/shell-and-bp-report/"
                     "h2.entry-title a";
                   result_element "Shell audit"
                     "https://www.esgnews.com/shell-audit/" "h3 a" ]
            else [])).

(** The search page does not load; the first news page shows two articles
    about the company. *)
Definition browse_only_browser : Browser :=
  mkBrowser
    (fun url _ => String.eqb url shell_listing_url)
    (fun _ =>
       Shows "<html><body>Shell in the news</body></html>"
         (fun selector =>
            if String.eqb selector "article.post"
            then [ result_element "Shell and BP report"
                     "https://www.esgnews.com/shell-and-bp-report/"
                     "h2.entry-title a";
                   result_element "Shell audit"
                     "https://www.esgnews.com/shell-audit/" "h3 a" ]
            else [])).

(** A page that loads and shows a content element without any text. *)
Definition empty_page_visit : Visit :=
  mkVisit (fun _ => true)
    (mkPage
       (fun selector =>
          if String.eqb selector "article" then Some (mkContent [] "") else None)
       None (fun _ => Some []) (fun _ => None) None).

(** An article whose date the search already found. *)
Definition dated_article : Article :=
  new_article "Shell sets new target" "March 3, 2024"
    "https://www.esgnews.com/shell-sets-new-target/" "Excerpt not available"
    "ESG Today" "direct_search" "shell".

(** A page that loads, with two paragraphs and a date of its own. *)
Definition full_page_visit : Visit :=
  mkVisit (fun _ => true)
    (mkPage
       (fun selector =>
          if String.eqb selector "div.entry-content"
          then Some (mkContent
                       ["Shell sets a new target for seashells."; "";
                        "Regulators welcomed the plan."]
                       "Shell sets a new target for seashells. Regulators welcomed the plan.")
          else None)
       None (fun _ => Some ["Energy"])
       (fun _ => Some ("April 1, 2024", None)) None).

(** What an analysis pass leaves as it is. *)
Definition kept_by_pass (f : Article -> Article) : Prop :=
  forall a,
    identity (f a) = identity a
    /\ date (f a) = date a
    /\ categories (f a) = categories a
    /\ full_content (f a) = full_content a
    /\ mention_count (f a) = mention_count a
    /\ relevant_paragraphs (f a) = relevant_paragraphs a.

(** The double quote character. *)
Definition dq : string := String (ascii_of_nat 34) EmptyString.

(** An article whose content is a quotation followed by its speaker. *)
Definition quoted_content : string :=
  dq ++ "We will cut emissions," ++ dq
  ++ " said Shell chief Wael Sawan. Analysts agreed.".

Definition quoted_article : Article :=
  set_content fresh_article quoted_content 1 [].

(** What the two quote patterns find in [quoted_content]: the first the
    quotation and its speaker, the second nothing. *)
Definition sample_pattern1 (content : string) : list (string * string) :=
  if String.eqb content quoted_content
  then [("We will cut emissions,", "Shell chief Wael Sawan")] else [].

Definition sample_pattern2 (content : string) : list (string * string) := [].

(** The order of the ranking: at least as many mentions. *)
Definition ranks_before (x y : Article) : Prop := mention_key y <= mention_key x.

(** The articles of a list that have [k] mentions, in the order of the list. *)
Definition with_mentions (k : nat) (articles : list Article) : list Article :=
  filter (fun a => Nat.eqb (mention_key a) k) articles.

(** [x.get(key, 0)] for a theme count. *)
Definition count_or_zero (theme : ThemeCounts -> nat) (a : Article) : nat :=
  match esg_theme_counts a with
  | Some c => theme c
  | None => 0
  end.

(** No analysis pass has written to the article. *)
Definition unanalysed (a : Article) : Prop :=
  esg_theme_counts a = None /\ esg_keywords a = None
  /\ primary_esg_focus a = None
  /\ sustainable_finance_mentions a = None
  /\ sustainable_finance_keywords a = None
  /\ sustainable_finance_focus a = None
  /\ sentiment_score a = None /\ sentiment a = None
  /\ positive_words a = None /\ negative_words a = None
  /\ quotes a = None /\ quote_count a = None.

(** Every analysis pass has written to the article. *)
Definition analysed (a : Article) : Prop :=
  (exists f, primary_esg_focus a = Some f
             /\ In f ["environmental"; "social"; "governance"; "undetermined"])
  /\ (exists l, sentiment a = Some l /\ In l ["positive"; "neutral"; "negative"])
  /\ esg_theme_counts a <> None /\ esg_keywords a <> None
  /\ sustainable_finance_mentions a <> None
  /\ sustainable_finance_keywords a <> None
  /\ sustainable_finance_focus a <> None
  /\ sentiment_score a <> None
  /\ positive_words a <> None /\ negative_words a <> None
  /\ quotes a <> None /\ quote_count a <> None.

(** The value the date loop assigns for an element found:
    [text or datetime]. *)
Definition date_value (found : string * option string) : option string :=
  if String.eqb (fst found) "" then snd found else Some (fst found).

(** The same result page as [three_result_browser], on a site whose every
    other page loads as well. *)
Definition busy_browser : Browser :=
  mkBrowser
    (fun url attempt =>
       if String.eqb url shell_search_url
       then get_ok three_result_browser url attempt else true)
    (body three_result_browser).

(** A working directory without sub-directories, in which every file can
    be written: a name with a "/" in it, beyond the directory itself, names
    a file in a directory that does not exist. *)
Definition flat_disk : Disk :=
  mkDisk "20240301_101500" "20240301_101501" "/srv/esg"
    (fun name =>
       let local :=
         if prefix "/srv/esg/" name
         then substring 9 (String.length name - 9) name else name in
       negb (Str.contains "/" local)).

(** A disk on which nothing can be written. *)
Definition full_disk : Disk :=
  mkDisk "20240301_101500" "20240301_101501" "/srv/esg" (fun _ => false).

(** The search page for "Novo Nordisk A/S" loads and shows one result; no
    other page loads. *)
Definition novo_browser : Browser :=
  mkBrowser
    (fun url _ => String.eqb url "https://www.esgnews.com/?s=Novo+Nordisk+A/S")
    (fun _ =>
       Shows "<html><body>Search results</body></html>"
         (fun selector =>
            if String.eqb selector "article.post"
            then [ result_element "Novo Nordisk sets new target"
                     "https://www.esgnews.com/novo-nordisk-sets-new-target/"
                     "h2.entry-title a" ]
            else [])).

(** What one alternative source gives when it is read: nothing when it
    does not load or a driver call on its page raises, otherwise the
    articles of its first [max_results] elements. *)
Definition alt_source_results (b : Browser) (company_name : string)
    (max_results : nat) (source : string * string) : list Article :=
  let '(name, url) := source in
  if navigate (get_ok b url) url then
    match body b url with
    | Raises => []
    | Shows _ find_elements =>
        fold_left (alt_container name company_name)
          (firstn max_results (first_nonempty find_elements alt_article_selectors))
          []
    end
  else [].

(** The first alternative source does not load, the second loads and lists
    nothing, the third lists one article. *)
Definition later_source_browser : Browser :=
  mkBrowser
    (fun url _ => negb (prefix "https://www.responsible-investor.com/" url)
                  && negb (prefix "https://www.esgnews.com/" url)
                  && negb (prefix "https://www.google.com/" url))
    (fun url =>
       if prefix "https://www.sustainableviews.com/" url
       then Shows "<html><body>Results for shell</body></html>"
              (fun selector =>
                 if String.eqb selector ".post"
                 then [ result_element "Shell and the transition"
                          "https://www.sustainableviews.com/shell-transition/"
                          "h3 a" ]
                 else [])
       else Shows "<html><body>No results</body></html>" (fun _ => [])).


(** An article whose content has 41 words of the positive list and 39 of
    the negative list, each between two spaces: the quotient is 1/40. *)
Definition tie_article : Article :=
  mkArticle "Annual review" (Some "Date not found")
    "https://www.esgnews.com/annual-review/" "Excerpt not available"
    "ESG Today" "direct_search" "shell"
    (Some "The review lists positive and success and innovation and leadership and achieve and improve and progress and sustainable and responsible and ethical and benefit and advance and growth and excellence and quality and commitment and partnership and transparency and trust and award and positive and success and innovation and leadership and achieve and improve and progress and sustainable and responsible and ethical and benefit and advance and growth and excellence and quality and commitment and partnership and transparency and trust and award and positive and negative and fail and risk and concern and issue and problem and controversy and violation and penalty and fine and litigation and criticism and damage and greenwashing and investigation and scandal and warning and insufficient and dangerous and harmful and misleading and negative and fail and risk and concern and issue and problem and controversy and violation and penalty and fine and litigation and criticism and damage and greenwashing and investigation and scandal and warning and insufficient in all.")
    None None None None None None None None None None None None None None None.

(** * Properties *)

Example normalize_hit : normalize_company_name "JPMorgan Chase"
  = ("jpmorgan", ["jpmorgan"; "jp morgan"; "j.p. morgan"; "jpm"; "jpmc";
                  "j.p. morgan chase"; "jpmorgan chase"]).
Proof. reflexivity. Qed.

Example normalize_miss : normalize_company_name "Acme Corp"
  = ("acme corp", ["acme corp"; "acmecorp"]).
Proof. reflexivity. Qed.

Example tokens_ex : tokens "  good risk
risk  bad " = ["good"; "risk"; "risk"; "bad"].
Proof. reflexivity. Qed.

Example count_words_ex :
  Re.count_words "sustainable bond" "a sustainable bond, sustainable bonds; sustainable bond" = 2.
Proof. reflexivity. Qed.

Example count_ex : Str.count " good risk risk bad " " risk " = 1.
Proof. reflexivity. Qed.

(** ** The name normalizer *)

Lemma mem_In (x : string) (l : list string) : Str.mem x l = true <-> In x l.
Proof.
  unfold Str.mem. rewrite existsb_exists. split.
  - intros [y [Hy Heq]]. apply String.eqb_eq in Heq. now subst.
  - intros H. exists x. split; [assumption | apply String.eqb_refl].
Qed.

Lemma lower_char_idem (c : ascii) :
  Str.lower_char (Str.lower_char c) = Str.lower_char c.
Proof. destruct c as [[] [] [] [] [] [] [] []]; reflexivity. Qed.

Lemma lower_idem (s : string) : Str.lower (Str.lower s) = Str.lower s.
Proof.
  induction s as [| c r IH]; simpl; [reflexivity |].
  now rewrite lower_char_idem, IH.
Qed.

(** Every key of the table is in lower case, is one of its own variations,
    and is looked up to its own entry. *)
Lemma table_keys_canonical :
  Forall (fun e => Str.lower (fst e) = fst e /\ In (fst e) (snd e)
                   /\ normalize_company_name (fst e) = e)
         company_variations.
Proof.
  unfold company_variations.
  repeat (constructor; [split; [reflexivity | split; [simpl; tauto | reflexivity]] |]).
  constructor.
Qed.

Lemma lower_is_lower_cased (s : string) : lower_cased s (Str.lower s).
Proof.
  split.
  - induction s as [| c r IH]; simpl; [reflexivity | now rewrite IH].
  - induction s as [| c r IH]; intros i x Hget; [discriminate |].
    destruct i as [| i]; simpl in *.
    + injection Hget as ->. unfold Str.lower_char, Str.is_upper.
      split; intros H.
      * destruct H as [H1 H2].
        apply Nat.leb_le in H1. apply Nat.leb_le in H2.
        now rewrite H1, H2.
      * destruct (Nat.leb_spec 65 (nat_of_ascii x));
          destruct (Nat.leb_spec (nat_of_ascii x) 90); simpl;
          try reflexivity.
        exfalso. apply H. now split.
    + now apply IH.
Qed.

Lemma remove_spaces_removes (s : string) :
  spaces_removed s (Str.remove_spaces s).
Proof.
  unfold spaces_removed.
  induction s as [| c r IH]; simpl; [reflexivity |].
  destruct (Ascii.eqb c " "); simpl; [exact IH | now rewrite IH].
Qed.

(** C8: [normalize_company_name] is total, whatever [str.lower] makes of
    the name; it returns a canonical name and a non-empty list of variants
    that contains the lower-cased input.  On a hit the pair is the first
    table entry that lists the lower-cased input; on a miss the canonical
    name is the lower-cased input and the variants are it and it without its
    spaces.  [str.lower] is given as [str_lower]; on ASCII text it is the
    lower-casing of the letters A to Z, and there the result is that of the
    normalizer used in the rest of the model. *)
Theorem normalize_company_name_identity
    (str_lower : string -> string) (company_name : string) :
  (forall s, Str.is_ascii s = true -> str_lower s = Str.lower s) ->
  exists standard_name variations,
    normalize_company_name_with str_lower company_name
    = (standard_name, variations)
    /\ variations <> []
    /\ In (str_lower company_name) variations
    /\ ((In (standard_name, variations) company_variations
         /\ find (entry_has (str_lower company_name)) company_variations
            = Some (standard_name, variations))
        \/ ((forall e, In e company_variations ->
                       ~ In (str_lower company_name) (snd e))
            /\ standard_name = str_lower company_name
            /\ exists squeezed,
                 variations = [str_lower company_name; squeezed]
                 /\ spaces_removed (str_lower company_name) squeezed))
    /\ (Str.is_ascii company_name = true ->
        lower_cased company_name (str_lower company_name)
        /\ normalize_company_name company_name = (standard_name, variations)).
Proof.
  intros Hascii.
  assert (Hlast : forall r,
            normalize_company_name_with str_lower company_name = r ->
            Str.is_ascii company_name = true ->
            lower_cased company_name (str_lower company_name)
            /\ normalize_company_name company_name = r).
  { intros r Hr Ha. rewrite (Hascii _ Ha) in *. split.
    - apply lower_is_lower_cased.
    - rewrite <- Hr. unfold normalize_company_name, normalize_company_name_with.
      now rewrite (Hascii _ Ha). }
  unfold normalize_company_name_with in *.
  destruct (find (entry_has (str_lower company_name)) company_variations)
    as [[std vs] |] eqn:Hfind.
  - destruct (find_some _ _ Hfind) as [Hin Hhas].
    unfold entry_has in Hhas. simpl in Hhas. apply mem_In in Hhas.
    exists std, vs. split; [reflexivity |].
    split; [intros ->; destruct Hhas |].
    split; [assumption |].
    split; [left; split; [assumption | reflexivity] |].
    now apply Hlast.
  - eexists _, _. split; [reflexivity |].
    split; [discriminate |].
    split; [simpl; now left |].
    split; [| now apply Hlast].
    right. split.
    + intros e He Hin.
      pose proof (find_none _ _ Hfind e He) as Hno.
      unfold entry_has in Hno. apply mem_In in Hin. congruence.
    + split; [reflexivity |]. eexists. split; [reflexivity |].
      apply remove_spaces_removes.
Qed.

(** A name in capitals and with a space that the table does not list, and
    one it lists. *)
Lemma normalize_company_name_identity_witness :
  (forall s, Str.is_ascii s = true -> Str.lower s = Str.lower s)
  /\ (exists standard_name variations,
        normalize_company_name_with Str.lower "Acme Corp"
        = (standard_name, variations)
        /\ standard_name = "acme corp"
        /\ variations = ["acme corp"; "acmecorp"]
        /\ lower_cased "Acme Corp" standard_name
        /\ normalize_company_name "Acme Corp" = (standard_name, variations))
  /\ (exists standard_name variations,
        normalize_company_name_with Str.lower "JP Morgan"
        = (standard_name, variations)
        /\ standard_name = "jpmorgan"
        /\ In "jp morgan" variations
        /\ In (standard_name, variations) company_variations).
Proof.
  assert (H : forall s, Str.is_ascii s = true -> Str.lower s = Str.lower s)
    by reflexivity.
  split; [exact H |]. split.
  - destruct (normalize_company_name_identity Str.lower "Acme Corp" H)
      as (std & vs & Heq & _ & _ & _ & Hlast).
    destruct (Hlast eq_refl) as [Hlow Hnorm].
    exists std, vs. split; [exact Heq |].
    vm_compute in Heq. injection Heq as <- <-.
    split; [reflexivity |]. split; [reflexivity |].
    split; [exact Hlow | exact Hnorm].
  - destruct (normalize_company_name_identity Str.lower "JP Morgan" H)
      as (std & vs & Heq & _ & Hin & Hcase & _).
    exists std, vs. split; [exact Heq |].
    vm_compute in Heq. injection Heq as <- <-.
    split; [reflexivity |]. split; [exact Hin |].
    vm_compute. tauto.
Defined.

(** C10: normalizing the canonical name gives the same canonical name and
    the same variants again; every key of the table is in lower case and one
    of its own variations. *)
Theorem normalize_company_name_idempotent (company_name : string) :
  normalize_company_name (fst (normalize_company_name company_name))
  = normalize_company_name company_name
  /\ Forall (fun e => Str.lower (fst e) = fst e /\ In (fst e) (snd e))
            company_variations.
Proof.
  split.
  - unfold normalize_company_name at 2 3. unfold normalize_company_name_with.
    destruct (find (entry_has (Str.lower company_name)) company_variations)
      as [[std vs] |] eqn:Hfind.
    + destruct (find_some _ _ Hfind) as [Hin _].
      pose proof table_keys_canonical as Hall.
      rewrite Forall_forall in Hall.
      destruct (Hall _ Hin) as (_ & _ & Hnorm). exact Hnorm.
    + simpl. unfold normalize_company_name, normalize_company_name_with.
      rewrite lower_idem, Hfind. reflexivity.
  - eapply Forall_impl; [| exact table_keys_canonical].
    intros e (H1 & H2 & _). now split.
Qed.

(** ** Navigation *)

Lemma attempts_made_failed (url : string) (d k : nat) (tl : list Event) :
  attempts_made (failed_attempts url d k ++ tl) = k + attempts_made tl.
Proof.
  induction k as [| k IH]; simpl; [reflexivity |].
  unfold attempts_made in *. simpl. now rewrite IH.
Qed.

(** The loop, entered at [attempt] with the rest of the range before it. *)
Lemma safe_get_loop_spec (get_ok : nat -> bool) (url : string)
    (retries retry_delay : nat) :
  forall remaining attempt,
    1 <= remaining -> attempt + remaining = retries ->
    (exists k,
        attempt <= k < retries /\ get_ok k = true
        /\ (forall j, attempt <= j < k -> get_ok j = false)
        /\ safe_get_loop get_ok url retries retry_delay attempt remaining
           = (Some true,
              (failed_attempts url retry_delay (k - attempt) ++ [Get url])%list))
    \/ ((forall j, attempt <= j < retries -> get_ok j = false)
        /\ safe_get_loop get_ok url retries retry_delay attempt remaining
           = (Some false,
              (failed_attempts url retry_delay (retries - 1 - attempt)
               ++ [Get url])%list)).
Proof.
  induction remaining as [| r IH]; intros attempt Hpos Hsum; [lia |].
  simpl. destruct (get_ok attempt) eqn:Hok.
  - left. exists attempt. split; [lia |]. split; [assumption |].
    split; [intros j Hj; lia |]. now rewrite Nat.sub_diag.
  - destruct (attempt <? retries - 1)%nat eqn:Hlt.
    + apply Nat.ltb_lt in Hlt.
      destruct (IH (S attempt)) as [[k (Hk & Hgk & Hbefore & Heq)] | [Hall Heq]];
        try lia.
      * left. exists k. split; [lia |]. split; [assumption |]. split.
        -- intros j Hj. destruct (Nat.eq_dec j attempt) as [-> | Hne];
             [assumption | apply Hbefore; lia].
        -- rewrite Heq. replace (k - attempt) with (S (k - S attempt)) by lia.
           reflexivity.
      * right. split.
        -- intros j Hj. destruct (Nat.eq_dec j attempt) as [-> | Hne];
             [assumption | apply Hall; lia].
        -- rewrite Heq.
           replace (retries - 1 - attempt) with (S (retries - 1 - S attempt)) by lia.
           reflexivity.
    + apply Nat.ltb_ge in Hlt. right. split.
      * intros j Hj. replace j with attempt by lia. assumption.
      * replace (retries - 1 - attempt) with 0 by lia. reflexivity.
Qed.

(** C9: with [retries >= 1], [safe_get] makes at most [retries] attempts,
    each failed one but the last followed by the fixed delay; it returns
    [True] at the first attempt that succeeds and makes no further one; when
    every attempt fails it returns [False].  It always returns one of the
    two: nothing is raised to the caller. *)
Theorem safe_get_bounded_retries (get_ok : nat -> bool) (url : string)
    (retries retry_delay : nat) :
  1 <= retries ->
  attempts_made (snd (safe_get get_ok url retries retry_delay)) <= retries
  /\ ((exists k,
          k < retries /\ get_ok k = true
          /\ (forall j, j < k -> get_ok j = false)
          /\ safe_get get_ok url retries retry_delay
             = (Some true,
                (failed_attempts url retry_delay k ++ [Get url])%list))
      \/ ((forall j, j < retries -> get_ok j = false)
          /\ safe_get get_ok url retries retry_delay
             = (Some false,
                (failed_attempts url retry_delay (retries - 1)
                 ++ [Get url])%list))).
Proof.
  intros Hpos. unfold safe_get.
  destruct (safe_get_loop_spec get_ok url retries retry_delay retries 0 Hpos
              (Nat.add_0_l retries))
    as [[k (Hk & Hgk & Hbefore & Heq)] | [Hall Heq]].
  - rewrite Nat.sub_0_r in Heq. split.
    + rewrite Heq. simpl. rewrite attempts_made_failed.
      change (attempts_made [Get url]) with 1. lia.
    + left. exists k. split; [lia |]. split; [assumption |].
      split; [| assumption]. intros j Hj. apply Hbefore. lia.
  - rewrite Nat.sub_0_r in Heq. split.
    + rewrite Heq. simpl. rewrite attempts_made_failed.
      change (attempts_made [Get url]) with 1. lia.
    + right. split; [| assumption]. intros j Hj. apply Hall. lia.
Qed.

(** A run of [safe_get] with the default three attempts, the third of
    which succeeds. *)
Lemma safe_get_bounded_retries_witness :
  let get_ok := fun k => Nat.eqb k 2 in
  let url := "https://www.esgnews.com/?s=shell" in
  1 <= 3
  /\ attempts_made (snd (safe_get get_ok url 3 2)) <= 3
  /\ ((exists k,
          k < 3 /\ get_ok k = true
          /\ (forall j, j < k -> get_ok j = false)
          /\ safe_get get_ok url 3 2
             = (Some true, (failed_attempts url 2 k ++ [Get url])%list))
      \/ ((forall j, j < 3 -> get_ok j = false)
          /\ safe_get get_ok url 3 2
             = (Some false, (failed_attempts url 2 (3 - 1) ++ [Get url])%list))).
Proof.
  intros get_ok url.
  assert (H : 1 <= 3) by lia.
  split; [exact H |].
  exact (safe_get_bounded_retries get_ok url 3 2 H).
Defined.

Example safe_get_third_attempt :
  safe_get (fun k => Nat.eqb k 2) "https://www.esgnews.com/?s=shell" 3 2
  = (Some true,
     [Get "https://www.esgnews.com/?s=shell"; Sleep 2;
      Get "https://www.esgnews.com/?s=shell"; Sleep 2;
      Get "https://www.esgnews.com/?s=shell"]).
Proof. reflexivity. Qed.

Example safe_get_all_fail :
  safe_get (fun _ => false) "https://www.esgnews.com/?s=shell" 3 2
  = (Some false,
     [Get "https://www.esgnews.com/?s=shell"; Sleep 2;
      Get "https://www.esgnews.com/?s=shell"; Sleep 2;
      Get "https://www.esgnews.com/?s=shell"]).
Proof. reflexivity. Qed.

(** ** Whole-word matching *)

Lemma prefix_empty (s : string) : prefix "" s = true.
Proof. destruct s; reflexivity. Qed.

Lemma prefix_get (kw s : string) :
  prefix kw s = true ->
  forall j, j < String.length kw -> String.get j s = String.get j kw.
Proof.
  revert s. induction kw as [| a kw IH]; intros s Hp j Hj; simpl in Hj; [lia |].
  destruct s as [| b s]; simpl in Hp; [discriminate |].
  destruct (Ascii.ascii_dec a b) as [-> | Hne]; [| discriminate].
  destruct j as [| j]; simpl; [reflexivity |].
  apply IH; [assumption | lia].
Qed.

(** Two prefixes of one string: the shorter is a prefix of the longer. *)
Lemma prefix_comparable (b a s : string) :
  prefix b s = true -> prefix a s = true ->
  String.length b <= String.length a -> prefix b a = true.
Proof.
  revert a s. induction b as [| x b IH]; intros a s Hb Ha Hlen;
    [apply prefix_empty |].
  destruct s as [| z s]; simpl in Hb; [discriminate |].
  destruct a as [| y a]; simpl in Hlen; [lia |].
  simpl in Ha.
  destruct (Ascii.ascii_dec x z) as [-> | ]; [| discriminate].
  destruct (Ascii.ascii_dec y z) as [-> | ]; [| discriminate].
  simpl. destruct (Ascii.ascii_dec z z) as [_ | Hne]; [| now destruct Hne].
  apply (IH a s); [assumption | assumption | lia].
Qed.

Lemma prefix_drop (j : nat) :
  forall kw s, prefix kw s = true -> prefix (drop j kw) (drop j s) = true.
Proof.
  induction j as [| j IH]; intros kw s Hp; [exact Hp |].
  destruct kw as [| a kw]; [simpl; apply prefix_empty |].
  destruct s as [| b s]; simpl in Hp; [discriminate |].
  destruct (Ascii.ascii_dec a b); [| discriminate].
  simpl. now apply IH.
Qed.

Lemma drop_length (j : nat) :
  forall s, String.length (drop j s) <= String.length s.
Proof.
  induction j as [| j IH]; intros s; simpl; [lia |].
  destruct s as [| c r]; simpl; [lia |]. specialize (IH r). lia.
Qed.

Lemma match_here_prefix (kw : string) (prev : option ascii) (s : string) :
  Re.match_here kw prev s = true ->
  prefix kw s = true /\ Re.boundary prev (String.get 0 s) = true.
Proof.
  unfold Re.match_here. intros H.
  apply andb_prop in H. destruct H as [H _].
  apply andb_prop in H. exact H.
Qed.

(** A match [j+1] characters further on: the keyword is a prefix of what is
    left there and a word boundary lies just before. *)
Lemma match_at_succ (kw : string) (j : nat) :
  forall prev s,
    match_at kw prev s (S j) = true ->
    prefix kw (drop (S j) s) = true
    /\ Re.boundary (String.get j s) (String.get (S j) s) = true.
Proof.
  induction j as [| j IH]; intros prev s H; destruct s as [| c r].
  - discriminate H.
  - change (Re.match_here kw (Some c) r = true) in H.
    apply match_here_prefix in H. exact H.
  - discriminate H.
  - change (match_at kw (Some c) r (S j) = true) in H.
    apply IH in H. exact H.
Qed.

(** Inside a whole-word occurrence of an overlap-free keyword no other
    occurrence begins. *)
Lemma no_match_inside (kw : string) (prev : option ascii) (s : string) (j : nat) :
  overlap_free kw = true ->
  Re.match_here kw prev s = true ->
  S j < String.length kw ->
  match_at kw prev s (S j) = false.
Proof.
  intros Hfree Hm Hj.
  destruct (match_at kw prev s (S j)) eqn:Hat; [exfalso | reflexivity].
  apply match_here_prefix in Hm. destruct Hm as [Hp _].
  apply match_at_succ in Hat. destruct Hat as [Hp' Hb].
  unfold overlap_free in Hfree. rewrite forallb_forall in Hfree.
  assert (Hin : In (S j) (seq 1 (String.length kw - 1))) by (apply in_seq; lia).
  specialize (Hfree _ Hin). apply negb_true_iff in Hfree.
  unfold overlaps_at in Hfree.
  replace (S j - 1) with j in Hfree by lia.
  rewrite <- (prefix_get kw s Hp j), <- (prefix_get kw s Hp (S j)) in Hfree by lia.
  rewrite Hb, andb_true_r in Hfree.
  rewrite (prefix_comparable (drop (S j) kw) kw (drop (S j) s)) in Hfree.
  - discriminate.
  - now apply prefix_drop.
  - assumption.
  - apply drop_length.
Qed.

Lemma occurrences_after_skip (kw : string) (k : nat) :
  forall prev s,
    (forall j, j < k -> match_at kw prev s j = false) ->
    occurrences_after kw prev s k = occurrences_after kw prev s 0.
Proof.
  induction k as [| k IH]; intros prev s Hno; [reflexivity |].
  pose proof (Hno 0 (Nat.lt_0_succ k)) as H0. simpl in H0.
  destruct s as [| c r]; simpl; rewrite H0; [reflexivity |].
  simpl. apply IH. intros j Hj. apply (Hno (S j)). lia.
Qed.

Lemma occurrences_after_0 (kw : string) :
  forall s prev, occurrences_after kw prev s 0 = Re.occurrences_from kw prev s.
Proof.
  induction s as [| c r IH]; intros prev; simpl.
  - lia.
  - now rewrite IH.
Qed.

(** The scan of [findall] finds every whole-word occurrence of an
    overlap-free keyword. *)
Lemma findall_from_occurrences (kw : string) :
  overlap_free kw = true ->
  forall s prev skip,
    Re.findall_from kw prev s skip = occurrences_after kw prev s skip.
Proof.
  intros Hfree. induction s as [| c r IH]; intros prev skip.
  - reflexivity.
  - destruct skip as [| k]; simpl; [| apply IH].
    destruct (Re.match_here kw prev (String c r)) eqn:Hm.
    + rewrite IH. simpl. f_equal.
      apply occurrences_after_skip. intros j Hj.
      apply (no_match_inside kw prev (String c r) j Hfree Hm). lia.
    + now rewrite IH.
Qed.

Theorem count_words_occurrences (kw s : string) :
  overlap_free kw = true ->
  Re.count_words kw s = Re.whole_word_occurrences kw s.
Proof.
  intros Hfree. unfold Re.count_words, Re.whole_word_occurrences.
  rewrite (findall_from_occurrences kw Hfree). apply occurrences_after_0.
Qed.

Lemma fold_left_add_ext (f g : string -> nat) (l : list string) :
  (forall x, In x l -> f x = g x) ->
  forall acc, fold_left (fun a x => a + f x) l acc
              = fold_left (fun a x => a + g x) l acc.
Proof.
  induction l as [| x l IH]; intros Hext acc; simpl; [reflexivity |].
  rewrite (Hext x) by now left.
  apply IH. intros y Hy. apply Hext. now right.
Qed.

Lemma keyword_total_occurrences (keywords : list string) (content : string) :
  forallb overlap_free keywords = true ->
  keyword_total keywords content = whole_word_total keywords content.
Proof.
  intros Hall. unfold keyword_total, whole_word_total.
  apply fold_left_add_ext. intros kw Hin.
  apply count_words_occurrences.
  rewrite forallb_forall in Hall. now apply Hall.
Qed.

Lemma keyword_lists_overlap_free :
  forallb overlap_free environmental_keywords = true
  /\ forallb overlap_free social_keywords = true
  /\ forallb overlap_free governance_keywords = true
  /\ forallb overlap_free sustainable_finance_keyword_list = true.
Proof. repeat split; vm_compute; reflexivity. Qed.

(** ** Theme analysis *)

Lemma no_content_false (a : Article) (content : string) :
  full_content a = Some content -> content <> "" -> no_content a = false.
Proof.
  intros Hc Hne. unfold no_content. rewrite Hc.
  apply String.eqb_neq. assumption.
Qed.

(** The primary focus in terms of the three counts. *)
Lemma primary_focus_cases (c : ThemeCounts) :
  (environmental c = 0 /\ social c = 0 /\ governance c = 0
   /\ primary_focus c = "undetermined")
  \/ (primary_focus c = "environmental" /\ 0 < environmental c
      /\ social c <= environmental c /\ governance c <= environmental c)
  \/ (primary_focus c = "social" /\ environmental c < social c
      /\ governance c <= social c)
  \/ (primary_focus c = "governance" /\ environmental c < governance c
      /\ social c < governance c).
Proof.
  destruct c as [e s g]. unfold primary_focus. simpl.
  destruct (Nat.ltb_spec e s) as [Hes | Hes]; simpl;
    [destruct (Nat.ltb_spec s g) as [Hg | Hg]
    | destruct (Nat.ltb_spec e g) as [Hg | Hg]]; simpl.
  - destruct (Nat.ltb_spec 0 g); [| lia]. right. right. right. repeat split; lia.
  - destruct (Nat.ltb_spec 0 s); [| lia]. right. right. left. repeat split; lia.
  - destruct (Nat.ltb_spec 0 g); [| lia]. right. right. right. repeat split; lia.
  - destruct (Nat.ltb_spec 0 e).
    + right. left. repeat split; lia.
    + left. repeat split; lia.
Qed.

Example primary_focus_tie :
  primary_focus (mkCounts 2 2 0) = "environmental"
  /\ primary_focus (mkCounts 0 3 3) = "social"
  /\ primary_focus (mkCounts 0 0 0) = "undetermined".
Proof. repeat split. Qed.

Lemma primary_focus_undetermined (c : ThemeCounts) :
  primary_focus c = "undetermined"
  <-> environmental c = 0 /\ social c = 0 /\ governance c = 0.
Proof.
  destruct (primary_focus_cases c)
    as [(He & Hs & Hg & Hp) | [(Hp & H) | [(Hp & H) | (Hp & H)]]];
    rewrite Hp; split; intros H'; try discriminate; try tauto; lia.
Qed.

(** C4: for an article with non-empty content, [analyze_esg_themes] stores
    the counts of the three themes and a primary focus that is
    "undetermined" exactly when the three counts are 0, and otherwise the
    theme of the largest count, the first of environmental, social,
    governance among equals. *)
Theorem analyze_esg_themes_primary_focus (articles : list Article) (i : nat)
    (a : Article) (content : string) :
  nth_error articles i = Some a ->
  full_content a = Some content ->
  content <> "" ->
  exists a',
    nth_error (analyze_esg_themes articles) i = Some a'
    /\ let c := theme_counts_of (Str.lower content) in
       esg_theme_counts a' = Some c
       /\ (primary_esg_focus a' = Some "undetermined"
           <-> environmental c = 0 /\ social c = 0 /\ governance c = 0)
       /\ ((environmental c = 0 /\ social c = 0 /\ governance c = 0
            /\ primary_esg_focus a' = Some "undetermined")
           \/ (primary_esg_focus a' = Some "environmental"
               /\ 0 < environmental c
               /\ social c <= environmental c
               /\ governance c <= environmental c)
           \/ (primary_esg_focus a' = Some "social"
               /\ environmental c < social c /\ governance c <= social c)
           \/ (primary_esg_focus a' = Some "governance"
               /\ environmental c < governance c /\ social c < governance c)).
Proof.
  intros Hnth Hc Hne.
  exists (analyze_article a). split.
  - unfold analyze_esg_themes. rewrite nth_error_map, Hnth. reflexivity.
  - unfold analyze_article. rewrite (no_content_false a content Hc Hne), Hc.
    cbv zeta. cbn [esg_theme_counts primary_esg_focus].
    split; [reflexivity |]. split.
    + rewrite <- primary_focus_undetermined. split; intros H.
      * now injection H.
      * now rewrite H.
    + destruct (primary_focus_cases (theme_counts_of (Str.lower content)))
        as [(He & Hs & Hg & Hp) | [(Hp & H) | [(Hp & H) | (Hp & H)]]];
        rewrite Hp; tauto.
Qed.

(** Counts environmental 2, social 2, governance 0: the focus is
    "environmental". *)
Lemma analyze_esg_themes_primary_focus_witness :
  exists a',
    nth_error (analyze_esg_themes [tied_article]) 0 = Some a'
    /\ esg_theme_counts a' = Some (mkCounts 2 2 0)
    /\ primary_esg_focus a' = Some "environmental".
Proof.
  destruct (analyze_esg_themes_primary_focus [tied_article] 0 tied_article
              "Climate pledge and carbon plan meet diversity and equity goals."
              eq_refl eq_refl ltac:(discriminate))
    as [a' [Hnth [Hcounts _]]].
  exists a'. split; [exact Hnth |].
  split; [exact Hcounts |].
  injection Hnth as <-. reflexivity.
Defined.

(** ** Sustainable-finance analysis *)

(** The total over the list is the occurrences of "sustainable bond" plus
    the total over the other keywords. *)
Lemma finance_total_split (content : string) :
  whole_word_total sustainable_finance_keyword_list content
  = Re.whole_word_occurrences "sustainable bond" content
    + whole_word_total other_finance_keywords content.
Proof.
  unfold whole_word_total, other_finance_keywords, sustainable_finance_keyword_list.
  cbn [filter String.eqb Ascii.eqb Bool.eqb negb fold_left andb]. lia.
Qed.

(** C7: for an article with non-empty content,
    [add_sustainable_finance_data] stores as mentions the total number of
    whole-word occurrences of the sustainable-finance keywords in the
    lower-cased content, and as focus whether that total is greater than 3:
    3 gives false, 4 gives true.  A content with 4 whole-word occurrences
    of "sustainable bond" has focus true, and 4 mentions when no other
    keyword of the list occurs in it. *)
Theorem add_sustainable_finance_data_focus (articles : list Article) (i : nat)
    (a : Article) (content : string) :
  nth_error articles i = Some a ->
  full_content a = Some content ->
  content <> "" ->
  exists a',
    nth_error (add_sustainable_finance_data articles) i = Some a'
    /\ let mentions :=
         whole_word_total sustainable_finance_keyword_list (Str.lower content) in
       sustainable_finance_mentions a' = Some mentions
       /\ (sustainable_finance_focus a' = Some true <-> 3 < mentions)
       /\ (sustainable_finance_focus a' = Some false <-> mentions <= 3)
       /\ (mentions = 3 -> sustainable_finance_focus a' = Some false)
       /\ (mentions = 4 -> sustainable_finance_focus a' = Some true)
       /\ (Re.whole_word_occurrences "sustainable bond" (Str.lower content) = 4 ->
           sustainable_finance_focus a' = Some true
           /\ (whole_word_total other_finance_keywords (Str.lower content) = 0 ->
               sustainable_finance_mentions a' = Some 4)).
Proof.
  intros Hnth Hc Hne.
  exists (finance_article a). split.
  - unfold add_sustainable_finance_data. rewrite nth_error_map, Hnth. reflexivity.
  - unfold finance_article. rewrite (no_content_false a content Hc Hne), Hc.
    cbv zeta. cbn [sustainable_finance_mentions sustainable_finance_focus].
    rewrite (keyword_total_occurrences sustainable_finance_keyword_list)
      by apply keyword_lists_overlap_free.
    pose proof (finance_total_split (Str.lower content)) as Hsplit.
    set (m := whole_word_total sustainable_finance_keyword_list (Str.lower content))
      in *.
    split; [reflexivity |].
    destruct (Nat.ltb_spec 3 m) as [Hlt | Hge].
    + repeat split; intros; try reflexivity; try discriminate; try lia.
      f_equal. lia.
    + repeat split; intros; try reflexivity; try discriminate; try lia.
Qed.

(** Four whole-word occurrences of "sustainable bond" (and a fifth place
    where it is only part of the word "bonds"): 4 mentions, focus true. *)
Lemma add_sustainable_finance_data_focus_witness :
  exists a',
    nth_error (add_sustainable_finance_data [bond_article]) 0 = Some a'
    /\ Re.whole_word_occurrences "sustainable bond"
         (Str.lower (match full_content bond_article with
                     | Some c => c | None => "" end)) = 4
    /\ sustainable_finance_mentions a' = Some 4
    /\ sustainable_finance_focus a' = Some true.
Proof.
  destruct (add_sustainable_finance_data_focus [bond_article] 0 bond_article _
              eq_refl eq_refl ltac:(discriminate))
    as [a' [Hnth [Hm [Hfocus _]]]].
  exists a'. split; [exact Hnth |].
  split; [vm_compute; reflexivity |].
  split; [rewrite Hm; vm_compute; reflexivity |].
  apply Hfocus. vm_compute. lia.
Defined.

(** ** Articles without content *)

Lemma passes_nth (m1 m2 : string -> list (string * string))
    (articles : list Article) (i : nat) :
  nth_error (analysis_passes m1 m2 articles) i
  = option_map
      (fun a => quotes_article m1 m2
                  (sentiment_article (finance_article (analyze_article a))))
      (nth_error articles i).
Proof.
  unfold analysis_passes, extract_quotes, detect_sentiment,
    add_sustainable_finance_data, analyze_esg_themes.
  rewrite !nth_error_map. destruct (nth_error articles i); reflexivity.
Qed.

(** The claim of C3 read on [fresh_article] (key absent) and on
    [blank_article] (value empty): after the four passes the analysis fields
    are not at their zero or empty defaults, they are absent. *)
Lemma analysis_defaults_counterexample :
  no_content fresh_article = true
  /\ no_content blank_article = true
  /\ analysis_passes no_quotes no_quotes [fresh_article; blank_article]
     = [fresh_article; blank_article]
  /\ map esg_theme_counts
       (analysis_passes no_quotes no_quotes [fresh_article; blank_article])
     = [None; None]
  /\ map primary_esg_focus
       (analysis_passes no_quotes no_quotes [fresh_article; blank_article])
     = [None; None]
  /\ map sustainable_finance_mentions
       (analysis_passes no_quotes no_quotes [fresh_article; blank_article])
     = [None; None]
  /\ map sentiment
       (analysis_passes no_quotes no_quotes [fresh_article; blank_article])
     = [None; None]
  /\ map quote_count
       (analysis_passes no_quotes no_quotes [fresh_article; blank_article])
     = [None; None]
  /\ esg_theme_counts (analyze_article fresh_article) <> Some (mkCounts 0 0 0)
  /\ sentiment_score (sentiment_article fresh_article) <> Some 0%Q
  /\ quote_count (quotes_article no_quotes no_quotes fresh_article) <> Some 0.
Proof. repeat split; try reflexivity; discriminate. Qed.

(** C3, amended: every analysis pass passes over an article whose content
    is absent or empty and leaves it as it is, whatever the two quote
    patterns find; no analysis field is written. *)
Theorem analysis_skips_missing_content
    (m1 m2 : string -> list (string * string))
    (articles : list Article) (i : nat) (a : Article) :
  nth_error articles i = Some a ->
  no_content a = true ->
  nth_error (analyze_esg_themes articles) i = Some a
  /\ nth_error (add_sustainable_finance_data articles) i = Some a
  /\ nth_error (detect_sentiment articles) i = Some a
  /\ nth_error (extract_quotes m1 m2 articles) i = Some a
  /\ nth_error (analysis_passes m1 m2 articles) i = Some a.
Proof.
  intros Hnth Hno.
  assert (H1 : analyze_article a = a) by (unfold analyze_article; now rewrite Hno).
  assert (H2 : finance_article a = a) by (unfold finance_article; now rewrite Hno).
  assert (H3 : sentiment_article a = a) by (unfold sentiment_article; now rewrite Hno).
  assert (H4 : quotes_article m1 m2 a = a) by (unfold quotes_article; now rewrite Hno).
  unfold analyze_esg_themes, add_sustainable_finance_data, detect_sentiment,
    extract_quotes.
  rewrite passes_nth, !nth_error_map, Hnth. simpl.
  rewrite H1, H2, H3, H4. repeat split; reflexivity.
Qed.

(** An article with an empty content, second of two, comes out of the four
    passes as it went in. *)
Lemma analysis_skips_missing_content_witness :
  nth_error [tied_article; blank_article] 1 = Some blank_article
  /\ no_content blank_article = true
  /\ nth_error (analysis_passes no_quotes no_quotes [tied_article; blank_article]) 1
     = Some blank_article.
Proof.
  split; [reflexivity |]. split; [reflexivity |].
  exact (proj2 (proj2 (proj2 (proj2
    (analysis_skips_missing_content no_quotes no_quotes
       [tied_article; blank_article] 1 blank_article eq_refl eq_refl))))).
Defined.

(** ** Failed fetches *)



Lemma get_article_content_length (visits : nat -> Visit) (articles : list Article) :
  List.length (get_article_content visits articles) = List.length articles.
Proof.
  unfold get_article_content. generalize 0.
  induction articles as [| a tl IH]; intros k; simpl; [reflexivity |].
  now rewrite IH.
Qed.

Lemma analysis_passes_length (m1 m2 : string -> list (string * string))
    (articles : list Article) :
  List.length (analysis_passes m1 m2 articles) = List.length articles.
Proof.
  unfold analysis_passes, extract_quotes, detect_sentiment,
    add_sustainable_finance_data, analyze_esg_themes.
  now rewrite !length_map.
Qed.










Example discover_single_result :
  discover single_result_browser "shell" = [fresh_article].
Proof. vm_compute. reflexivity. Qed.

Lemma save_to_json_outcome (d : Disk) (articles : list Article)
    (company_name : string) :
  articles <> [] ->
  save_to_json d articles company_name
  = if writes d (json_file_name d company_name)
    then Returned (Some (json_file_name d company_name)) else Raised.
Proof. destruct articles; [congruence | reflexivity]. Qed.

(** The run, once an article is found: the articles retrieved and analysed,
    returned unless the JSON file cannot be written. *)
Lemma run_complete_analysis_found (m1 m2 : string -> list (string * string))
    (d : Disk) (b : Browser) (visits : nat -> Visit) (company_name : string) :
  discover b company_name <> [] ->
  let articles :=
    analysis_passes m1 m2 (get_article_content visits (discover b company_name)) in
  articles <> []
  /\ run_complete_analysis m1 m2 d b visits company_name
     = if writes d (json_file_name d company_name)
       then Some (mkResult articles (Some (json_file_name d company_name))
                    (generate_report d articles company_name)
                    (List.length articles))
       else None.
Proof.
  intros Hne articles.
  assert (Hlen : List.length articles = List.length (discover b company_name)).
  { unfold articles. now rewrite analysis_passes_length, get_article_content_length. }
  assert (Hne' : articles <> []).
  { intros Hnil. rewrite Hnil in Hlen. destruct (discover b company_name);
      [congruence | discriminate]. }
  split; [exact Hne' |].
  unfold run_complete_analysis.
  destruct (discover b company_name) as [| x tl] eqn:Hd; [congruence |].
  fold articles. rewrite (save_to_json_outcome d articles company_name Hne').
  destruct (writes d (json_file_name d company_name)); reflexivity.
Qed.



(** The same failed fetch for a company whose name has a "/" in it: the
    name of the JSON file then names a directory that does not exist, the
    saving raises and the run returns nothing, although an article was
    found. *)
Example run_unwritable_name :
  discover novo_browser "Novo Nordisk A/S" <> []
  /\ json_file_name flat_disk "Novo Nordisk A/S"
     = "novo_nordisk_a/s_esg_articles_20240301_101500.json"
  /\ run_complete_analysis no_quotes no_quotes flat_disk novo_browser
       (fun _ => unreachable_visit) "Novo Nordisk A/S" = None.
Proof.
  split; [vm_compute; discriminate |]. split; vm_compute; reflexivity.
Qed.

(** ** Deduplication by link *)

Lemma has_link_In (l : string) (articles : list Article) :
  has_link l articles = true <-> In l (links articles).
Proof.
  unfold has_link, links. rewrite existsb_exists, in_map_iff. split.
  - intros [a [Ha Heq]]. apply String.eqb_eq in Heq. now exists a.
  - intros [a [Heq Ha]]. exists a. split; [assumption |].
    now apply String.eqb_eq.
Qed.

Lemma appended_refl (articles : list Article) :
  appended_under_check articles articles.
Proof.
  exists []. split; [now rewrite app_nil_r |].
  split; [constructor | intros x []].
Qed.

Lemma appended_trans (l1 l2 l3 : list Article) :
  appended_under_check l1 l2 -> appended_under_check l2 l3 ->
  appended_under_check l1 l3.
Proof.
  intros (add1 & -> & Hnd1 & Hfresh1) (add2 & -> & Hnd2 & Hfresh2).
  exists (add1 ++ add2)%list. split; [now rewrite app_assoc |]. split.
  - unfold links in *. rewrite map_app.
    apply NoDup_app; try assumption.
    intros l Hin1 Hin2.
    apply in_map_iff in Hin2. destruct Hin2 as [x [<- Hx]].
    apply (Hfresh2 x Hx). rewrite map_app. apply in_or_app. now right.
  - intros x Hx. apply in_app_or in Hx. destruct Hx as [Hx | Hx].
    + now apply Hfresh1.
    + intros Hin. apply (Hfresh2 x Hx).
      unfold links in *. rewrite map_app. apply in_or_app. now left.
Qed.

(** The guarded append adds an article only under a link not yet there. *)
Lemma append_new_checked (articles : list Article) (article_data : Article) :
  appended_under_check articles (append_new articles article_data).
Proof.
  unfold append_new.
  destruct (has_link (link article_data) articles) eqn:Hhas.
  - apply appended_refl.
  - exists [article_data]. split; [reflexivity |]. split.
    + simpl. constructor; [intros [] | constructor].
    + intros x [<- | []]. intros Hin.
      apply has_link_In in Hin. congruence.
Qed.

Lemma fold_left_checked {A : Type} (step : list Article -> A -> list Article) :
  (forall l x, appended_under_check l (step l x)) ->
  forall xs l, appended_under_check l (fold_left step xs l).
Proof.
  intros Hstep. induction xs as [| x xs IH]; intros l; simpl.
  - apply appended_refl.
  - eapply appended_trans; [apply Hstep | apply IH].
Qed.

Lemma browse_container_checked (vars : list string) (std : string)
    (articles : list Article) (c : Container) :
  appended_under_check articles (browse_container vars std articles c).
Proof.
  unfold browse_container.
  destruct (c_broken c); [apply appended_refl |].
  destruct (Str.any_in vars (Str.lower (c_text c))); [| apply appended_refl].
  destruct (read_container "browse_filter" std c);
    [apply append_new_checked | apply appended_refl].
Qed.

Lemma browse_urls_checked (b : Browser) (vars : list string) (std : string)
    (urls : list string) :
  forall articles,
    appended_under_check articles (browse_urls b vars std urls articles).
Proof.
  induction urls as [| u tl IH]; intros articles; simpl.
  - apply appended_refl.
  - destruct (navigate (get_ok b u) u); [| apply IH].
    destruct (body b u) as [| src fe]; [apply appended_refl |].
    destruct (Str.contains "Page not found" src); [apply IH |].
    destruct (Str.any_in vars (Str.lower src)); [| apply appended_refl].
    apply fold_left_checked. intros l x. apply browse_container_checked.
Qed.

Lemma browse_filter_checked (b : Browser) (vars : list string) (std : string)
    (max_pages : nat) (articles : list Article) :
  appended_under_check articles (browse_filter b vars std max_pages articles).
Proof.
  unfold browse_filter. apply fold_left_checked.
  intros l page. apply browse_urls_checked.
Qed.

Lemma google_result_checked (std : string) (articles : list Article)
    (result : Container) :
  appended_under_check articles (google_result std articles result).
Proof.
  unfold google_result.
  destruct (c_broken result); [apply appended_refl |].
  destruct (c_find result "a") as [link_element |]; [| apply appended_refl].
  destruct (Str.contains "esgtoday.com" (se_href link_element));
    [| apply appended_refl].
  destruct (c_find result "h3"); [apply append_new_checked | apply appended_refl].
Qed.

Lemma google_search_checked (b : Browser) (company_name std : string)
    (articles : list Article) :
  appended_under_check articles (google_search b company_name std articles).
Proof.
  unfold google_search.
  match goal with |- context [navigate ?g ?u] => destruct (navigate g u) end;
    [| apply appended_refl].
  match goal with |- context [body ?b ?u] => destruct (body b u) as [| src fe] end;
    [apply appended_refl |].
  apply fold_left_checked. intros l x. apply google_result_checked.
Qed.

Lemma checked_keeps_distinct (before after : list Article) :
  appended_under_check before after ->
  NoDup (links before) -> NoDup (links after).
Proof.
  intros (added & -> & Hnd & Hfresh) Hbefore.
  unfold links in *. rewrite map_app. apply NoDup_app; try assumption.
  intros l Hin1 Hin2. apply in_map_iff in Hin2.
  destruct Hin2 as [x [<- Hx]]. now apply (Hfresh x Hx).
Qed.

Example search_repeated_result :
  links (search_esg_today_for_company repeated_result_browser "shell" 5)
  = [ "https://www.esgnews.com/shell-sets-new-target/";
      "https://www.esgnews.com/shell-sets-new-target/";
      "https://www.esgnews.com/shell-and-bp-report/" ]
  /\ map search_method (search_esg_today_for_company repeated_result_browser "shell" 5)
     = ["direct_search"; "direct_search"; "browse_filter"].
Proof. split; vm_compute; reflexivity. Qed.

Example discover_alternative :
  links (discover alternative_browser "shell")
  = [ "https://www.esgnews.com/shell-sets-new-target/";
      "https://www.esgnews.com/shell-sets-new-target/" ]
  /\ map search_method (discover alternative_browser "shell")
     = ["direct_search"; "alternative_source"].
Proof. split; vm_compute; reflexivity. Qed.

Lemma repeated_head_not_distinct (x : string) (l : list string) :
  ~ NoDup (x :: x :: l).
Proof. intros H. inversion H as [| ? ? Hnotin _]. apply Hnotin. now left. Qed.

(** The claim of C1 read on two runs.  In the first the search page lists
    one article twice: the browse-and-filter stage appends a third article
    under its check, and the links after the stage are not pairwise
    distinct.  In the second the links are pairwise distinct after the
    search on ESG Today, and the article of the alternative source is
    appended although its link is already there. *)
Lemma link_uniqueness_counterexample :
  ~ NoDup (links (search_esg_today_for_company repeated_result_browser "shell" 5))
  /\ NoDup (links (search_esg_today_for_company alternative_browser "shell" 5))
  /\ ~ NoDup (links (discover alternative_browser "shell")).
Proof.
  split; [| split].
  - rewrite (proj1 search_repeated_result). apply repeated_head_not_distinct.
  - vm_compute. constructor; [intros [] | constructor].
  - rewrite (proj1 discover_alternative). apply repeated_head_not_distinct.
Qed.

(** C1, amended: the browse-and-filter stage and the search-engine fallback
    append an article only under a link that no accumulated article has, so
    what each of them returns is what it was given followed by articles of
    pairwise distinct links, none of them a link of what it was given; the
    links stay pairwise distinct through both stages, and are so after the
    search on ESG Today whenever those of the direct search are. *)
Theorem later_strategies_append_under_check (b : Browser)
    (company_name standard_name : string) (name_variations : list string)
    (max_pages : nat) (articles : list Article) :
  appended_under_check articles
    (browse_filter b name_variations standard_name max_pages articles)
  /\ appended_under_check articles
       (google_search b company_name standard_name articles)
  /\ (NoDup (links articles) ->
      NoDup (links (browse_filter b name_variations standard_name max_pages articles))
      /\ NoDup (links (google_search b company_name standard_name articles)))
  /\ appended_under_check
       (direct_search b company_name (fst (normalize_company_name company_name)))
       (search_esg_today_for_company b company_name max_pages)
  /\ (NoDup (links (direct_search b company_name
                      (fst (normalize_company_name company_name)))) ->
      NoDup (links (search_esg_today_for_company b company_name max_pages))).
Proof.
  assert (Hchain :
    appended_under_check
      (direct_search b company_name (fst (normalize_company_name company_name)))
      (search_esg_today_for_company b company_name max_pages)).
  { unfold search_esg_today_for_company.
    destruct (normalize_company_name company_name) as [std vars]. simpl fst.
    set (d := direct_search b company_name std).
    set (after_browse :=
           if (List.length d <? 3)%nat
           then browse_filter b vars std max_pages d else d).
    assert (H1 : appended_under_check d after_browse).
    { unfold after_browse. destruct (List.length d <? 3)%nat;
        [apply browse_filter_checked | apply appended_refl]. }
    destruct (List.length after_browse <? 2)%nat; [| exact H1].
    eapply appended_trans; [exact H1 | apply google_search_checked]. }
  split; [apply browse_filter_checked |].
  split; [apply google_search_checked |].
  split.
  - intros Hnd. split;
      (eapply checked_keeps_distinct; [| exact Hnd]);
      [apply browse_filter_checked | apply google_search_checked].
  - split; [exact Hchain |].
    intros Hnd. eapply checked_keeps_distinct; [exact Hchain | exact Hnd].
Qed.

(** ** Sentiment *)

Lemma round_half_even_near (n d : Z) :
  (0 < d)%Z ->
  (- d <= 2 * (round_half_even n d * d - n) <= d)%Z.
Proof.
  intros Hd. unfold round_half_even.
  pose proof (Z.div_mod n d ltac:(lia)) as Hdm.
  pose proof (Z.mod_pos_bound n d Hd) as Hm.
  set (f := (n / d)%Z) in *. set (m := (n mod d)%Z) in *.
  assert (Hf : (f * d - n = - m)%Z) by lia.
  assert (Hf1 : ((f + 1) * d - n = d - m)%Z) by lia.
  destruct (Z.compare_spec (2 * m) d) as [Hcmp | Hcmp | Hcmp].
  - destruct (Z.even f); [rewrite Hf | rewrite Hf1]; lia.
  - rewrite Hf. lia.
  - rewrite Hf1. lia.
Qed.

(** At a tie the even neighbour is taken. *)
Lemma round_half_even_tie (n d : Z) :
  (0 < d)%Z ->
  (2 * (round_half_even n d * d - n) = d
   \/ 2 * (round_half_even n d * d - n) = - d)%Z ->
  Z.even (round_half_even n d) = true.
Proof.
  intros Hd. unfold round_half_even.
  pose proof (Z.div_mod n d ltac:(lia)) as Hdm.
  pose proof (Z.mod_pos_bound n d Hd) as Hm.
  set (f := (n / d)%Z) in *. set (m := (n mod d)%Z) in *.
  assert (Hf : (f * d - n = - m)%Z) by lia.
  assert (Hf1 : ((f + 1) * d - n = d - m)%Z) by lia.
  destruct (Z.compare_spec (2 * m) d) as [Hcmp | Hcmp | Hcmp].
  - destruct (Z.even f) eqn:He; [intros _; exact He |].
    intros _. change (f + 1)%Z with (Z.succ f).
    rewrite Z.even_succ, <- Z.negb_even, He. reflexivity.
  - rewrite Hf. lia.
  - rewrite Hf1. lia.
Qed.

(** Rounding to the nearest integer keeps the order of the fractions. *)
Lemma round_half_even_mono (n1 d1 n2 d2 : Z) :
  (0 < d1)%Z -> (0 < d2)%Z -> (n1 * d2 <= n2 * d1)%Z ->
  (round_half_even n1 d1 <= round_half_even n2 d2)%Z.
Proof.
  intros Hd1 Hd2 Hle.
  pose proof (round_half_even_near n1 d1 Hd1) as [_ U1].
  pose proof (round_half_even_near n2 d2 Hd2) as [L2 _].
  pose proof (round_half_even_tie n1 d1 Hd1) as T1.
  pose proof (round_half_even_tie n2 d2 Hd2) as T2.
  set (r1 := round_half_even n1 d1) in *.
  set (r2 := round_half_even n2 d2) in *.
  destruct (Z_le_gt_dec r1 r2) as [Hok | Hgt]; [exact Hok | exfalso].
  assert (P : (0 < d1 * d2)%Z) by nia.
  assert (A : ((2 * r1 * d1 - 2 * n1) * d2 <= d1 * d2)%Z) by nia.
  assert (B : (- (d1 * d2) <= (2 * r2 * d2 - 2 * n2) * d1)%Z) by nia.
  assert (C : ((r1 - r2) * (d1 * d2) <= d1 * d2)%Z) by nia.
  assert (E : r1 = (r2 + 1)%Z) by nia.
  assert (E1 : (2 * (r1 * d1 - n1) = d1)%Z) by nia.
  assert (E2 : (2 * (r2 * d2 - n2) = - d2)%Z) by nia.
  specialize (T1 (or_introl E1)). specialize (T2 (or_intror E2)).
  rewrite E in T1. change (r2 + 1)%Z with (Z.succ r2) in T1.
  rewrite Z.even_succ, <- Z.negb_even, T2 in T1. discriminate.
Qed.

Lemma round_half_even_exact (k d : Z) :
  (0 < d)%Z -> round_half_even (k * d) d = k.
Proof.
  intros Hd. unfold round_half_even.
  rewrite Z.div_mul, Z.mod_mul by lia.
  destruct (Z.compare_spec (2 * 0) d); lia.
Qed.

Lemma pow2_pos (s : Z) : (0 <= s)%Z -> (0 < 2 ^ s)%Z.
Proof. intros. apply Z.pow_pos_nonneg; lia. Qed.

(** The places chosen leave the scaled value below 2^53 and, short of the
    subnormal range, at 2^52 or above. *)
Lemma binary64_places_spec (n d : Z) :
  (0 < n)%Z -> (n < 2 ^ 53 * d)%Z ->
  let s := binary64_places n d in
  (0 <= s <= 1074)%Z
  /\ (n * 2 ^ s < 2 ^ 53 * d)%Z
  /\ (s < 1074 -> 2 ^ 52 * d <= n * 2 ^ s)%Z.
Proof.
  intros Hn Hlt. unfold binary64_places.
  set (M := ((2 ^ 53 * d - 1) / n)%Z).
  assert (HM1 : (n * M <= 2 ^ 53 * d - 1)%Z) by (apply Z.mul_div_le; lia).
  assert (HM2 : (2 ^ 53 * d - 1 < n * Z.succ M)%Z)
    by (apply Z.mul_succ_div_gt; lia).
  assert (HMpos : (0 < M)%Z).
  { apply Z.div_str_pos. lia. }
  pose proof (Z.log2_spec M HMpos) as [Hlo Hhi].
  pose proof (Z.log2_nonneg M) as Hnn.
  set (t := Z.log2 M) in *.
  assert (Ht : (n * 2 ^ t < 2 ^ 53 * d)%Z) by nia.
  assert (Hs : (2 ^ Z.succ t = 2 * 2 ^ t)%Z) by (apply Z.pow_succ_r; lia).
  assert (Ht2 : (2 ^ 52 * d <= n * 2 ^ t)%Z).
  { change (2 ^ 53)%Z with (2 * 2 ^ 52)%Z in *. nia. }
  destruct (Z.min_spec t 1074) as [[Hc ->] | [Hc ->]].
  - split; [lia |]. split; [exact Ht |]. intros _. exact Ht2.
  - split; [lia |]. split; [| lia].
    assert (Hp : (2 ^ 1074 <= 2 ^ t)%Z) by (apply Z.pow_le_mono_r; lia).
    pose proof (pow2_pos 1074 ltac:(lia)).
    nia.
Qed.

Lemma Zpos_pow2 (s : Z) : (0 <= s)%Z -> Zpos (Z.to_pos (2 ^ s)) = (2 ^ s)%Z.
Proof. intros Hs. apply Z2Pos.id. now apply pow2_pos. Qed.

(** The mantissa of a positive value: at most 2^53, and at least 2^52 short
    of the subnormal range. *)
Lemma binary64_mantissa (n d : Z) :
  (0 < n)%Z -> (n < 2 ^ 53 * d)%Z ->
  let s := binary64_places n d in
  let m := round_half_even (n * 2 ^ s) d in
  (0 <= m <= 2 ^ 53)%Z /\ (s < 1074 -> 2 ^ 52 <= m)%Z.
Proof.
  intros Hn Hlt s m.
  assert (Hd : (0 < d)%Z) by nia.
  destruct (binary64_places_spec n d Hn Hlt) as ([Hs0 Hs1] & Hup & Hlow).
  fold s in Hs0, Hs1, Hup, Hlow.
  pose proof (pow2_pos s Hs0) as Hp.
  split; [split |].
  - rewrite <- (round_half_even_exact 0 d Hd).
    apply round_half_even_mono; [assumption | assumption | nia].
  - rewrite <- (round_half_even_exact (2 ^ 53) d Hd).
    apply round_half_even_mono; [assumption | assumption | nia].
  - intros Hsub. rewrite <- (round_half_even_exact (2 ^ 52) d Hd).
    apply round_half_even_mono; [assumption | assumption |].
    specialize (Hlow Hsub). nia.
Qed.

(** The nearest double keeps the order of positive values. *)
Lemma binary64_of_mono (n1 n2 : Z) (d1 d2 : positive) :
  (0 < n1)%Z -> (n1 < 2 ^ 53 * Zpos d1)%Z ->
  (0 < n2)%Z -> (n2 < 2 ^ 53 * Zpos d2)%Z ->
  (n1 * Zpos d2 <= n2 * Zpos d1)%Z ->
  (binary64_of n1 d1 <= binary64_of n2 d2)%Q.
Proof.
  intros Hn1 Hr1 Hn2 Hr2 Hle.
  destruct (binary64_places_spec n1 (Zpos d1) Hn1 Hr1) as ([A0 A1] & Aup & Alow).
  destruct (binary64_places_spec n2 (Zpos d2) Hn2 Hr2) as ([B0 B1] & Bup & Blow).
  destruct (binary64_mantissa n1 (Zpos d1) Hn1 Hr1) as ([Am0 Am1] & Am2).
  destruct (binary64_mantissa n2 (Zpos d2) Hn2 Hr2) as ([Bm0 Bm1] & Bm2).
  unfold binary64_of, Qle. cbn [Qnum Qden].
  set (s1 := binary64_places n1 (Zpos d1)) in *.
  set (s2 := binary64_places n2 (Zpos d2)) in *.
  rewrite !Zpos_pow2 by assumption.
  pose proof (pow2_pos s1 A0) as P1. pose proof (pow2_pos s2 B0) as P2.
  set (D1 := Zpos d1) in *. set (D2 := Zpos d2) in *.
  assert (HD1 : (0 < D1)%Z) by (unfold D1; lia).
  assert (HD2 : (0 < D2)%Z) by (unfold D2; lia).
  destruct (Z.lt_trichotomy s1 s2) as [Hlt | [Heq | Hgt]].
  - exfalso.
    assert (Hpow : (2 ^ Z.succ s1 <= 2 ^ s2)%Z) by (apply Z.pow_le_mono_r; lia).
    rewrite Z.pow_succ_r in Hpow by lia.
    specialize (Alow ltac:(lia)).
    change (2 ^ 53)%Z with (2 * 2 ^ 52)%Z in *.
    assert (X1 : (2 * 2 ^ 52 * D1 <= n1 * 2 ^ s2)%Z) by nia.
    assert (X2 : (2 * 2 ^ 52 * D1 * D2 <= n1 * 2 ^ s2 * D2)%Z) by nia.
    assert (X3 : (n1 * D2 * 2 ^ s2 <= n2 * D1 * 2 ^ s2)%Z) by nia.
    assert (X4 : (n2 * 2 ^ s2 * D1 < 2 * 2 ^ 52 * D2 * D1)%Z) by nia.
    lia.
  - rewrite <- Heq in *.
    assert (Hm : (round_half_even (n1 * 2 ^ s1) D1
                  <= round_half_even (n2 * 2 ^ s1) D2)%Z).
    { apply round_half_even_mono; [assumption | assumption | nia]. }
    nia.
  - assert (Hpow : (2 ^ Z.succ s2 <= 2 ^ s1)%Z) by (apply Z.pow_le_mono_r; lia).
    rewrite Z.pow_succ_r in Hpow by lia.
    specialize (Bm2 ltac:(lia)).
    change (2 ^ 53)%Z with (2 * 2 ^ 52)%Z in *.
    set (m1 := round_half_even (n1 * 2 ^ s1) D1) in *.
    set (m2 := round_half_even (n2 * 2 ^ s2) D2) in *.
    assert (X1 : (m1 * 2 ^ s2 <= 2 * 2 ^ 52 * 2 ^ s2)%Z) by nia.
    assert (X2 : (2 ^ 52 * (2 * 2 ^ s2) <= 2 ^ 52 * 2 ^ s1)%Z) by nia.
    assert (X3 : (2 ^ 52 * 2 ^ s1 <= m2 * 2 ^ s1)%Z) by nia.
    lia.
Qed.

Lemma binary64_of_nonneg (n : Z) (d : positive) :
  (0 < n)%Z -> (n < 2 ^ 53 * Zpos d)%Z -> (0 <= binary64_of n d)%Q.
Proof.
  intros Hn Hr. destruct (binary64_mantissa n (Zpos d) Hn Hr) as ([Hm _] & _).
  unfold binary64_of, Qle. cbn [Qnum Qden]. lia.
Qed.

Lemma binary64_mono (x y : Q) :
  binary64_range x -> binary64_range y ->
  (x <= y)%Q -> (binary64 x <= binary64 y)%Q.
Proof.
  unfold binary64_range, binary64.
  destruct x as [nx dx], y as [ny dy]. cbn [Qnum Qden].
  intros Hx Hy Hle. unfold Qle in Hle. cbn [Qnum Qden] in Hle.
  destruct nx as [| px | px], ny as [| py | py]; try (exfalso; nia).
  - apply Qle_refl.
  - apply (binary64_of_nonneg (Zpos py) dy); lia.
  - apply (binary64_of_mono (Zpos px) (Zpos py) dx dy); lia.
  - pose proof (binary64_of_nonneg (Zpos px) dx ltac:(lia) ltac:(lia)) as H.
    unfold Qle in *. cbn [Qnum Qden Qopp] in *. lia.
  - pose proof (binary64_of_nonneg (Zpos px) dx ltac:(lia) ltac:(lia)) as H1.
    pose proof (binary64_of_nonneg (Zpos py) dy ltac:(lia) ltac:(lia)) as H2.
    unfold Qle in *. cbn [Qnum Qden Qopp] in *. nia.
  - pose proof (binary64_of_mono (Zpos py) (Zpos px) dy dx
                  ltac:(lia) ltac:(lia) ltac:(lia) ltac:(lia) ltac:(lia)) as H.
    unfold Qle in *. cbn [Qnum Qden Qopp] in *. lia.
Qed.

(** For a value of absolute value at most 1 at least 52 places are kept. *)
Lemma binary64_places_unit (n d : Z) :
  (0 < n <= d)%Z -> (52 <= binary64_places n d)%Z.
Proof.
  intros [Hn Hd]. unfold binary64_places.
  assert (HM : (2 ^ 53 - 1 <= (2 ^ 53 * d - 1) / n)%Z).
  { apply Z.div_le_lower_bound; [lia |]. nia. }
  apply Z.log2_le_mono in HM.
  change (Z.log2 (2 ^ 53 - 1)) with 52%Z in HM. lia.
Qed.

(** The nearest double of a value of absolute value at most 1 is within
    2^-53 of it. *)
Lemma binary64_close (x : Q) :
  (Z.abs (Qnum x) <= Zpos (Qden x))%Z ->
  (2 ^ 53 * Z.abs (Qnum (binary64 x) * Zpos (Qden x)
                   - Qnum x * Zpos (Qden (binary64 x)))
   <= Zpos (Qden (binary64 x)) * Zpos (Qden x))%Z.
Proof.
  destruct x as [n d]. cbn [Qnum Qden]. intros Hn. unfold binary64.
  cbn [Qnum].
  assert (Hpos : forall p, (Zpos p <= Zpos d)%Z ->
            (2 ^ 53 * Z.abs (Qnum (binary64_of (Zpos p) d) * Zpos d
                             - Zpos p * Zpos (Qden (binary64_of (Zpos p) d)))
             <= Zpos (Qden (binary64_of (Zpos p) d)) * Zpos d)%Z).
  { intros p Hp. unfold binary64_of. cbn [Qnum Qden].
    pose proof (binary64_places_unit (Zpos p) (Zpos d) ltac:(lia)) as H52.
    destruct (binary64_places_spec (Zpos p) (Zpos d) ltac:(lia) ltac:(nia))
      as ([S0 S1] & _ & _).
    set (s := binary64_places (Zpos p) (Zpos d)) in *.
    rewrite Zpos_pow2 by assumption.
    pose proof (round_half_even_near (Zpos p * 2 ^ s) (Zpos d) ltac:(lia)) as Hnear.
    set (m := round_half_even (Zpos p * 2 ^ s) (Zpos d)) in *.
    assert (Hpow : (2 ^ 52 <= 2 ^ s)%Z) by (apply Z.pow_le_mono_r; lia).
    change (2 ^ 53)%Z with (2 * 2 ^ 52)%Z. nia. }
  destruct n as [| p | p].
  - cbn. lia.
  - apply Hpos. lia.
  - specialize (Hpos p ltac:(lia)). cbn [Qopp Qnum Qden].
    replace (- Qnum (binary64_of (Zpos p) d) * Zpos d
             - Zneg p * Zpos (Qden (binary64_of (Zpos p) d)))%Z
      with (- (Qnum (binary64_of (Zpos p) d) * Zpos d
               - Zpos p * Zpos (Qden (binary64_of (Zpos p) d))))%Z by lia.
    rewrite Z.abs_opp. exact Hpos.
Qed.

Lemma round2_mono (x y : Q) : (x <= y)%Q -> (round2 x <= round2 y)%Q.
Proof.
  unfold round2, Qle. cbn [Qnum Qden]. intros H.
  assert (round_half_even (Qnum x * 100) (Zpos (Qden x))
          <= round_half_even (Qnum y * 100) (Zpos (Qden y)))%Z.
  { apply round_half_even_mono; lia. }
  lia.
Qed.

(** Rounding a value within 2^-53 of a fraction whose denominator is below
    2^45 gives a hundredth nearest to the fraction. *)
Lemma round2_of_close (x y : Q) :
  (Zpos (Qden x) < 2 ^ 45)%Z ->
  (2 ^ 53 * Z.abs (Qnum y * Zpos (Qden x) - Qnum x * Zpos (Qden y))
   <= Zpos (Qden y) * Zpos (Qden x))%Z ->
  (- (1 # 200) <= round2 y - x <= 1 # 200)%Q.
Proof.
  destruct x as [n d], y as [u v]. cbn [Qnum Qden]. intros Hd Hclose.
  pose proof (round_half_even_near (u * 100) (Zpos v) ltac:(lia)) as Hnear.
  unfold round2, Qle, Qminus, Qplus, Qopp. cbn [Qnum Qden].
  set (k := round_half_even (u * 100) (Zpos v)) in *.
  rewrite !Pos2Z.inj_mul.
  set (D := Zpos d) in *. set (V := Zpos v) in *.
  assert (HD : (0 < D)%Z) by (unfold D; lia).
  assert (HV : (0 < V)%Z) by (unfold V; lia).
  set (E := (2 * (k * D - 100 * n))%Z).
  assert (HE : (E * V = D * (2 * (k * V - u * 100)) + 200 * (u * D - n * V))%Z)
    by (unfold E; ring).
  assert (Habs : (Z.abs E * V <= D * V + 200 * Z.abs (u * D - n * V))%Z).
  { rewrite <- (Z.abs_eq V) at 1 by lia. rewrite <- Z.abs_mul, HE.
    eapply Z.le_trans; [apply Z.abs_triangle |].
    rewrite !Z.abs_mul. rewrite (Z.abs_eq D), (Z.abs_eq 200) by lia.
    assert (Z.abs (2 * (k * V - u * 100)) <= V)%Z by lia.
    nia. }
  assert (Hfin : (Z.abs E <= D)%Z).
  { destruct (Z_le_gt_dec (Z.abs E) D) as [Hok | Hbad]; [exact Hok | exfalso].
    assert (V <= 200 * Z.abs (u * D - n * V))%Z by nia.
    assert (2 ^ 53 * V <= 200 * (V * D))%Z by nia.
    assert (2 ^ 53 <= 200 * D)%Z by nia.
    change (2 ^ 53)%Z with (256 * 2 ^ 45)%Z in *. lia. }
  unfold E in Hfin. lia.
Qed.

Lemma unit_range (x : Q) :
  (Z.abs (Qnum x) <= Zpos (Qden x))%Z -> binary64_range x.
Proof. unfold binary64_range. intros H. lia. Qed.

Lemma binary64_unit (x : Q) :
  (Z.abs (Qnum x) <= Zpos (Qden x))%Z -> (- (1) <= binary64 x <= 1)%Q.
Proof.
  intros H. split.
  - apply Qle_trans with (binary64 (- (1))); [vm_compute; discriminate |].
    apply binary64_mono; [vm_compute; reflexivity | now apply unit_range |].
    unfold Qle. cbn. lia.
  - apply Qle_trans with (binary64 1); [| vm_compute; discriminate].
    apply binary64_mono; [now apply unit_range | vm_compute; reflexivity |].
    unfold Qle. cbn. lia.
Qed.

(** Against the literal [0.1] the double of a fraction with a denominator
    below 2^45 stands as the fraction stands against one tenth. *)
Lemma binary64_above_tenth (x : Q) :
  (Z.abs (Qnum x) <= Zpos (Qden x))%Z -> (Zpos (Qden x) < 2 ^ 45)%Z ->
  (tenth < binary64 x)%Q <-> (1 # 10 < x)%Q.
Proof.
  intros Hunit Hden. split.
  - intros Hlt. apply Qnot_le_lt. intros Hle.
    apply (Qlt_not_le _ _ Hlt). unfold tenth.
    apply binary64_mono; [now apply unit_range | vm_compute; reflexivity | exact Hle].
  - intros Hlt.
    apply Qlt_le_trans with (binary64 (Qmake (2 ^ 45 + 1) (10 * 2 ^ 45))).
    + vm_compute. reflexivity.
    + apply binary64_mono; [vm_compute; reflexivity | now apply unit_range |].
      unfold Qlt, Qle in *. cbn [Qnum Qden] in *.
      change (Zpos (10 * 2 ^ 45)) with (10 * 2 ^ 45)%Z.
      change (2 ^ 45)%Z with 35184372088832%Z in *. lia.
Qed.

Lemma binary64_below_tenth (x : Q) :
  (Z.abs (Qnum x) <= Zpos (Qden x))%Z -> (Zpos (Qden x) < 2 ^ 45)%Z ->
  (binary64 x < - tenth)%Q <-> (x < - (1 # 10))%Q.
Proof.
  intros Hunit Hden. split.
  - intros Hlt. apply Qnot_le_lt. intros Hle.
    apply (Qlt_not_le _ _ Hlt).
    apply Qle_trans with (binary64 (- (1 # 10))); [vm_compute; discriminate |].
    apply binary64_mono; [vm_compute; reflexivity | now apply unit_range | exact Hle].
  - intros Hlt.
    apply Qle_lt_trans with (binary64 (Qmake (- (2 ^ 45 + 1)) (10 * 2 ^ 45))).
    + apply binary64_mono; [now apply unit_range | vm_compute; reflexivity |].
      unfold Qlt, Qle, Qopp in *. cbn [Qnum Qden] in *.
      change (Zpos (10 * 2 ^ 45)) with (10 * 2 ^ 45)%Z.
      change (2 ^ 45)%Z with 35184372088832%Z in *. lia.
    + vm_compute. reflexivity.
Qed.

Lemma Zpos_of_nat (k : nat) : k <> 0 -> Zpos (Pos.of_nat k) = Z.of_nat k.
Proof.
  intros Hk. rewrite <- positive_nat_Z. now rewrite Nat2Pos.id.
Qed.

Lemma quotient_of_unit (p n : nat) :
  (Z.abs (Qnum (quotient_of p n)) <= Zpos (Qden (quotient_of p n)))%Z.
Proof.
  unfold quotient_of. cbn [Qnum Qden].
  destruct (Nat.eq_dec (p + n) 0) as [Hz | Hnz].
  - rewrite Hz. assert (p = 0 /\ n = 0) as [-> ->] by lia. cbn. lia.
  - rewrite Zpos_of_nat by exact Hnz. lia.
Qed.

Lemma score_of_quotient (p n : nat) : score_of p n = binary64 (quotient_of p n).
Proof.
  unfold score_of. destruct (Nat.ltb_spec 0 (p + n)) as [_ | Hz]; [reflexivity |].
  assert (p = 0 /\ n = 0) as [-> ->] by lia. reflexivity.
Qed.

Lemma score_of_range (p n : nat) : (- (1) <= score_of p n <= 1)%Q.
Proof. rewrite score_of_quotient. apply binary64_unit, quotient_of_unit. Qed.

Lemma round_half_even_bounds (n d : Z) :
  (0 < d)%Z -> (- (100 * d) <= n <= 100 * d)%Z ->
  (- 100 <= round_half_even n d <= 100)%Z.
Proof.
  intros Hd Hn. pose proof (round_half_even_near n d Hd) as Hnear. nia.
Qed.

Lemma round2_range (x : Q) : (- (1) <= x <= 1)%Q -> (- (1) <= round2 x <= 1)%Q.
Proof.
  intros [Hlo Hhi]. unfold round2, Qle, Qopp in *. cbn [Qnum Qden] in *.
  pose proof (round_half_even_bounds (Qnum x * 100) (Zpos (Qden x))
                ltac:(lia) ltac:(lia)).
  lia.
Qed.

(** The stored score is a number of hundredths at most 1/200 away from
    the double it rounds. *)
Lemma round2_near (x : Q) :
  (- (1 # 200) <= round2 x - x <= 1 # 200)%Q.
Proof.
  pose proof (round_half_even_near (Qnum x * 100) (Zpos (Qden x)) ltac:(lia))
    as Hnear.
  unfold round2, Qle, Qminus, Qplus, Qopp. cbn [Qnum Qden].
  set (r := round_half_even (Qnum x * 100) (Zpos (Qden x))) in *.
  rewrite !Pos2Z.inj_mul. nia.
Qed.

Lemma Qltb_lt (x y : Q) : Qltb x y = true <-> (x < y)%Q.
Proof.
  unfold Qltb. rewrite negb_true_iff. split.
  - intros H. apply Qnot_le_lt. intros Hle.
    apply Qle_bool_iff in Hle. congruence.
  - intros Hlt. destruct (Qle_bool y x) eqn:Hb; [| reflexivity].
    apply Qle_bool_iff in Hb. exfalso. now apply (Qlt_not_le x y).
Qed.

Lemma Qltb_ge (x y : Q) : Qltb x y = false <-> (y <= x)%Q.
Proof.
  unfold Qltb. rewrite negb_false_iff. apply Qle_bool_iff.
Qed.

Lemma tenth_positive : (- tenth < tenth)%Q.
Proof. vm_compute. reflexivity. Qed.

Lemma sentiment_label_cases (q : Q) :
  (sentiment_label q = "positive" <-> (tenth < q)%Q)
  /\ (sentiment_label q = "negative" <-> (q < - tenth)%Q)
  /\ (sentiment_label q = "neutral" <-> (- tenth <= q <= tenth)%Q).
Proof.
  unfold sentiment_label. pose proof tenth_positive as Ht.
  destruct (Qltb tenth q) eqn:Hpos;
    [apply Qltb_lt in Hpos
    | apply Qltb_ge in Hpos; destruct (Qltb q (- tenth)) eqn:Hneg;
      [apply Qltb_lt in Hneg | apply Qltb_ge in Hneg]].
  - split; [split; [intros _; exact Hpos | reflexivity] |].
    split; (split; [discriminate |]).
    + intros H. exfalso. apply (Qlt_irrefl q).
      eapply Qlt_trans; [exact H |]. eapply Qlt_trans; [exact Ht | exact Hpos].
    + intros [_ H]. exfalso. now apply (Qlt_not_le _ _ Hpos).
  - split; [split; [discriminate |] |].
    { intros H. exfalso. now apply (Qlt_not_le _ _ H). }
    split; [split; [intros _; exact Hneg | reflexivity] |].
    split; [discriminate |].
    intros [H _]. exfalso. now apply (Qlt_not_le _ _ Hneg).
  - split; [split; [discriminate |] |].
    { intros H. exfalso. now apply (Qlt_not_le _ _ H). }
    split; [split; [discriminate |] |].
    { intros H. exfalso. now apply (Qlt_not_le _ _ H). }
    split; [intros _; now split | reflexivity].
Qed.

(** The quotient 0.1 gives "neutral", 0.1000001 gives "positive". *)
Example label_at_threshold : sentiment_label (binary64 (1 # 10)) = "neutral".
Proof. vm_compute. reflexivity. Qed.

Example label_above_threshold :
  sentiment_label (binary64 (1000001 # 10000000)) = "positive".
Proof. vm_compute. reflexivity. Qed.

Example label_below_threshold :
  sentiment_label (binary64 (- (1 # 10))) = "neutral"
  /\ sentiment_label (binary64 (- (1000001 # 10000000))) = "negative".
Proof. split; vm_compute; reflexivity. Qed.

(** With 11 positive and 9 negative words the quotient is one tenth: the
    label is "neutral" and the score stored is 0.1. *)
Example neutral_at_one_tenth :
  sentiment_label (score_of 11 9) = "neutral"
  /\ round2 (score_of 11 9) = Qmake 10 100
  /\ sentiment_label (score_of 9 11) = "neutral".
Proof. repeat split; vm_compute; reflexivity. Qed.

(** Python's [round] works on the double: with 41 positive and 39 negative
    words the quotient is 1/40, whose double lies above 0.025, and the
    score stored is 0.03; with 9 and 7 the quotient 1/8 is a double itself,
    half-way between two hundredths, and the score stored is 0.12. *)
Example round2_of_double :
  round2 (score_of 41 39) = Qmake 3 100
  /\ round2 (score_of 9 7) = Qmake 12 100.
Proof. split; vm_compute; reflexivity. Qed.

(** On [mixed_article], with 16 positive and 13 negative words, the
    quotient 3/29 exceeds 0.1 and the label is "positive"; the score stored
    is the rounded 0.1. *)
Example rounded_score_at_threshold :
  positive_words (sentiment_article mixed_article) = Some 16
  /\ negative_words (sentiment_article mixed_article) = Some 13
  /\ sentiment_score (sentiment_article mixed_article) = Some (10 # 100)
  /\ sentiment (sentiment_article mixed_article) = Some "positive".
Proof. repeat split; vm_compute; reflexivity. Qed.

(** C5: for an article with non-empty content, [detect_sentiment] stores
    the quotient (pos - neg) / (pos + neg), computed as a double, rounded
    to two decimals: a number of hundredths in [-1, 1], and 0 when
    pos + neg = 0, pos and neg being the two counts it stores with it.  The
    label is decided on the quotient before it is
    rounded, against the literal 0.1: "positive" exactly when it exceeds
    0.1, "negative" exactly when it is below -0.1, "neutral" otherwise.
    With fewer than 2^45 counted words the double stands against the
    literal 0.1 as the exact quotient stands against one tenth, and the
    score stored is a hundredth nearest to the exact quotient. *)
Theorem detect_sentiment_score_and_label (articles : list Article) (i : nat)
    (a : Article) (content : string) :
  nth_error articles i = Some a ->
  full_content a = Some content ->
  content <> "" ->
  exists a' pos neg,
    nth_error (detect_sentiment articles) i = Some a'
    /\ positive_words a' = Some pos
    /\ negative_words a' = Some neg
    /\ let quotient := quotient_of pos neg in
       let score := score_of pos neg in
       (0 < pos + neg ->
        score = binary64 quotient
        /\ (quotient == inject_Z (Z.of_nat pos - Z.of_nat neg)
                        / inject_Z (Z.of_nat (pos + neg)))%Q)
       /\ (pos + neg = 0 -> score = 0%Q)
       /\ sentiment_score a' = Some (round2 score)
       /\ (exists hundredths,
             round2 score = Qmake hundredths 100
             /\ (- 100 <= hundredths <= 100)%Z)
       /\ (- (1 # 200) <= round2 score - score <= 1 # 200)%Q
       /\ (- (1) <= round2 score <= 1)%Q
       /\ (pos + neg = 0 -> (round2 score == 0)%Q)
       /\ (sentiment a' = Some "positive" <-> (tenth < score)%Q)
       /\ (sentiment a' = Some "negative" <-> (score < - tenth)%Q)
       /\ (sentiment a' = Some "neutral" <-> (- tenth <= score <= tenth)%Q)
       /\ ((Z.of_nat (pos + neg) < 2 ^ 45)%Z ->
           (- (1 # 200) <= round2 score - quotient <= 1 # 200)%Q
           /\ (sentiment a' = Some "positive" <-> (1 # 10 < quotient)%Q)
           /\ (sentiment a' = Some "negative" <-> (quotient < - (1 # 10))%Q)
           /\ (sentiment a' = Some "neutral"
               <-> (- (1 # 10) <= quotient <= 1 # 10)%Q)).
Proof.
  intros Hnth Hc Hne.
  set (pos := padded_count positive_word_list (Str.lower content)).
  set (neg := padded_count negative_word_list (Str.lower content)).
  exists (sentiment_article a), pos, neg. split.
  { unfold detect_sentiment. rewrite nth_error_map, Hnth. reflexivity. }
  unfold sentiment_article. rewrite (no_content_false a content Hc Hne), Hc.
  cbv zeta. cbn [sentiment_score sentiment positive_words negative_words].
  fold pos neg.
  split; [reflexivity |]. split; [reflexivity |].
  set (quotient := quotient_of pos neg). set (score := score_of pos neg).
  assert (Hlab : forall l, Some (sentiment_label score) = Some l
                           <-> sentiment_label score = l).
  { intros l. split; intros H; [now injection H | now rewrite H]. }
  destruct (sentiment_label_cases score) as (Hp & Hn & Hu).
  pose proof (score_of_range pos neg) as Hrange. fold score in Hrange.
  split.
  { intros Hpos. split; [apply score_of_quotient |].
    unfold quotient, quotient_of.
    unfold Qeq, Qdiv, Qmult, Qinv, inject_Z. cbn [Qnum Qden].
    destruct (Z.of_nat (pos + neg)) eqn:Hz; try lia.
    cbn [Qnum Qden]. rewrite Zpos_of_nat by lia. rewrite Hz. lia. }
  split.
  { intros Hz. unfold score, score_of.
    destruct (Nat.ltb_spec 0 (pos + neg)); [lia | reflexivity]. }
  split; [reflexivity |].
  split.
  { eexists. split; [reflexivity |].
    apply round_half_even_bounds; [lia |].
    destruct Hrange as [Hlo Hhi]. unfold Qle, Qopp in Hlo, Hhi.
    cbn [Qnum Qden] in Hlo, Hhi. lia. }
  split; [apply round2_near |].
  split; [apply round2_range, Hrange |].
  split.
  { intros Hz. unfold score, score_of.
    destruct (Nat.ltb_spec 0 (pos + neg)); [lia | reflexivity]. }
  split; [rewrite Hlab; exact Hp |].
  split; [rewrite Hlab; exact Hn |].
  split; [rewrite Hlab; exact Hu |].
  intros Hbound.
  pose proof (quotient_of_unit pos neg) as Hunit. fold quotient in Hunit.
  assert (Hden : (Zpos (Qden quotient) < 2 ^ 45)%Z).
  { unfold quotient, quotient_of. cbn [Qden].
    destruct (Nat.eq_dec (pos + neg) 0) as [Hz | Hnz].
    - rewrite Hz. reflexivity.
    - rewrite Zpos_of_nat by exact Hnz. exact Hbound. }
  pose proof (binary64_above_tenth quotient Hunit Hden) as Habove.
  pose proof (binary64_below_tenth quotient Hunit Hden) as Hbelow.
  assert (Hscore : score = binary64 quotient) by apply score_of_quotient.
  rewrite <- Hscore in Habove, Hbelow.
  split.
  { rewrite Hscore. apply round2_of_close; [exact Hden |].
    apply binary64_close, Hunit. }
  split; [rewrite Hlab, Hp; exact Habove |].
  split; [rewrite Hlab, Hn; exact Hbelow |].
  rewrite Hlab, Hu. split.
  - intros [Hlo Hhi]. split.
    + apply Qnot_lt_le. intros H. apply Hbelow in H.
      now apply (Qlt_not_le _ _ H).
    + apply Qnot_lt_le. intros H. apply Habove in H.
      now apply (Qlt_not_le _ _ H).
  - intros [Hlo Hhi]. split.
    + apply Qnot_lt_le. intros H. apply Hbelow in H.
      now apply (Qlt_not_le _ _ H).
    + apply Qnot_lt_le. intros H. apply Habove in H.
      now apply (Qlt_not_le _ _ H).
Qed.

(** [mixed_article]: the score stored is the rounded double of 3/29, that
    is 0.1, and the label is "positive", as 3/29 exceeds one tenth.
    [tie_article]: the double of 1/40 lies above 0.025, the score stored is
    0.03 and the label is "neutral". *)
Lemma detect_sentiment_score_and_label_witness :
  (exists a',
     nth_error (detect_sentiment [mixed_article; tie_article]) 0 = Some a'
     /\ positive_words a' = Some 16
     /\ negative_words a' = Some 13
     /\ sentiment_score a' = Some (Qmake 10 100)
     /\ sentiment a' = Some "positive"
     /\ (1 # 10 < quotient_of 16 13)%Q)
  /\ (exists a',
        nth_error (detect_sentiment [mixed_article; tie_article]) 1 = Some a'
        /\ positive_words a' = Some 41
        /\ negative_words a' = Some 39
        /\ sentiment_score a' = Some (Qmake 3 100)
        /\ sentiment a' = Some "neutral"
        /\ (quotient_of 41 39 == 1 # 40)%Q).
Proof.
  split.
  - destruct (detect_sentiment_score_and_label [mixed_article; tie_article] 0
                mixed_article _ eq_refl eq_refl ltac:(discriminate))
      as (a' & pos & neg & Hnth & Hpos & Hneg & Hrest).
    assert (Hp : positive_words a' = Some 16)
      by (injection Hnth as <-; vm_compute; reflexivity).
    assert (Hn : negative_words a' = Some 13)
      by (injection Hnth as <-; vm_compute; reflexivity).
    rewrite Hp in Hpos. rewrite Hn in Hneg.
    injection Hpos as <-. injection Hneg as <-.
    cbv zeta in Hrest.
    destruct Hrest as (_ & _ & Hscore & _ & _ & _ & _ & _ & _ & _ & Hexact).
    exists a'. split; [exact Hnth |].
    split; [exact Hp |]. split; [exact Hn |].
    split; [rewrite Hscore; vm_compute; reflexivity |].
    assert (Hq : (1 # 10 < quotient_of 16 13)%Q) by (vm_compute; reflexivity).
    split; [| exact Hq].
    apply (proj1 (proj2 (Hexact ltac:(vm_compute; reflexivity)))).
    exact Hq.
  - destruct (detect_sentiment_score_and_label [mixed_article; tie_article] 1
                tie_article _ eq_refl eq_refl ltac:(discriminate))
      as (a' & pos & neg & Hnth & Hpos & Hneg & Hrest).
    assert (Hp : positive_words a' = Some 41)
      by (injection Hnth as <-; vm_compute; reflexivity).
    assert (Hn : negative_words a' = Some 39)
      by (injection Hnth as <-; vm_compute; reflexivity).
    rewrite Hp in Hpos. rewrite Hn in Hneg.
    injection Hpos as <-. injection Hneg as <-.
    cbv zeta in Hrest.
    destruct Hrest as (_ & _ & Hscore & _ & _ & _ & _ & _ & _ & _ & Hexact).
    exists a'. split; [exact Hnth |].
    split; [exact Hp |]. split; [exact Hn |].
    split; [rewrite Hscore; vm_compute; reflexivity |].
    split; [| vm_compute; reflexivity].
    apply (proj2 (proj2 (proj2 (Hexact ltac:(vm_compute; reflexivity))))).
    split; vm_compute; discriminate.
Defined.

(** ** Words between spaces and tokens *)

Lemma string_app_assoc (a b c : string) : (a ++ b) ++ c = a ++ (b ++ c).
Proof. induction a as [| x a IH]; simpl; [reflexivity | now rewrite IH]. Qed.

Lemma string_app_length (a b : string) :
  String.length (a ++ b) = String.length a + String.length b.
Proof. induction a as [| x a IH]; simpl; [reflexivity | now rewrite IH]. Qed.

Lemma split_from_space (cur : list ascii) (c : ascii) (r : string) :
  is_space c = true ->
  split_from cur (String c r)
  = match cur with
    | [] => split_from [] r
    | _ => string_of_list_ascii (rev cur) :: split_from [] r
    end.
Proof. intros Hc. simpl. rewrite Hc. destruct cur; reflexivity. Qed.

Lemma split_from_char (cur : list ascii) (c : ascii) (r : string) :
  is_space c = false ->
  split_from cur (String c r) = split_from (c :: cur) r.
Proof. intros Hc. simpl. now rewrite Hc. Qed.

(** Reading a word and the space behind it gives the word as a token. *)
Lemma split_from_word (w t : string) :
  forall cur,
    no_space w = true ->
    (cur <> [] \/ w <> "") ->
    split_from cur (w ++ String " " t)
    = string_of_list_ascii (rev cur ++ list_ascii_of_string w) :: split_from [] t.
Proof.
  induction w as [| c w IH]; intros cur Hns Hne.
  - destruct Hne as [Hne | Hne]; [| now destruct Hne].
    change ("" ++ String " " t) with (String " " t).
    rewrite split_from_space by reflexivity.
    destruct cur as [| x cur]; [now destruct Hne |].
    simpl list_ascii_of_string. now rewrite app_nil_r.
  - simpl in Hns. apply andb_prop in Hns. destruct Hns as [Hc Hns].
    apply negb_true_iff in Hc.
    change (String c w ++ String " " t) with (String c (w ++ String " " t)).
    rewrite split_from_char by assumption.
    rewrite IH; [| assumption | left; discriminate].
    simpl. now rewrite <- app_assoc.
Qed.

Lemma prefix_split (a : string) :
  forall s, prefix a s = true -> exists t, s = a ++ t.
Proof.
  induction a as [| x a IH]; intros s Hp.
  - now exists s.
  - destruct s as [| y s]; simpl in Hp; [discriminate |].
    destruct (Ascii.ascii_dec x y) as [-> | ]; [| discriminate].
    destruct (IH s Hp) as [t ->]. now exists t.
Qed.

Lemma count_from_skip (sub x t : string) :
  Str.count_from sub (x ++ t) (String.length x) = Str.count_from sub t 0.
Proof.
  induction x as [| c x IH]; [reflexivity |]. simpl. exact IH.
Qed.

Lemma token_hits_flush (w : string) (cur : list ascii) (l : list string) :
  token_hits w l
  <= token_hits w (match cur with
                   | [] => l
                   | _ => string_of_list_ascii (rev cur) :: l
                   end).
Proof.
  destruct cur; [lia |]. unfold token_hits. simpl.
  destruct (String.eqb w _); simpl; lia.
Qed.

(** A word found between two spaces is a token; the scan of [count] never
    finds more of them than there are tokens equal to the word. *)
Lemma count_from_le_tokens (w : string) :
  plain_word w = true ->
  forall n s cur,
    String.length s <= n ->
    Str.count_from (" " ++ w ++ " ") s 0 <= token_hits w (split_from cur s).
Proof.
  intros Hw. unfold plain_word in Hw. apply andb_prop in Hw.
  destruct Hw as [Hne Hns]. apply negb_true_iff, String.eqb_neq in Hne.
  induction n as [| n IH]; intros s cur Hlen.
  - destruct s; [simpl; lia | simpl in Hlen; lia].
  - destruct s as [| c r]; [simpl; lia |].
    simpl in Hlen.
    change (Str.count_from (" " ++ w ++ " ") (String c r) 0)
      with (if prefix (" " ++ w ++ " ") (String c r)
            then S (Str.count_from (" " ++ w ++ " ") r
                      (String.length (" " ++ w ++ " ") - 1))
            else Str.count_from (" " ++ w ++ " ") r 0).
    destruct (prefix (" " ++ w ++ " ") (String c r)) eqn:Hp.
    + destruct (prefix_split _ _ Hp) as [t Ht].
      change (" " ++ w ++ " ") with (String " " (w ++ " ")) in Ht.
      simpl in Ht. injection Ht as -> ->.
      rewrite split_from_space by reflexivity.
      eapply Nat.le_trans; [| apply token_hits_flush].
      rewrite string_app_assoc.
      change (" " ++ t) with (String " " t).
      rewrite split_from_word; [| assumption | now right].
      simpl rev. simpl app. rewrite string_of_list_ascii_of_string.
      unfold token_hits at 1. simpl filter. rewrite String.eqb_refl. simpl List.length.
      apply le_n_S.
      replace (String.length (" " ++ w ++ " ") - 1)
        with (String.length (w ++ " ")) by (simpl; lia).
      replace (w ++ String " " t) with ((w ++ " ") ++ t)
        by apply (string_app_assoc w " " t).
      rewrite count_from_skip.
      apply IH. rewrite !string_app_length in Hlen. simpl in Hlen. lia.
    + destruct (is_space c) eqn:Hc.
      * rewrite split_from_space by assumption.
        eapply Nat.le_trans; [| apply token_hits_flush].
        apply IH. lia.
      * rewrite split_from_char by assumption. apply IH. lia.
Qed.

Lemma count_le_token_count (w s : string) :
  plain_word w = true ->
  Str.count s (" " ++ w ++ " ") <= token_count w s.
Proof.
  intros Hw. unfold Str.count, token_count, tokens.
  apply (count_from_le_tokens w Hw (String.length s)). lia.
Qed.

Lemma fold_left_add_le (f g : string -> nat) (l : list string) :
  (forall x, In x l -> f x <= g x) ->
  forall a b, a <= b ->
    fold_left (fun acc x => acc + f x) l a <= fold_left (fun acc x => acc + g x) l b.
Proof.
  induction l as [| x l IH]; intros Hle a b Hab; simpl; [assumption |].
  apply IH.
  - intros y Hy. apply Hle. now right.
  - specialize (Hle x (or_introl eq_refl)). lia.
Qed.

Lemma padded_count_le_tokens (words : list string) (content : string) :
  forallb plain_word words = true ->
  padded_count words content <= token_total words content.
Proof.
  intros Hall. unfold padded_count, token_total.
  apply fold_left_add_le; [| lia].
  intros w Hw. apply count_le_token_count.
  rewrite forallb_forall in Hall. now apply Hall.
Qed.

Lemma word_lists_plain :
  forallb plain_word positive_word_list = true
  /\ forallb plain_word negative_word_list = true.
Proof. split; vm_compute; reflexivity. Qed.

(** The claim of C6 read on [edge_article]: four tokens of its lower-cased
    content are words of the negative list ("greenwashing" first, "risk"
    twice side by side, "concern" last), and the count is 1. *)
Lemma sentiment_token_counterexample :
  tokens (Str.lower "Greenwashing is a risk risk managers say and a concern")
  = ["greenwashing"; "is"; "a"; "risk"; "risk"; "managers"; "say"; "and"; "a";
     "concern"]
  /\ token_total negative_word_list
       (Str.lower "Greenwashing is a risk risk managers say and a concern") = 4
  /\ negative_words (sentiment_article edge_article) = Some 1
  /\ negative_words (sentiment_article edge_article)
     <> Some (token_total negative_word_list
                (Str.lower "Greenwashing is a risk risk managers say and a concern")).
Proof.
  repeat split; try (vm_compute; reflexivity).
  vm_compute. discriminate.
Qed.

(** C6, amended: for an article with non-empty content the positive and the
    negative count are, summed over the respective list, the numbers of
    places, found from left to right without overlap, where the word stands
    between two space characters in the lower-cased content.  Each such
    place is a token equal to the word, so neither count exceeds the number
    of such tokens. *)
Theorem detect_sentiment_counts (articles : list Article) (i : nat)
    (a : Article) (content : string) :
  nth_error articles i = Some a ->
  full_content a = Some content ->
  content <> "" ->
  exists a',
    nth_error (detect_sentiment articles) i = Some a'
    /\ positive_words a'
       = Some (fold_left
                 (fun acc word =>
                    acc + Str.count (Str.lower content) (" " ++ word ++ " "))
                 positive_word_list 0)
    /\ negative_words a'
       = Some (fold_left
                 (fun acc word =>
                    acc + Str.count (Str.lower content) (" " ++ word ++ " "))
                 negative_word_list 0)
    /\ (forall p, positive_words a' = Some p ->
                  p <= token_total positive_word_list (Str.lower content))
    /\ (forall n, negative_words a' = Some n ->
                  n <= token_total negative_word_list (Str.lower content)).
Proof.
  intros Hnth Hc Hne.
  exists (sentiment_article a). split.
  { unfold detect_sentiment. rewrite nth_error_map, Hnth. reflexivity. }
  unfold sentiment_article. rewrite (no_content_false a content Hc Hne), Hc.
  cbv zeta. cbn [positive_words negative_words].
  split; [reflexivity |]. split; [reflexivity |].
  split; intros k [= <-]; apply padded_count_le_tokens; apply word_lists_plain.
Qed.

(** [edge_article]: one negative word between two spaces is counted, and
    the tokens equal to negative words are at least as many. *)
Lemma detect_sentiment_counts_witness :
  exists a',
    nth_error (detect_sentiment [edge_article]) 0 = Some a'
    /\ positive_words a' = Some 0
    /\ negative_words a' = Some 1
    /\ 1 <= token_total negative_word_list
              (Str.lower "Greenwashing is a risk risk managers say and a concern").
Proof.
  destruct (detect_sentiment_counts [edge_article] 0 edge_article _
              eq_refl eq_refl ltac:(discriminate))
    as (a' & Hnth & Hp & Hn & _ & Hle).
  exists a'. split; [exact Hnth |].
  split; [rewrite Hp; vm_compute; reflexivity |].
  assert (Hn1 : negative_words a' = Some 1) by (rewrite Hn; vm_compute; reflexivity).
  split; [exact Hn1 |].
  exact (Hle 1 Hn1).
Defined.

(** * Further properties of the scraper *)

(** ** The name normalizer: aliases, case and blank names *)

(** No alias of the table is listed by an earlier entry: looked up as it
    is, every alias gives the entry that lists it. *)
Lemma aliases_unshadowed :
  Forall (fun e => Forall (fun v => find (entry_has v) company_variations = Some e)
                          (snd e))
         company_variations.
Proof.
  unfold company_variations.
  repeat (apply Forall_cons;
          [ cbn [snd]; repeat (apply Forall_cons; [reflexivity |]); apply Forall_nil
          | ]).
  apply Forall_nil.
Qed.

(** X1: a name that, once lower-cased, is an alias listed by an entry of
    the table is normalized to that entry, whatever its capitals. *)
Theorem normalize_company_name_alias (company_name : string)
    (e : string * list string) :
  In e company_variations ->
  In (Str.lower company_name) (snd e) ->
  normalize_company_name company_name = e.
Proof.
  intros He Hv. pose proof aliases_unshadowed as Hall.
  rewrite Forall_forall in Hall. specialize (Hall e He).
  rewrite Forall_forall in Hall. specialize (Hall _ Hv).
  unfold normalize_company_name, normalize_company_name_with. rewrite Hall. now destruct e.
Qed.

(** The ticker of JPMorgan, in capitals. *)
Lemma normalize_company_name_alias_witness :
  normalize_company_name "JPMC"
  = ("jpmorgan", ["jpmorgan"; "jp morgan"; "j.p. morgan"; "jpm"; "jpmc";
                  "j.p. morgan chase"; "jpmorgan chase"]).
Proof.
  apply normalize_company_name_alias.
  - simpl. tauto.
  - simpl. tauto.
Defined.

Lemma lower_char_space (c : ascii) :
  Ascii.eqb (Str.lower_char c) " " = Ascii.eqb c " ".
Proof. destruct c as [[] [] [] [] [] [] [] []]; reflexivity. Qed.

Lemma remove_spaces_lower (s : string) :
  Str.remove_spaces (Str.lower s) = Str.lower (Str.remove_spaces s).
Proof.
  induction s as [| c r IH]; [reflexivity |]. simpl.
  rewrite lower_char_space. destruct (Ascii.eqb c " "); simpl; now rewrite IH.
Qed.

Lemma table_aliases_lower :
  Forall (fun e => Forall (fun v => Str.lower v = v
                                    /\ Str.remove_spaces v <> "") (snd e))
         company_variations.
Proof.
  unfold company_variations.
  repeat (apply Forall_cons;
          [ cbn [snd];
            repeat (apply Forall_cons; [split; [reflexivity | discriminate] |]);
            apply Forall_nil
          | ]).
  apply Forall_nil.
Qed.

(** X2: whatever the input, the canonical name returned is one of the
    variations returned, and the canonical name and every variation are in
    lower case, as the texts they are searched in. *)
Theorem normalize_company_name_lower_case (company_name : string) :
  In (fst (normalize_company_name company_name))
     (snd (normalize_company_name company_name))
  /\ Str.lower (fst (normalize_company_name company_name))
     = fst (normalize_company_name company_name)
  /\ Forall (fun v => Str.lower v = v) (snd (normalize_company_name company_name)).
Proof.
  unfold normalize_company_name, normalize_company_name_with.
  destruct (find (entry_has (Str.lower company_name)) company_variations)
    as [[std vs] |] eqn:Hfind.
  - destruct (find_some _ _ Hfind) as [Hin _].
    pose proof table_keys_canonical as Hkeys. rewrite Forall_forall in Hkeys.
    destruct (Hkeys _ Hin) as (Hlow & Hown & _).
    pose proof table_aliases_lower as Hal. rewrite Forall_forall in Hal.
    specialize (Hal _ Hin). cbn [fst snd] in *.
    split; [assumption |]. split; [assumption |].
    eapply Forall_impl; [| exact Hal]. intros v [Hv _]. exact Hv.
  - cbn [fst snd]. split; [now left |]. split; [apply lower_idem |].
    repeat constructor.
    + apply lower_idem.
    + rewrite <- remove_spaces_lower. now rewrite lower_idem.
Qed.

(** X3: a company name made of spaces only, or empty, gets the empty
    string among its variations, and the empty string is found in every
    text: the filters on the page source and on the text of an article
    accept everything. *)
Theorem blank_company_name_matches_all (company_name text : string) :
  Str.remove_spaces company_name = "" ->
  In "" (snd (normalize_company_name company_name))
  /\ Str.any_in (snd (normalize_company_name company_name)) text = true.
Proof.
  intros Hblank.
  assert (Hl : Str.remove_spaces (Str.lower company_name) = "")
    by now rewrite remove_spaces_lower, Hblank.
  assert (Hin : In "" (snd (normalize_company_name company_name))).
  { unfold normalize_company_name, normalize_company_name_with.
    destruct (find (entry_has (Str.lower company_name)) company_variations)
      as [[std vs] |] eqn:Hfind.
    - exfalso. destruct (find_some _ _ Hfind) as [Hin Hhas].
      unfold entry_has in Hhas. apply mem_In in Hhas.
      pose proof table_aliases_lower as Hal. rewrite Forall_forall in Hal.
      specialize (Hal _ Hin). rewrite Forall_forall in Hal.
      destruct (Hal _ Hhas) as [_ Hne]. now apply Hne.
    - cbn [snd]. right. left. exact Hl. }
  split; [exact Hin |].
  unfold Str.any_in. apply existsb_exists. exists "". split; [exact Hin |].
  destruct text; reflexivity.
Qed.

Lemma blank_company_name_matches_all_witness :
  Str.remove_spaces "  " = ""
  /\ Str.any_in (snd (normalize_company_name "  "))
       "<html><body>Nothing about anyone</body></html>" = true.
Proof.
  split; [reflexivity |].
  exact (proj2 (blank_company_name_matches_all "  "
                  "<html><body>Nothing about anyone</body></html>" eq_refl)).
Defined.

(** ** Navigation: the empty range, the pauses, the default call *)

(** X4: [safe_get] returns neither [True] nor [False] exactly when
    [retries] is 0; it then makes no attempt at all. *)
Theorem safe_get_none_iff (get_ok : nat -> bool) (url : string)
    (retries retry_delay : nat) :
  (fst (safe_get get_ok url retries retry_delay) = None <-> retries = 0)
  /\ (retries = 0 -> safe_get get_ok url retries retry_delay = (None, [])).
Proof.
  split; [split |].
  - intros Hnone. destruct retries as [| r]; [reflexivity | exfalso].
    unfold safe_get in Hnone.
    destruct (safe_get_loop_spec get_ok url (S r) retry_delay (S r) 0
                ltac:(lia) eq_refl)
      as [[k (_ & _ & _ & Heq)] | [_ Heq]];
      rewrite Heq in Hnone; discriminate.
  - intros ->. reflexivity.
  - intros ->. reflexivity.
Qed.

Lemma total_sleep_failed (url : string) (d k : nat) (tl : list Event) :
  total_sleep (failed_attempts url d k ++ tl) = k * d + total_sleep tl.
Proof.
  induction k as [| k IH]; [reflexivity |].
  change (total_sleep (failed_attempts url d (S k) ++ tl))
    with (0 + (d + total_sleep (failed_attempts url d k ++ tl))).
  rewrite IH. lia.
Qed.

(** X5: with [retries >= 1], [safe_get] makes at least one attempt and
    sleeps the delay once less than it makes attempts: a pause follows every
    failed attempt but the last one.  The time slept and one delay more are
    the delay times the number of attempts, at most [retries * retry_delay]. *)
Theorem safe_get_sleeps (get_ok : nat -> bool) (url : string)
    (retries retry_delay : nat) :
  1 <= retries ->
  let events := snd (safe_get get_ok url retries retry_delay) in
  1 <= attempts_made events
  /\ total_sleep events + retry_delay = attempts_made events * retry_delay
  /\ total_sleep events + retry_delay <= retries * retry_delay.
Proof.
  intros Hpos. cbv zeta. unfold safe_get.
  destruct (safe_get_loop_spec get_ok url retries retry_delay retries 0
              Hpos (Nat.add_0_l retries))
    as [[k (Hk & _ & _ & Heq)] | [_ Heq]];
    rewrite Heq; cbn [snd];
    rewrite total_sleep_failed, attempts_made_failed;
    change (total_sleep [Get url]) with 0;
    change (attempts_made [Get url]) with 1.
  - split; [lia |]. split; [lia |]. nia.
  - split; [lia |]. split; [lia |]. nia.
Qed.

(** Three attempts of which the third succeeds: two pauses of 2 seconds. *)
Lemma safe_get_sleeps_witness :
  1 <= 3
  /\ total_sleep (snd (safe_get (fun k => Nat.eqb k 2) shell_search_url 3 2)) = 4
  /\ attempts_made (snd (safe_get (fun k => Nat.eqb k 2) shell_search_url 3 2)) = 3.
Proof.
  assert (H : 1 <= 3) by lia.
  split; [exact H |].
  destruct (safe_get_sleeps (fun k => Nat.eqb k 2) shell_search_url 3 2 H)
    as (_ & Heq & _).
  assert (Ha : attempts_made
                 (snd (safe_get (fun k => Nat.eqb k 2) shell_search_url 3 2)) = 3)
    by reflexivity.
  rewrite Ha in Heq. split; [lia | exact Ha].
Defined.

(** X6: called with its defaults, [safe_get] is truthy exactly when one of
    the first three attempts succeeds; a fourth is never made. *)
Theorem navigate_three_attempts (get_ok : nat -> bool) (url : string) :
  navigate get_ok url = get_ok 0 || get_ok 1 || get_ok 2.
Proof.
  unfold navigate, safe_get. simpl.
  destruct (get_ok 0); [reflexivity |]. simpl.
  destruct (get_ok 1); [reflexivity |]. simpl.
  destruct (get_ok 2); reflexivity.
Qed.

(** ** The selector loops and the search strategies *)




Lemma appended_with_refl (P : Article -> Prop) (l : list Article) :
  appended_with P l l.
Proof. exists []. split; [now rewrite app_nil_r | constructor]. Qed.

Lemma appended_with_trans (P : Article -> Prop) (l1 l2 l3 : list Article) :
  appended_with P l1 l2 -> appended_with P l2 l3 -> appended_with P l1 l3.
Proof.
  intros (a1 & -> & H1) (a2 & -> & H2). exists (a1 ++ a2)%list.
  split; [now rewrite app_assoc | now apply Forall_app].
Qed.

Lemma appended_with_one (P : Article -> Prop) (l : list Article) (a : Article) :
  P a -> appended_with P l (l ++ [a])%list.
Proof. intros Ha. exists [a]. split; [reflexivity | now constructor]. Qed.

Lemma appended_with_new (P : Article -> Prop) (l : list Article) (a : Article) :
  P a -> appended_with P l (append_new l a).
Proof.
  intros Ha. unfold append_new. destruct (has_link (link a) l).
  - apply appended_with_refl.
  - now apply appended_with_one.
Qed.

Lemma appended_with_fold {A : Type} (P : Article -> Prop)
    (step : list Article -> A -> list Article) :
  (forall l x, appended_with P l (step l x)) ->
  forall xs l, appended_with P l (fold_left step xs l).
Proof.
  intros Hstep. induction xs as [| x xs IH]; intros l; simpl.
  - apply appended_with_refl.
  - eapply appended_with_trans; [apply Hstep | apply IH].
Qed.

Lemma appended_with_impl (P Q : Article -> Prop) (l1 l2 : list Article) :
  (forall a, P a -> Q a) -> appended_with P l1 l2 -> appended_with Q l1 l2.
Proof.
  intros Himp (added & -> & H). exists added. split; [reflexivity |].
  eapply Forall_impl; eassumption.
Qed.

Lemma appended_with_forall (P : Article -> Prop) (l1 l2 : list Article) :
  appended_with P l1 l2 -> Forall P l1 -> Forall P l2.
Proof. intros (added & -> & H) H1. now apply Forall_app. Qed.

Lemma read_container_created (method std : string) (c : Container) (a : Article) :
  read_container method std c = Some a -> created_by method std a.
Proof.
  unfold read_container. destruct (c_broken c); [discriminate |].
  destruct (resolve_first (c_find c) title_selectors); [| discriminate].
  intros [= <-]. repeat split.
Qed.

Lemma direct_search_created (b : Browser) (company_name std : string) :
  Forall (created_by "direct_search" std) (direct_search b company_name std).
Proof.
  unfold direct_search.
  match goal with |- context [navigate ?g ?u] => destruct (navigate g u) end;
    [| constructor].
  match goal with |- context [body ?x ?u] => destruct (body x u) as [| src fe] end;
    [constructor |].
  match goal with |- context [if ?t then _ else _] => destruct t end;
    [constructor |].
  eapply appended_with_forall; [| constructor].
  apply appended_with_fold. intros l c.
  destruct (read_container "direct_search" std c) eqn:Hr.
  - apply appended_with_one. now apply read_container_created in Hr.
  - apply appended_with_refl.
Qed.

Lemma browse_filter_created (b : Browser) (vars : list string) (std : string)
    (max_pages : nat) (articles : list Article) :
  appended_with (created_by "browse_filter" std) articles
    (browse_filter b vars std max_pages articles).
Proof.
  unfold browse_filter. apply appended_with_fold. intros l page.
  generalize (news_urls page). intros urls. revert l.
  induction urls as [| u tl IH]; intros l; simpl.
  - apply appended_with_refl.
  - destruct (navigate (get_ok b u) u); [| apply IH].
    destruct (body b u) as [| src fe]; [apply appended_with_refl |].
    destruct (Str.contains "Page not found" src); [apply IH |].
    destruct (Str.any_in vars (Str.lower src)); [| apply appended_with_refl].
    apply appended_with_fold. intros l' c. unfold browse_container.
    destruct (c_broken c) eqn:Hb; [apply appended_with_refl |].
    destruct (Str.any_in vars (Str.lower (c_text c)));
      [| apply appended_with_refl].
    destruct (read_container "browse_filter" std c) eqn:Hr;
      [| apply appended_with_refl].
    apply appended_with_new. now apply read_container_created in Hr.
Qed.

(** What the search-engine fallback writes into an article. *)
Lemma google_search_created (b : Browser) (company_name std : string)
    (articles : list Article) :
  appended_with
    (fun a => created_by "google_search" std a
              /\ Str.contains "esgtoday.com" (link a) = true
              /\ date a = Some "Date not found")
    articles (google_search b company_name std articles).
Proof.
  unfold google_search.
  match goal with |- context [navigate ?g ?u] => destruct (navigate g u) end;
    [| apply appended_with_refl].
  match goal with |- context [body ?x ?u] => destruct (body x u) as [| src fe] end;
    [apply appended_with_refl |].
  apply appended_with_fold. intros l c. unfold google_result.
  destruct (c_broken c); [apply appended_with_refl |].
  destruct (c_find c "a") as [le |]; [| apply appended_with_refl].
  destruct (Str.contains "esgtoday.com" (se_href le)) eqn:Hc;
    [| apply appended_with_refl].
  destruct (c_find c "h3"); [| apply appended_with_refl].
  apply appended_with_new. repeat split. exact Hc.
Qed.

(** X8: every article [search_esg_today_for_company] returns has the
    source "ESG Today", the canonical name of the company, one of the three
    tags of the strategies, and no content yet. *)
Theorem search_results_provenance (b : Browser) (company_name : string)
    (max_pages : nat) :
  Forall
    (fun a =>
       source a = "ESG Today"
       /\ company a = fst (normalize_company_name company_name)
       /\ full_content a = None
       /\ In (search_method a) ["direct_search"; "browse_filter"; "google_search"])
    (search_esg_today_for_company b company_name max_pages).
Proof.
  unfold search_esg_today_for_company.
  destruct (normalize_company_name company_name) as [std vars]. cbn [fst].
  set (P := fun a => source a = "ESG Today" /\ company a = std
                     /\ full_content a = None
                     /\ In (search_method a)
                          ["direct_search"; "browse_filter"; "google_search"]).
  assert (Hd : Forall P (direct_search b company_name std)).
  { eapply Forall_impl; [| apply direct_search_created].
    intros a (Hm & Hs & Hc & Hf). unfold P. rewrite Hm. simpl. tauto. }
  assert (Hb : forall l, Forall P l ->
                 Forall P (browse_filter b vars std max_pages l)).
  { intros l Hl. eapply appended_with_forall; [| exact Hl].
    eapply appended_with_impl; [| apply browse_filter_created].
    intros a (Hm & Hs & Hc & Hf). unfold P. rewrite Hm. simpl. tauto. }
  assert (Hg : forall l, Forall P l ->
                 Forall P (google_search b company_name std l)).
  { intros l Hl. eapply appended_with_forall; [| exact Hl].
    eapply appended_with_impl; [| apply google_search_created].
    intros a ((Hm & Hs & Hc & Hf) & _). unfold P. rewrite Hm. simpl. tauto. }
  destruct (List.length (direct_search b company_name std) <? 3)%nat.
  - match goal with |- context [if ?t then _ else _] => destruct t end;
      [apply Hg |]; now apply Hb.
  - match goal with |- context [if ?t then _ else _] => destruct t end;
      [apply Hg |]; exact Hd.
Qed.

Lemma direct_search_same_page (b b' : Browser) (company_name std : string) :
  get_ok b' ("https://www.esgnews.com/?s=" ++ plus_for_spaces company_name)
  = get_ok b ("https://www.esgnews.com/?s=" ++ plus_for_spaces company_name) ->
  body b' ("https://www.esgnews.com/?s=" ++ plus_for_spaces company_name)
  = body b ("https://www.esgnews.com/?s=" ++ plus_for_spaces company_name) ->
  direct_search b' company_name std = direct_search b company_name std.
Proof.
  intros Hg Hb. unfold direct_search. cbv zeta. now rewrite Hg, Hb.
Qed.

(** X9: with three or more results of the direct search, these results are
    returned as they are and no other page is consulted: a browser that
    answers alike on the search page gives the same articles, whatever its
    news pages and the search engine show. *)
Theorem direct_search_sufficient (b : Browser) (company_name : string)
    (max_pages : nat) :
  3 <= List.length (direct_search b company_name
                      (fst (normalize_company_name company_name))) ->
  search_esg_today_for_company b company_name max_pages
  = direct_search b company_name (fst (normalize_company_name company_name))
  /\ forall b',
       get_ok b' ("https://www.esgnews.com/?s=" ++ plus_for_spaces company_name)
       = get_ok b ("https://www.esgnews.com/?s=" ++ plus_for_spaces company_name) ->
       body b' ("https://www.esgnews.com/?s=" ++ plus_for_spaces company_name)
       = body b ("https://www.esgnews.com/?s=" ++ plus_for_spaces company_name) ->
       search_esg_today_for_company b' company_name max_pages
       = search_esg_today_for_company b company_name max_pages.
Proof.
  intros Hlen.
  assert (Hsame : forall x,
            3 <= List.length (direct_search x company_name
                                (fst (normalize_company_name company_name))) ->
            search_esg_today_for_company x company_name max_pages
            = direct_search x company_name
                (fst (normalize_company_name company_name))).
  { intros x Hx. unfold search_esg_today_for_company.
    destruct (normalize_company_name company_name) as [std vars]. cbn [fst] in *.
    destruct (Nat.ltb_spec (List.length (direct_search x company_name std)) 3);
      [lia |].
    destruct (Nat.ltb_spec (List.length (direct_search x company_name std)) 2);
      [lia | reflexivity]. }
  split; [now apply Hsame |].
  intros b' Hg Hb.
  pose proof (direct_search_same_page b b' company_name
                (fst (normalize_company_name company_name)) Hg Hb) as Hd.
  rewrite (Hsame b Hlen), (Hsame b'); [exact Hd | now rewrite Hd].
Qed.

(** Three results on the search page: the news pages of [busy_browser],
    which all load, are not looked at. *)
Lemma direct_search_sufficient_witness :
  3 <= List.length (direct_search three_result_browser "shell" "shell")
  /\ map search_method (search_esg_today_for_company three_result_browser "shell" 5)
     = ["direct_search"; "direct_search"; "direct_search"]
  /\ search_esg_today_for_company busy_browser "shell" 5
     = search_esg_today_for_company three_result_browser "shell" 5.
Proof.
  assert (H : 3 <= List.length (direct_search three_result_browser "shell"
                                  (fst (normalize_company_name "shell"))))
    by (vm_compute; lia).
  split; [exact H |].
  destruct (direct_search_sufficient three_result_browser "shell" 5 H)
    as [Heq Hother].
  split; [rewrite Heq; vm_compute; reflexivity |].
  apply Hother; reflexivity.
Defined.

(** X10: when the direct search finds nothing, what is returned is what
    the browsing of the news pages finds, all of it tagged "browse_filter",
    as soon as that is two articles or more; with fewer the search engine is
    consulted on top of it. *)
Theorem browse_results_when_direct_empty (b : Browser) (company_name : string)
    (max_pages : nat) :
  direct_search b company_name (fst (normalize_company_name company_name)) = [] ->
  let browsed :=
    browse_filter b (snd (normalize_company_name company_name))
      (fst (normalize_company_name company_name)) max_pages [] in
  Forall (fun a => search_method a = "browse_filter") browsed
  /\ (2 <= List.length browsed ->
      search_esg_today_for_company b company_name max_pages = browsed)
  /\ (List.length browsed < 2 ->
      search_esg_today_for_company b company_name max_pages
      = google_search b company_name
          (fst (normalize_company_name company_name)) browsed).
Proof.
  intros Hd browsed. subst browsed. unfold search_esg_today_for_company.
  destruct (normalize_company_name company_name) as [std vars]. cbn [fst snd] in *.
  rewrite Hd. change ((@List.length Article [] <? 3)%nat) with true. cbv iota.
  split.
  - eapply Forall_impl;
      [| eapply appended_with_forall;
         [apply browse_filter_created | constructor]].
    intros a H. apply H.
  - split; intros Hlen.
    + destruct (Nat.ltb_spec
                  (List.length (browse_filter b vars std max_pages [])) 2);
        [lia | reflexivity].
    + destruct (Nat.ltb_spec
                  (List.length (browse_filter b vars std max_pages [])) 2);
        [reflexivity | lia].
Qed.

Lemma browse_results_when_direct_empty_witness :
  direct_search browse_only_browser "shell" "shell" = []
  /\ map search_method (search_esg_today_for_company browse_only_browser "shell" 5)
     = ["browse_filter"; "browse_filter"].
Proof.
  assert (H : direct_search browse_only_browser "shell"
                (fst (normalize_company_name "shell")) = [])
    by (vm_compute; reflexivity).
  split; [exact H |].
  destruct (browse_results_when_direct_empty browse_only_browser "shell" 5 H)
    as (_ & Hmany & _).
  rewrite Hmany; vm_compute; [reflexivity | lia].
Defined.

Lemma fold_left_grows_by_one {A : Type}
    (step : list Article -> A -> list Article) :
  (forall l x, List.length (step l x) <= S (List.length l)) ->
  forall xs l,
    List.length (fold_left step xs l) <= List.length l + List.length xs.
Proof.
  intros Hstep. induction xs as [| x xs IH]; intros l; simpl; [lia |].
  specialize (IH (step l x)). specialize (Hstep l x). lia.
Qed.

Lemma append_new_length (l : list Article) (a : Article) :
  List.length (append_new l a) <= S (List.length l).
Proof.
  unfold append_new. destruct (has_link (link a) l); [lia |].
  rewrite length_app. simpl. lia.
Qed.

(** X11: the search-engine fallback adds at most five articles; each one
    it adds has a link that contains "esgtoday.com", the date "Date not
    found" and the tag "google_search". *)
Theorem google_search_adds (b : Browser) (company_name standard_name : string)
    (articles : list Article) :
  List.length (google_search b company_name standard_name articles)
  <= List.length articles + 5
  /\ appended_with
       (fun a => search_method a = "google_search"
                 /\ Str.contains "esgtoday.com" (link a) = true
                 /\ date a = Some "Date not found")
       articles (google_search b company_name standard_name articles).
Proof.
  split.
  - unfold google_search.
    match goal with |- context [navigate ?g ?u] => destruct (navigate g u) end;
      [| lia].
    match goal with |- context [body ?x ?u] => destruct (body x u) as [| src fe] end;
      [lia |].
    eapply Nat.le_trans.
    + apply fold_left_grows_by_one. intros l c. unfold google_result.
      destruct (c_broken c); [lia |].
      destruct (c_find c "a") as [le |]; [| lia].
      destruct (Str.contains "esgtoday.com" (se_href le)); [| lia].
      destruct (c_find c "h3"); [apply append_new_length | lia].
    + pose proof (firstn_le_length 5 (fe "div.g")). lia.
  - eapply appended_with_impl; [| apply google_search_created].
    intros a ((Hm & _) & Hl & Hd). tauto.
Qed.

Lemma alt_container_created (name company_name : string) (l : list Article)
    (c : Container) :
  appended_with
    (fun a => source a = name /\ search_method a = "alternative_source"
              /\ company a = company_name /\ full_content a = None)
    l (alt_container name company_name l c)
  /\ List.length (alt_container name company_name l c) <= S (List.length l).
Proof.
  unfold alt_container. destruct (c_broken c).
  - split; [apply appended_with_refl | lia].
  - destruct (resolve_first (c_find c) alt_title_selectors).
    + split; [apply appended_with_one; repeat split |].
      rewrite length_app. simpl. lia.
    + split; [apply appended_with_refl | lia].
Qed.

Lemma alt_sources_loop_one_source (b : Browser) (company_name : string)
    (max_results : nat) (sources : list (string * string)) :
  let results := alt_sources_loop b company_name max_results sources [] in
  List.length results <= max_results
  /\ (results = []
      \/ exists name url,
           In (name, url) sources
           /\ Forall (fun a => source a = name
                               /\ search_method a = "alternative_source"
                               /\ company a = company_name
                               /\ full_content a = None) results).
Proof.
  induction sources as [| [name url] tl IH]; cbv zeta in *;
    cbn [alt_sources_loop].
  - split; [simpl; lia | now left].
  - assert (Hrest :
      List.length (alt_sources_loop b company_name max_results tl [])
      <= max_results
      /\ (alt_sources_loop b company_name max_results tl [] = []
          \/ exists name0 url0,
               In (name0, url0) ((name, url) :: tl)
               /\ Forall (fun a => source a = name0
                                   /\ search_method a = "alternative_source"
                                   /\ company a = company_name
                                   /\ full_content a = None)
                         (alt_sources_loop b company_name max_results tl []))).
    { destruct IH as [Hlen [He | (n & u & Hin & Hall)]].
      - split; [exact Hlen | now left].
      - split; [exact Hlen |]. right. exists n, u. split; [now right | exact Hall]. }
    destruct (navigate (get_ok b url) url); [| exact Hrest].
    destruct (body b url) as [| src fe]; [exact Hrest |].
    set (elements := firstn max_results (first_nonempty fe alt_article_selectors)).
    destruct (fold_left (alt_container name company_name) elements [])
      as [| x found] eqn:Hfold; [exact Hrest |].
    rewrite <- Hfold. split.
    + eapply Nat.le_trans.
      * apply fold_left_grows_by_one. intros l c.
        apply (alt_container_created name company_name l c).
      * unfold elements. rewrite length_firstn. simpl. lia.
    + right. exists name, url. split; [now left |].
      eapply appended_with_forall; [| constructor].
      apply appended_with_fold. intros l c.
      apply (alt_container_created name company_name l c).
Qed.

(** The loop over the sources ends at the first one that gives an
    article. *)
Lemma alt_sources_loop_first (b : Browser) (company_name : string)
    (max_results : nat) (sources : list (string * string)) :
  let results := alt_sources_loop b company_name max_results sources [] in
  (results = []
   /\ Forall (fun s => alt_source_results b company_name max_results s = [])
             sources)
  \/ (exists before s after,
        sources = (before ++ s :: after)%list
        /\ Forall (fun s => alt_source_results b company_name max_results s = [])
                  before
        /\ results = alt_source_results b company_name max_results s
        /\ results <> []).
Proof.
  induction sources as [| [name url] tl IH]; cbv zeta in *;
    cbn [alt_sources_loop].
  - left. split; [reflexivity | constructor].
  - assert (Hrest :
      alt_source_results b company_name max_results (name, url) = [] ->
      (alt_sources_loop b company_name max_results tl [] = []
       /\ Forall (fun s => alt_source_results b company_name max_results s = [])
                 ((name, url) :: tl))
      \/ (exists before s after,
            (name, url) :: tl = (before ++ s :: after)%list
            /\ Forall (fun s => alt_source_results b company_name max_results s = [])
                      before
            /\ alt_sources_loop b company_name max_results tl []
               = alt_source_results b company_name max_results s
            /\ alt_sources_loop b company_name max_results tl [] <> [])).
    { intros Hnone. destruct IH as [[He Hall] | (bf & s0 & af & Hs & Hbf & Hr & Hne)].
      - left. split; [exact He | now constructor].
      - right. exists ((name, url) :: bf), s0, af.
        split; [now rewrite Hs |]. split; [now constructor |]. now split. }
    unfold alt_source_results in Hrest at 1.
    destruct (navigate (get_ok b url) url) eqn:Hnav; [| now apply Hrest].
    destruct (body b url) as [| src fe] eqn:Hbody; [now apply Hrest |].
    destruct (fold_left (alt_container name company_name)
                (firstn max_results (first_nonempty fe alt_article_selectors)) [])
      as [| x found] eqn:Hfold; [now apply Hrest |].
    right. exists [], (name, url), tl.
    split; [reflexivity |]. split; [constructor |].
    split; [| discriminate].
    unfold alt_source_results. now rewrite Hnav, Hbody, Hfold.
Qed.

(** X12: the alternative sources, read in the order Responsible Investor,
    ESG Investor, Sustainable Views, give at most [max_results] articles, all
    of them from one and the same of the three sources, the first in that
    order that gives any: they are what that source gives, and
    the sources before it give nothing.  The articles are tagged "alternative_source" and carry the company name as
    it was typed, not its canonical form.  Without any article, none of the
    three sources gives one. *)
Theorem search_alternative_one_source (b : Browser) (company_name : string)
    (max_results : nat) :
  let results := search_alternative_esg_sources b company_name max_results in
  map fst (alternative_sources company_name)
  = ["Responsible Investor"; "ESG Investor"; "Sustainable Views"]
  /\ List.length results <= max_results
  /\ ((results = []
       /\ Forall (fun s => alt_source_results b company_name max_results s = [])
                 (alternative_sources company_name))
      \/ exists before s after,
           alternative_sources company_name = (before ++ s :: after)%list
           /\ Forall (fun s => alt_source_results b company_name max_results s = [])
                     before
           /\ results = alt_source_results b company_name max_results s
           /\ results <> []
           /\ In (fst s)
                ["Responsible Investor"; "ESG Investor"; "Sustainable Views"]
           /\ Forall (fun a => source a = fst s
                               /\ search_method a = "alternative_source"
                               /\ company a = company_name
                               /\ full_content a = None) results).
Proof.
  cbv zeta. unfold search_alternative_esg_sources.
  destruct (alt_sources_loop_one_source b company_name max_results
              (alternative_sources company_name)) as [Hlen _].
  split; [reflexivity |]. split; [exact Hlen |].
  destruct (alt_sources_loop_first b company_name max_results
              (alternative_sources company_name))
    as [[He Hall] | (before & [name url] & after & Hs & Hbefore & Hr & Hne)].
  - left. now split.
  - right. exists before, (name, url), after.
    split; [exact Hs |]. split; [exact Hbefore |].
    split; [exact Hr |]. split; [exact Hne |].
    cbn [fst]. split.
    + assert (Hin : In (name, url) (alternative_sources company_name))
        by (rewrite Hs; apply in_elt).
      unfold alternative_sources in Hin. simpl in Hin.
      destruct Hin as [[= <- _] | [[= <- _] | [[= <- _] | []]]]; simpl; tauto.
    + rewrite Hr. unfold alt_source_results.
      destruct (navigate (get_ok b url) url); [| constructor].
      destruct (body b url) as [| src fe]; [constructor |].
      eapply appended_with_forall; [| constructor].
      apply appended_with_fold. intros l c.
      apply (alt_container_created name company_name l c).
Qed.

(** On [later_source_browser] the first source does not load, the second
    lists nothing and the third lists one article. *)
Example search_alternative_third_source :
  map source (search_alternative_esg_sources later_source_browser "shell" 5)
  = ["Sustainable Views"]
  /\ map (alt_source_results later_source_browser "shell" 5)
       (alternative_sources "shell")
     = [ []; []; search_alternative_esg_sources later_source_browser "shell" 5 ].
Proof. split; vm_compute; reflexivity. Qed.

(** ** Content retrieval: what every path writes and what none touches *)

Lemma retrieve_writes_fields (a : Article) (v : Visit) :
  exists content mentions relevant,
    full_content (retrieve a v) = Some content
    /\ mention_count (retrieve a v) = Some mentions
    /\ relevant_paragraphs (retrieve a v) = Some relevant
    /\ identity (retrieve a v) = identity a.
Proof.
  unfold retrieve.
  destruct (negb (navigate (v_get_ok v) (link a)));
    [do 3 eexists; repeat split |].
  destruct (resolve_first (find_content (v_page v)) content_selectors);
    [| do 3 eexists; repeat split].
  destruct (early_failure (v_page v)); [do 3 eexists; repeat split |].
  cbv zeta.
  destruct (late_failure (v_page v)); do 3 eexists; repeat split.
Qed.

(** X13: whatever the browser answers, the retrieval of an article leaves
    it with a content, a number of mentions and a list of relevant
    paragraphs, and with the title, link, excerpt, source, tag and company
    it had. *)
Theorem retrieve_always_writes (a : Article) (v : Visit) :
  exists content mentions relevant,
    full_content (retrieve a v) = Some content
    /\ mention_count (retrieve a v) = Some mentions
    /\ relevant_paragraphs (retrieve a v) = Some relevant
    /\ identity (retrieve a v) = identity a.
Proof. apply retrieve_writes_fields. Qed.


Lemma count_words_empty_subject (kw : string) :
  Re.count_words_ignorecase kw "" = 0.
Proof.
  unfold Re.count_words_ignorecase. cbn [Re.findall_ignorecase_from].
  unfold Re.match_here_ignorecase.
  destruct (String.length kw); cbn [String.get];
    change (Re.boundary None None) with false;
    now rewrite andb_false_r.
Qed.

Lemma count_mentions_empty (vars : list string) : count_mentions vars "" = 0.
Proof.
  unfold count_mentions. change (Str.lower "") with "".
  induction vars as [| v tl IH]; [reflexivity |].
  cbn [fold_left]. now rewrite count_words_empty_subject.
Qed.

(** X14: an article whose retrieved content is empty has 0 mentions,
    whatever the variations of the company name are. *)
Theorem empty_content_no_mentions (a : Article) (v : Visit) :
  full_content (retrieve a v) = Some "" ->
  mention_count (retrieve a v) = Some 0.
Proof.
  unfold retrieve.
  destruct (negb (navigate (v_get_ok v) (link a))); [reflexivity |].
  destruct (resolve_first (find_content (v_page v)) content_selectors) as [el |];
    [| reflexivity].
  destruct (early_failure (v_page v)); [reflexivity |].
  cbv zeta.
  destruct (late_failure (v_page v)); [reflexivity |].
  cbn [full_content mention_count set_content].
  intros [= ->]. now rewrite count_mentions_empty.
Qed.

Lemma empty_content_no_mentions_witness :
  full_content (retrieve fresh_article empty_page_visit) = Some ""
  /\ mention_count (retrieve fresh_article empty_page_visit) = Some 0.
Proof.
  assert (H : full_content (retrieve fresh_article empty_page_visit) = Some "")
    by (vm_compute; reflexivity).
  split; [exact H |].
  exact (empty_content_no_mentions fresh_article empty_page_visit H).
Defined.

(** X15: every relevant paragraph kept by the retrieval is a non-empty
    paragraph of the content element found by the first content selector
    that finds one, and its lower-cased text contains a variation of the
    company name. *)
Theorem relevant_paragraphs_sound (a : Article) (v : Visit) (relevant : list string) :
  relevant_paragraphs (retrieve a v) = Some relevant ->
  Forall
    (fun p =>
       p <> ""
       /\ Str.any_in (snd (normalize_company_name (company a))) (Str.lower p) = true
       /\ exists content_element,
            resolve_first (find_content (v_page v)) content_selectors
            = Some content_element
            /\ In p (ce_paragraphs content_element))
    relevant.
Proof.
  unfold retrieve.
  destruct (negb (navigate (v_get_ok v) (link a)));
    [intros [= <-]; constructor |].
  destruct (resolve_first (find_content (v_page v)) content_selectors) as [el |];
    [| intros [= <-]; constructor].
  destruct (early_failure (v_page v)); [intros [= <-]; constructor |].
  cbv zeta.
  destruct (late_failure (v_page v)); [intros [= <-]; constructor |].
  cbn [relevant_paragraphs set_content company set_categories_date].
  intros [= <-]. apply Forall_forall. intros p Hp.
  apply filter_In in Hp. destruct Hp as [Hp Hany].
  apply filter_In in Hp. destruct Hp as [Hp Hne].
  split; [| split].
  - apply negb_true_iff, String.eqb_neq in Hne. exact Hne.
  - exact Hany.
  - exists el. split; [reflexivity | exact Hp].
Qed.

(** On [full_page_visit] the one paragraph that names the company is kept;
    the company is counted once, "seashells" not being the word "shell". *)
Lemma relevant_paragraphs_sound_witness :
  relevant_paragraphs (retrieve fresh_article full_page_visit)
  = Some ["Shell sets a new target for seashells."]
  /\ mention_count (retrieve fresh_article full_page_visit) = Some 1
  /\ Forall (fun p => p <> "") ["Shell sets a new target for seashells."].
Proof.
  assert (H : relevant_paragraphs (retrieve fresh_article full_page_visit)
              = Some ["Shell sets a new target for seashells."])
    by (vm_compute; reflexivity).
  split; [exact H |]. split; [vm_compute; reflexivity |].
  eapply Forall_impl;
    [| exact (relevant_paragraphs_sound fresh_article full_page_visit _ H)].
  intros p Hp. apply Hp.
Defined.

(** X16: a date found by the search is never replaced by the retrieval;
    only the placeholder "Date not found" is looked up again on the page. *)
Theorem retrieve_keeps_found_date (a : Article) (v : Visit) :
  date a <> Some "Date not found" ->
  date (retrieve a v) = date a.
Proof.
  intros Hd.
  assert (Hs : is_some_string (date a) "Date not found" = false).
  { unfold is_some_string. destruct (date a) as [d |]; [| reflexivity].
    apply String.eqb_neq. intros ->. now apply Hd. }
  unfold retrieve.
  destruct (negb (navigate (v_get_ok v) (link a))); [reflexivity |].
  destruct (resolve_first (find_content (v_page v)) content_selectors);
    [| reflexivity].
  destruct (early_failure (v_page v)); [reflexivity |].
  cbv zeta. rewrite Hs.
  destruct (late_failure (v_page v)); reflexivity.
Qed.

Lemma retrieve_keeps_found_date_witness :
  date dated_article <> Some "Date not found"
  /\ date (retrieve dated_article full_page_visit) = Some "March 3, 2024"
  /\ date (retrieve fresh_article full_page_visit) = Some "April 1, 2024".
Proof.
  assert (H : date dated_article <> Some "Date not found") by discriminate.
  split; [exact H |]. split.
  - exact (retrieve_keeps_found_date dated_article full_page_visit H).
  - vm_compute. reflexivity.
Defined.

(** ** The whole run *)

Lemma passes_keep (m1 m2 : string -> list (string * string)) :
  kept_by_pass analyze_article
  /\ kept_by_pass finance_article
  /\ kept_by_pass sentiment_article
  /\ kept_by_pass (quotes_article m1 m2).
Proof.
  repeat split;
    unfold analyze_article, finance_article, sentiment_article, quotes_article;
    destruct (no_content a); reflexivity.
Qed.

Lemma all_passes_keep (m1 m2 : string -> list (string * string)) :
  kept_by_pass
    (fun a => quotes_article m1 m2
                (sentiment_article (finance_article (analyze_article a)))).
Proof.
  destruct (passes_keep m1 m2) as (H1 & H2 & H3 & H4). intros a.
  destruct (H1 a) as (A1 & A2 & A3 & A4 & A5 & A6).
  generalize dependent (analyze_article a). intros x1 A1 A2 A3 A4 A5 A6.
  destruct (H2 x1) as (B1 & B2 & B3 & B4 & B5 & B6).
  generalize dependent (finance_article x1). intros x2 B1 B2 B3 B4 B5 B6.
  destruct (H3 x2) as (C1 & C2 & C3 & C4 & C5 & C6).
  generalize dependent (sentiment_article x2). intros x3 C1 C2 C3 C4 C5 C6.
  destruct (H4 x3) as (D1 & D2 & D3 & D4 & D5 & D6).
  repeat split; congruence.
Qed.

Lemma analysis_passes_map (m1 m2 : string -> list (string * string))
    (articles : list Article) :
  analysis_passes m1 m2 articles
  = map (fun a => quotes_article m1 m2
                    (sentiment_article (finance_article (analyze_article a))))
        articles.
Proof.
  unfold analysis_passes, extract_quotes, detect_sentiment,
    add_sustainable_finance_data, analyze_esg_themes.
  now rewrite !map_map.
Qed.

Lemma get_article_content_from_forall2 (visits : nat -> Visit)
    (articles : list Article) :
  forall k,
    Forall2 (fun a x => exists v, x = retrieve a v)
      articles (get_article_content_from k visits articles).
Proof.
  induction articles as [| a tl IH]; intros k; simpl; constructor.
  - now exists (visits k).
  - apply IH.
Qed.

Lemma run_complete_analysis_nothing (m1 m2 : string -> list (string * string))
    (d : Disk) (b : Browser) (visits : nat -> Visit) (company_name : string) :
  discover b company_name = [] ->
  run_complete_analysis m1 m2 d b visits company_name = None.
Proof. intros H. unfold run_complete_analysis. now rewrite H. Qed.

(** What the retrieval and the four passes leave of the articles found. *)
Lemma retrieved_and_analysed (m1 m2 : string -> list (string * string))
    (visits : nat -> Visit) (found : list Article) :
  let articles := analysis_passes m1 m2 (get_article_content visits found) in
  map identity articles = map identity found
  /\ Forall (fun a => full_content a <> None
                      /\ mention_count a <> None
                      /\ relevant_paragraphs a <> None) articles.
Proof.
  cbv zeta. pose proof (all_passes_keep m1 m2) as Hkeep.
  rewrite analysis_passes_map. unfold get_article_content.
  pose proof (get_article_content_from_forall2 visits found 0) as Hret.
  generalize dependent (get_article_content_from 0 visits found).
  intros got Hret.
  induction Hret as [| a y la ly [v ->] _ IH]; [split; constructor |].
  destruct IH as [IHid IHall]. cbn [map].
  destruct (Hkeep (retrieve a v)) as (K1 & _ & _ & K4 & K5 & K6).
  destruct (retrieve_writes_fields a v) as (c & m & r & R1 & R2 & R3 & R4).
  split.
  - rewrite K1, R4, IHid. reflexivity.
  - constructor; [| exact IHall].
    rewrite K4, K5, K6, R1, R2, R3. repeat split; discriminate.
Qed.

(** X17: a run ends without a result exactly when no article was found or
    the JSON file cannot be written; otherwise it returns the names of the
    JSON file and, if it could be written, of the report, and as many
    articles as were found, in the order they were found, each with the
    title, link, excerpt, source, tag and company it was found with, and
    each with a content, a number of mentions and a list of relevant
    paragraphs. *)
Theorem run_complete_analysis_outcome (m1 m2 : string -> list (string * string))
    (d : Disk) (b : Browser) (visits : nat -> Visit) (company_name : string) :
  Str.is_ascii company_name = true ->
  match run_complete_analysis m1 m2 d b visits company_name with
  | None =>
      discover b company_name = []
      \/ writes d (json_file_name d company_name) = false
  | Some r =>
      discover b company_name <> []
      /\ writes d (json_file_name d company_name) = true
      /\ r_json_file r = Some (json_file_name d company_name)
      /\ r_report_file r
         = (if writes d (report_file_name d company_name)
            then Some (report_file_name d company_name) else None)
      /\ r_article_count r = List.length (discover b company_name)
      /\ map identity (r_articles r) = map identity (discover b company_name)
      /\ Forall (fun a => full_content a <> None
                          /\ mention_count a <> None
                          /\ relevant_paragraphs a <> None) (r_articles r)
  end.
Proof.
  intros _.
  destruct (discover b company_name) as [| x tl] eqn:Hd.
  - rewrite (run_complete_analysis_nothing m1 m2 d b visits company_name Hd).
    now left.
  - assert (H : discover b company_name <> []) by (rewrite Hd; discriminate).
    destruct (run_complete_analysis_found m1 m2 d b visits company_name H)
      as [Hne' ->].
    rewrite <- Hd in *. clear Hd x tl.
    destruct (writes d (json_file_name d company_name)) eqn:Hw; [| now right].
    cbn [r_article_count r_articles r_json_file r_report_file].
    destruct (retrieved_and_analysed m1 m2 visits (discover b company_name))
      as [Hid Hall].
    split; [exact H |]. split; [reflexivity |]. split; [reflexivity |].
    split.
    { unfold generate_report.
      destruct (analysis_passes m1 m2
                  (get_article_content visits (discover b company_name)));
        [congruence | reflexivity]. }
    split; [now rewrite analysis_passes_length, get_article_content_length |].
    split; [exact Hid | exact Hall].
Qed.

(** Two runs in a directory without sub-directories: for "shell" one
    article is found and both files are written; for "Novo Nordisk A/S" one
    article is found and the JSON file cannot be written. *)
Lemma run_complete_analysis_outcome_witness :
  Str.is_ascii "shell" = true
  /\ Str.is_ascii "Novo Nordisk A/S" = true
  /\ (exists r,
        run_complete_analysis no_quotes no_quotes flat_disk single_result_browser
          (fun _ => unreachable_visit) "shell" = Some r
        /\ r_json_file r = Some "shell_esg_articles_20240301_101500.json"
        /\ r_article_count r = 1
        /\ map identity (r_articles r) = [identity fresh_article])
  /\ run_complete_analysis no_quotes no_quotes flat_disk novo_browser
       (fun _ => unreachable_visit) "Novo Nordisk A/S" = None
  /\ discover novo_browser "Novo Nordisk A/S" <> []
  /\ writes flat_disk (json_file_name flat_disk "Novo Nordisk A/S") = false.
Proof.
  split; [reflexivity |]. split; [reflexivity |]. split.
  - pose proof (run_complete_analysis_outcome no_quotes no_quotes flat_disk
                  single_result_browser (fun _ => unreachable_visit) "shell"
                  eq_refl) as H.
    destruct (run_complete_analysis no_quotes no_quotes flat_disk
                single_result_browser (fun _ => unreachable_visit) "shell")
      as [r |] eqn:Hr.
    + destruct H as (_ & _ & Hjson & _ & Hcount & Hid & _).
      exists r. split; [reflexivity |].
      split; [rewrite Hjson; vm_compute; reflexivity |].
      split; [rewrite Hcount; vm_compute; reflexivity |].
      rewrite Hid. vm_compute. reflexivity.
    + exfalso. destruct H as [H | H]; vm_compute in H; discriminate.
  - pose proof (run_complete_analysis_outcome no_quotes no_quotes flat_disk
                  novo_browser (fun _ => unreachable_visit) "Novo Nordisk A/S"
                  eq_refl) as H.
    destruct (run_complete_analysis no_quotes no_quotes flat_disk
                novo_browser (fun _ => unreachable_visit) "Novo Nordisk A/S")
      as [r |] eqn:Hr.
    + exfalso. destruct H as (_ & Hw & _). vm_compute in Hw. discriminate.
    + split; [reflexivity |]. split; [vm_compute; discriminate |].
      vm_compute. reflexivity.
Defined.

(** ** The analysis passes: keywords, order, labels, quotes *)

Lemma fold_left_add_sum (f : string -> nat) (l : list string) :
  forall acc, fold_left (fun a x => a + f x) l acc = acc + list_sum (map f l).
Proof.
  induction l as [| x l IH]; intros acc; simpl; [lia |]. rewrite IH. lia.
Qed.

Lemma found_le_sum (f : string -> nat) (l : list string) :
  List.length (filter (fun x => (0 <? f x)%nat) l) <= list_sum (map f l)
  /\ (filter (fun x => (0 <? f x)%nat) l = [] <-> list_sum (map f l) = 0).
Proof.
  induction l as [| x l [IHlen IHnil]]; simpl; [split; [lia | tauto] |].
  destruct (Nat.ltb_spec 0 (f x)) as [Hpos | Hzero]; simpl.
  - split; [lia |]. split; [discriminate | lia].
  - split; [lia |]. rewrite IHnil. split; lia.
Qed.

(** X18: in the loop over the keywords of a theme, or of the
    sustainable-finance list, the total is 0 exactly when no keyword is
    recorded, the keywords recorded are those of the list that have a
    whole-word match in the content, and the total is at least the number of
    recorded keywords. *)
Theorem recorded_keywords_counted (keywords : list string) (content : string) :
  (keywords_found keywords content = [] <-> keyword_total keywords content = 0)
  /\ List.length (keywords_found keywords content) <= keyword_total keywords content
  /\ (forall kw, In kw (keywords_found keywords content)
                 <-> In kw keywords /\ 0 < Re.count_words kw content).
Proof.
  unfold keywords_found, keyword_total. rewrite fold_left_add_sum. simpl.
  destruct (found_le_sum (fun kw => Re.count_words kw content) keywords)
    as [Hlen Hnil].
  split; [exact Hnil |]. split; [exact Hlen |].
  intros kw. rewrite filter_In. now rewrite Nat.ltb_lt.
Qed.

Ltac unfold_passes :=
  unfold analyze_article, finance_article, sentiment_article, quotes_article,
    no_content;
  cbn [title date link excerpt source search_method company full_content
       categories mention_count relevant_paragraphs esg_theme_counts
       esg_keywords primary_esg_focus sustainable_finance_mentions
       sustainable_finance_keywords sustainable_finance_focus sentiment_score
       sentiment positive_words negative_words quotes quote_count].

Ltac by_content a :=
  destruct a as [t d l e src m co fc ca mc rp tc kw pf fm fk ff ss se pw nw qs qc];
  destruct fc as [c |];
  [ destruct (String.eqb c "") eqn:Hc; unfold_passes; rewrite ?Hc;
    unfold_passes; rewrite ?Hc; reflexivity
  | unfold_passes; reflexivity ].

(** Any two passes can be exchanged. *)
Lemma passes_commute (m1 m2 : string -> list (string * string)) (a : Article) :
  finance_article (analyze_article a) = analyze_article (finance_article a)
  /\ sentiment_article (analyze_article a) = analyze_article (sentiment_article a)
  /\ quotes_article m1 m2 (analyze_article a)
     = analyze_article (quotes_article m1 m2 a)
  /\ sentiment_article (finance_article a) = finance_article (sentiment_article a)
  /\ quotes_article m1 m2 (finance_article a)
     = finance_article (quotes_article m1 m2 a)
  /\ quotes_article m1 m2 (sentiment_article a)
     = sentiment_article (quotes_article m1 m2 a).
Proof. repeat split; by_content a. Qed.

(** A pass run twice does what it does once. *)
Lemma passes_idempotent (m1 m2 : string -> list (string * string)) (a : Article) :
  analyze_article (analyze_article a) = analyze_article a
  /\ finance_article (finance_article a) = finance_article a
  /\ sentiment_article (sentiment_article a) = sentiment_article a
  /\ quotes_article m1 m2 (quotes_article m1 m2 a) = quotes_article m1 m2 a.
Proof. repeat split; by_content a. Qed.

(** X19: the four analysis passes are independent: run in the opposite
    order, theme analysis last, they leave every article as the run's order
    does. *)
Theorem analysis_order_irrelevant (m1 m2 : string -> list (string * string))
    (articles : list Article) :
  analyze_esg_themes
    (add_sustainable_finance_data
       (detect_sentiment (extract_quotes m1 m2 articles)))
  = analysis_passes m1 m2 articles.
Proof.
  pose proof (fun x => proj1 (passes_commute m1 m2 x)) as C1.
  pose proof (fun x => proj1 (proj2 (passes_commute m1 m2 x))) as C2.
  pose proof (fun x => proj1 (proj2 (proj2 (passes_commute m1 m2 x)))) as C3.
  pose proof (fun x => proj1 (proj2 (proj2 (proj2 (passes_commute m1 m2 x))))) as C4.
  pose proof (fun x => proj1 (proj2 (proj2 (proj2 (proj2
                         (passes_commute m1 m2 x)))))) as C5.
  pose proof (fun x => proj2 (proj2 (proj2 (proj2 (proj2
                         (passes_commute m1 m2 x)))))) as C6.
  rewrite analysis_passes_map.
  unfold analyze_esg_themes, add_sustainable_finance_data, detect_sentiment,
    extract_quotes.
  rewrite !map_map. apply map_ext. intros a.
  rewrite <- C6, <- C5, <- C3.
  rewrite <- C4, <- C2.
  rewrite <- C1. reflexivity.
Qed.

(** X20: the analysis can be repeated: running the four passes on their own
    result changes nothing. *)
Theorem analysis_passes_idempotent (m1 m2 : string -> list (string * string))
    (articles : list Article) :
  analysis_passes m1 m2 (analysis_passes m1 m2 articles)
  = analysis_passes m1 m2 articles.
Proof.
  pose proof (fun x => proj1 (passes_commute m1 m2 x)) as C1.
  pose proof (fun x => proj1 (proj2 (passes_commute m1 m2 x))) as C2.
  pose proof (fun x => proj1 (proj2 (proj2 (passes_commute m1 m2 x)))) as C3.
  pose proof (fun x => proj1 (proj2 (proj2 (proj2 (passes_commute m1 m2 x))))) as C4.
  pose proof (fun x => proj1 (proj2 (proj2 (proj2 (proj2
                         (passes_commute m1 m2 x)))))) as C5.
  pose proof (fun x => proj2 (proj2 (proj2 (proj2 (proj2
                         (passes_commute m1 m2 x)))))) as C6.
  pose proof (fun x => proj1 (passes_idempotent m1 m2 x)) as I1.
  pose proof (fun x => proj1 (proj2 (passes_idempotent m1 m2 x))) as I2.
  pose proof (fun x => proj1 (proj2 (proj2 (passes_idempotent m1 m2 x)))) as I3.
  pose proof (fun x => proj2 (proj2 (proj2 (passes_idempotent m1 m2 x)))) as I4.
  rewrite !analysis_passes_map, map_map. apply map_ext. intros a.
  rewrite <- (C3 (sentiment_article (finance_article (analyze_article a)))).
  rewrite <- (C2 (finance_article (analyze_article a))).
  rewrite <- (C1 (analyze_article a)), I1.
  rewrite <- (C5 (sentiment_article (finance_article (analyze_article a)))).
  rewrite <- (C4 (finance_article (analyze_article a))), I2.
  rewrite <- (C6 (sentiment_article (finance_article (analyze_article a)))), I3.
  now rewrite I4.
Qed.

Lemma score_of_sign (p n : nat) :
  (p <= n -> (score_of p n <= 0)%Q) /\ (n <= p -> (0 <= score_of p n)%Q).
Proof.
  rewrite score_of_quotient.
  pose proof (unit_range _ (quotient_of_unit p n)) as Hr.
  split; intros H.
  - change 0%Q with (binary64 0).
    apply binary64_mono; [exact Hr | vm_compute; reflexivity |].
    unfold quotient_of, Qle. cbn [Qnum Qden]. lia.
  - change 0%Q with (binary64 0).
    apply binary64_mono; [vm_compute; reflexivity | exact Hr |].
    unfold quotient_of, Qle. cbn [Qnum Qden]. lia.
Qed.

(** The label against the two counts and against the rounded score. *)
Lemma label_and_rounded_score (p n : nat) :
  let q := score_of p n in
  ((tenth < q)%Q -> n < p /\ (1 # 10 <= round2 q)%Q)
  /\ ((q < - tenth)%Q -> p < n /\ (round2 q <= - (1 # 10))%Q)
  /\ ((- tenth <= q <= tenth)%Q -> (- (1 # 10) <= round2 q <= 1 # 10)%Q)
  /\ (p = n -> (round2 q == 0)%Q /\ (- tenth <= q <= tenth)%Q).
Proof.
  cbv zeta. destruct (score_of_sign p n) as [Hneg Hpos].
  assert (Hup : forall x, (tenth <= x)%Q -> (1 # 10 <= round2 x)%Q).
  { intros x Hx. apply Qle_trans with (round2 tenth);
      [vm_compute; discriminate | now apply round2_mono]. }
  assert (Hdown : forall x, (x <= tenth)%Q -> (round2 x <= 1 # 10)%Q).
  { intros x Hx. apply Qle_trans with (round2 tenth);
      [now apply round2_mono | vm_compute; discriminate]. }
  assert (Hup' : forall x, (- tenth <= x)%Q -> (- (1 # 10) <= round2 x)%Q).
  { intros x Hx. apply Qle_trans with (round2 (- tenth));
      [vm_compute; discriminate | now apply round2_mono]. }
  assert (Hdown' : forall x, (x <= - tenth)%Q -> (round2 x <= - (1 # 10))%Q).
  { intros x Hx. apply Qle_trans with (round2 (- tenth));
      [now apply round2_mono | vm_compute; discriminate]. }
  assert (Ht : (0 < tenth)%Q) by (vm_compute; reflexivity).
  assert (Ht' : (- tenth < 0)%Q) by (vm_compute; reflexivity).
  split; [| split; [| split]].
  - intros H. split; [| apply Hup, Qlt_le_weak, H].
    destruct (Nat.lt_ge_cases n p) as [Hlt | Hge]; [exact Hlt | exfalso].
    apply (Qlt_irrefl 0). apply Qlt_le_trans with (score_of p n); [| now apply Hneg].
    now apply Qlt_trans with tenth.
  - intros H. split; [| apply Hdown', Qlt_le_weak, H].
    destruct (Nat.lt_ge_cases p n) as [Hlt | Hge]; [exact Hlt | exfalso].
    apply (Qlt_irrefl 0). apply Qle_lt_trans with (score_of p n); [now apply Hpos |].
    now apply Qlt_trans with (- tenth).
  - intros [Hlo Hhi]. split; [now apply Hup' | now apply Hdown].
  - intros ->.
    assert (Hz : score_of n n = 0%Q).
    { rewrite score_of_quotient. unfold quotient_of, binary64. cbn [Qnum].
      now rewrite Z.sub_diag. }
    rewrite Hz. split; [reflexivity |].
    split; apply Qlt_le_weak; assumption.
Qed.

(** X21: for an article with a content, the label and the numbers stored
    with it agree: "positive" comes with more positive than negative words
    and a stored score of at least 0.1, "negative" with more negative than
    positive words and a stored score of at most -0.1, "neutral" with a
    stored score between -0.1 and 0.1; equal counts give "neutral" and the
    score 0; no other label is given. *)
Theorem sentiment_fields_agree (a : Article) (content : string) :
  full_content a = Some content ->
  content <> "" ->
  exists p n s l,
    positive_words (sentiment_article a) = Some p
    /\ negative_words (sentiment_article a) = Some n
    /\ sentiment_score (sentiment_article a) = Some s
    /\ sentiment (sentiment_article a) = Some l
    /\ In l ["positive"; "negative"; "neutral"]
    /\ (l = "positive" -> n < p /\ (1 # 10 <= s)%Q)
    /\ (l = "negative" -> p < n /\ (s <= - (1 # 10))%Q)
    /\ (l = "neutral" -> (- (1 # 10) <= s <= 1 # 10)%Q)
    /\ (p = n -> l = "neutral" /\ (s == 0)%Q).
Proof.
  intros Hc Hne. unfold sentiment_article.
  rewrite (no_content_false a content Hc Hne), Hc. cbv zeta.
  cbn [positive_words negative_words sentiment_score sentiment].
  set (p := padded_count positive_word_list (Str.lower content)).
  set (n := padded_count negative_word_list (Str.lower content)).
  exists p, n, (round2 (score_of p n)), (sentiment_label (score_of p n)).
  do 4 (split; [reflexivity |]).
  destruct (sentiment_label_cases (score_of p n)) as (Hp & Hn & Hu).
  destruct (label_and_rounded_score p n) as (Lp & Ln & Lu & Le).
  split.
  { unfold sentiment_label.
    destruct (Qltb tenth (score_of p n)); [simpl; tauto |].
    destruct (Qltb (score_of p n) (- tenth)); simpl; tauto. }
  split; [intros H; apply Lp, Hp, H |].
  split; [intros H; apply Ln, Hn, H |].
  split; [intros H; apply Lu, Hu, H |].
  intros H. destruct (Le H) as [Hz Hr]. split; [apply Hu, Hr | exact Hz].
Qed.

Lemma sentiment_fields_agree_witness :
  exists s,
    sentiment_score (sentiment_article mixed_article) = Some s
    /\ sentiment (sentiment_article mixed_article) = Some "positive"
    /\ (1 # 10 <= s)%Q.
Proof.
  destruct (sentiment_fields_agree mixed_article _ eq_refl ltac:(discriminate))
    as (p & n & s & l & _ & _ & Hs & Hl & _ & Hpos & _).
  exists s. split; [exact Hs |].
  assert (Hlabel : l = "positive").
  { assert (H : sentiment (sentiment_article mixed_article) = Some "positive")
      by (vm_compute; reflexivity).
    rewrite Hl in H. now injection H. }
  split; [rewrite Hl, Hlabel; reflexivity |].
  apply Hpos. exact Hlabel.
Defined.

(** X22: for an article with a content, the quotes kept are matches of the
    two patterns, those of the first pattern before those of the second,
    each one with the company named by its speaker or by its text; the count
    stored is their number, and it is 0 when neither pattern matches. *)
Theorem extract_quotes_keeps_company_quotes
    (m1 m2 : string -> list (string * string)) (a : Article) (content : string) :
  full_content a = Some content ->
  content <> "" ->
  exists kept,
    quotes (quotes_article m1 m2 a) = Some kept
    /\ quote_count (quotes_article m1 m2 a) = Some (List.length kept)
    /\ List.length kept <= List.length (m1 content) + List.length (m2 content)
    /\ Forall
         (fun q =>
            (Str.any_in (snd (normalize_company_name (company a)))
               (Str.lower (q_speaker q)) = true
             \/ Str.any_in (snd (normalize_company_name (company a)))
                  (Str.lower (q_text q)) = true)
            /\ ((q_pattern q = "attribution"
                 /\ In (q_text q, q_speaker q) (m1 content))
                \/ (q_pattern q = "preceding_attribution"
                    /\ In (q_speaker q, q_text q) (m2 content))))
         kept
    /\ (exists k1 k2,
          kept = (k1 ++ k2)%list
          /\ Forall (fun q => q_pattern q = "attribution") k1
          /\ Forall (fun q => q_pattern q = "preceding_attribution") k2)
    /\ (m1 content = [] -> m2 content = [] -> kept = []).
Proof.
  intros Hc Hne. unfold quotes_article.
  rewrite (no_content_false a content Hc Hne), Hc. cbv zeta.
  cbn [quotes quote_count].
  set (vars := snd (normalize_company_name (company a))).
  set (f1 := map (fun m => mkQuote (fst m) (snd m) "attribution") (m1 content)).
  set (f2 := map (fun m => mkQuote (snd m) (fst m) "preceding_attribution")
               (m2 content)).
  eexists. split; [reflexivity |]. split; [reflexivity |].
  split.
  { eapply Nat.le_trans; [apply filter_length_le |].
    subst f1 f2. now rewrite length_app, !length_map. }
  split.
  { apply Forall_forall. intros q Hq. apply filter_In in Hq.
    destruct Hq as [Hin Hcq]. split.
    - unfold is_company_quote in Hcq. now apply orb_true_iff in Hcq.
    - apply in_app_or in Hin. destruct Hin as [Hin | Hin];
        apply in_map_iff in Hin; destruct Hin as [[x y] [<- Hxy]];
        [left | right]; split; [reflexivity | exact Hxy | reflexivity | exact Hxy]. }
  split.
  { exists (filter (is_company_quote vars) f1), (filter (is_company_quote vars) f2).
    split; [apply filter_app |].
    split; apply Forall_forall; intros q Hq; apply filter_In in Hq;
      destruct Hq as [Hin _]; apply in_map_iff in Hin;
      destruct Hin as [x [<- _]]; reflexivity. }
  intros H1 H2. subst f1 f2. now rewrite H1, H2.
Qed.

Lemma extract_quotes_keeps_company_quotes_witness :
  quotes (quotes_article sample_pattern1 sample_pattern2 quoted_article)
  = Some [mkQuote "We will cut emissions," "Shell chief Wael Sawan" "attribution"]
  /\ quote_count (quotes_article sample_pattern1 sample_pattern2 quoted_article)
     = Some 1.
Proof.
  destruct (extract_quotes_keeps_company_quotes sample_pattern1 sample_pattern2
              quoted_article quoted_content eq_refl ltac:(discriminate))
    as (kept & Hq & Hn & _).
  assert (Hk : kept = [mkQuote "We will cut emissions," "Shell chief Wael Sawan"
                         "attribution"]).
  { assert (H : quotes (quotes_article sample_pattern1 sample_pattern2 quoted_article)
                = Some [mkQuote "We will cut emissions," "Shell chief Wael Sawan"
                          "attribution"]) by (vm_compute; reflexivity).
    rewrite Hq in H. now injection H. }
  split; [rewrite Hq, Hk; reflexivity | rewrite Hn, Hk; reflexivity].
Defined.

(** ** The report: ranking and counters *)

Lemma insert_desc_perm (x : Article) (l : list Article) :
  Permutation (insert_desc x l) (x :: l).
Proof.
  induction l as [| y tl IH]; simpl; [reflexivity |].
  destruct (mention_key y <? mention_key x)%nat; [reflexivity |].
  rewrite IH. apply perm_swap.
Qed.

Lemma insert_desc_sorted (x : Article) (l : list Article) :
  StronglySorted ranks_before l -> StronglySorted ranks_before (insert_desc x l).
Proof.
  induction l as [| y tl IH]; intros Hs; simpl.
  - constructor; constructor.
  - inversion Hs as [| ? ? Htl Hall]; subst.
    destruct (Nat.ltb_spec (mention_key y) (mention_key x)) as [Hlt | Hge].
    + constructor; [exact Hs |]. constructor; [unfold ranks_before; lia |].
      eapply Forall_impl; [| exact Hall]. unfold ranks_before. intros z Hz. lia.
    + constructor; [now apply IH |].
      assert (Hx : Forall (ranks_before y) (x :: tl))
        by (constructor; [exact Hge | exact Hall]).
      rewrite Forall_forall in *. intros z Hz. apply Hx.
      apply (Permutation_in z (insert_desc_perm x tl) Hz).
Qed.

Lemma filter_none {A : Type} (f : A -> bool) (l : list A) :
  (forall z, In z l -> f z = false) -> filter f l = [].
Proof.
  induction l as [| y tl IH]; intros H; [reflexivity |]. simpl.
  rewrite (H y (or_introl eq_refl)). apply IH. intros z Hz. apply H. now right.
Qed.

Lemma insert_desc_stable (k : nat) (x : Article) (l : list Article) :
  StronglySorted ranks_before l ->
  with_mentions k (insert_desc x l) = (with_mentions k l ++ with_mentions k [x])%list.
Proof.
  unfold with_mentions.
  induction l as [| y tl IH]; intros Hs; [reflexivity |].
  inversion Hs as [| ? ? Htl Hall]; subst. cbn [insert_desc].
  destruct (Nat.ltb_spec (mention_key y) (mention_key x)) as [Hlt | Hge].
  - cbn [filter]. destruct (Nat.eqb_spec (mention_key x) k) as [Hk | Hk].
    + assert (Hnone : filter (fun a => Nat.eqb (mention_key a) k) (y :: tl) = []).
      { apply filter_none. intros z Hz. apply Nat.eqb_neq.
        destruct Hz as [<- | Hz]; [lia |].
        rewrite Forall_forall in Hall. specialize (Hall z Hz).
        unfold ranks_before in Hall. lia. }
      cbn [filter] in Hnone. rewrite Hnone. reflexivity.
    + now rewrite app_nil_r.
  - cbn [filter]. rewrite (IH Htl).
    destruct (Nat.eqb (mention_key y) k); reflexivity.
Qed.

Lemma sorted_by_mentions_from (l : list Article) :
  forall acc,
    StronglySorted ranks_before acc ->
    StronglySorted ranks_before (fold_left (fun acc x => insert_desc x acc) l acc)
    /\ Permutation (fold_left (fun acc x => insert_desc x acc) l acc) (acc ++ l)
    /\ forall k,
         with_mentions k (fold_left (fun acc x => insert_desc x acc) l acc)
         = (with_mentions k acc ++ with_mentions k l)%list.
Proof.
  induction l as [| x l IH]; intros acc Hs; simpl.
  - split; [exact Hs |]. split; [now rewrite app_nil_r |].
    intros k. unfold with_mentions. simpl. now rewrite app_nil_r.
  - destruct (IH (insert_desc x acc) (insert_desc_sorted x acc Hs))
      as (Hsorted & Hperm & Hstable).
    split; [exact Hsorted |]. split.
    + rewrite Hperm, insert_desc_perm. apply Permutation_middle.
    + intros k. rewrite Hstable, (insert_desc_stable k x acc Hs).
      rewrite <- app_assoc. f_equal. unfold with_mentions. simpl.
      destruct (Nat.eqb (mention_key x) k); reflexivity.
Qed.

Lemma sorted_app_ranks (l1 l2 : list Article) :
  StronglySorted ranks_before (l1 ++ l2) ->
  forall x y, In x l1 -> In y l2 -> mention_key y <= mention_key x.
Proof.
  induction l1 as [| z l1 IH]; intros Hs x y Hx Hy; [destruct Hx |].
  simpl in Hs. inversion Hs as [| ? ? Htl Hall]; subst.
  destruct Hx as [<- | Hx].
  - rewrite Forall_forall in Hall. apply (Hall y). apply in_or_app. now right.
  - now apply (IH Htl x y).
Qed.

(** X23: the ranking of the report holds the same articles as the list,
    ordered by falling number of mentions (an article without the key
    counting as 0), articles with the same number of mentions staying in the
    order of the list; the report shows the first ten of it, or all when
    there are fewer, and no article left out has more mentions than one
    shown. *)
Theorem report_ranking (articles : list Article) :
  Permutation (sorted_by_mentions articles) articles
  /\ StronglySorted ranks_before (sorted_by_mentions articles)
  /\ (forall k, with_mentions k (sorted_by_mentions articles)
                = with_mentions k articles)
  /\ top_articles (report_summary articles)
     = firstn 10 (sorted_by_mentions articles)
  /\ List.length (top_articles (report_summary articles))
     = Nat.min 10 (List.length articles)
  /\ (forall shown left_out,
        In shown (top_articles (report_summary articles)) ->
        In left_out (skipn 10 (sorted_by_mentions articles)) ->
        mention_key left_out <= mention_key shown).
Proof.
  destruct (sorted_by_mentions_from articles [] (SSorted_nil _))
    as (Hsorted & Hperm & Hstable).
  fold (sorted_by_mentions articles) in *.
  split; [exact Hperm |]. split; [exact Hsorted |].
  split; [intros k; apply Hstable |].
  split; [reflexivity |].
  cbn [top_articles report_summary]. split.
  - rewrite length_firstn. now rewrite (Permutation_length Hperm).
  - intros shown left_out Hin Hout.
    apply (sorted_app_ranks (firstn 10 (sorted_by_mentions articles))
             (skipn 10 (sorted_by_mentions articles)));
      [now rewrite firstn_skipn | exact Hin | exact Hout].
Qed.

Lemma counters_sum_bump (k : string) (d : list (string * nat)) :
  counters_sum (bump k d) = S (counters_sum d).
Proof.
  unfold counters_sum. induction d as [| [k' n] tl IH]; [reflexivity |].
  simpl. destruct (String.eqb k' k); simpl; [lia |]. rewrite IH. lia.
Qed.

Lemma keys_bump (k : string) (d : list (string * nat)) :
  In k (map fst d) -> map fst (bump k d) = map fst d.
Proof.
  induction d as [| [k' n] tl IH]; intros Hin; [destruct Hin |].
  simpl. destruct (String.eqb_spec k' k) as [-> | Hne]; [reflexivity |].
  simpl. f_equal. apply IH. destruct Hin as [Heq | Hin]; [| exact Hin].
  simpl in Heq. congruence.
Qed.

Lemma counters_fold (field : Article -> option string) (articles : list Article) :
  forall d,
    counters_sum (fold_left (fun d a => bump_opt (field a) d) articles d)
    = counters_sum d + List.length (having field articles)
    /\ (Forall (fun a => match field a with
                         | Some k => In k (map fst d)
                         | None => True
                         end) articles ->
        map fst (fold_left (fun d a => bump_opt (field a) d) articles d)
        = map fst d).
Proof.
  induction articles as [| a tl IH]; intros d; simpl.
  - split; [lia | reflexivity].
  - destruct (IH (bump_opt (field a) d)) as [Hsum Hkeys]. split.
    + rewrite Hsum. unfold bump_opt. destruct (field a); simpl;
        [rewrite counters_sum_bump |]; lia.
    + intros Hall. inversion Hall as [| ? ? Ha Htl]; subst.
      unfold bump_opt in *. destruct (field a) as [k |].
      * rewrite Hkeys; [now apply keys_bump |].
        rewrite keys_bump by exact Ha. exact Htl.
      * now apply Hkeys.
Qed.

Lemma theme_totals_fold (articles : list Article) :
  forall t,
    let total := fold_left (fun t a => add_counts t (esg_theme_counts a)) articles t in
    environmental total
    = environmental t + list_sum (map (count_or_zero environmental) articles)
    /\ social total = social t + list_sum (map (count_or_zero social) articles)
    /\ governance total
       = governance t + list_sum (map (count_or_zero governance) articles).
Proof.
  induction articles as [| a tl IH]; intros t; cbv zeta; simpl.
  - repeat split; lia.
  - destruct (IH (add_counts t (esg_theme_counts a))) as (He & Hs & Hg).
    rewrite He, Hs, Hg. unfold add_counts, count_or_zero.
    destruct (esg_theme_counts a); simpl; repeat split; lia.
Qed.

(** X24: in the summary of the report the counters of primary focus add up
    to the number of articles that have a primary focus, the counters of
    sentiment to the number of articles that have a sentiment, and each
    theme total is the sum of that theme's counts over the articles, an
    article without counts adding nothing; as long as every focus and
    sentiment is one of the expected labels, no counter is added to the
    four and the three the report starts with. *)
Theorem report_counters (articles : list Article) :
  let summary := report_summary articles in
  counters_sum (primary_focus_count summary)
  = List.length (having primary_esg_focus articles)
  /\ counters_sum (sentiment_count summary)
     = List.length (having sentiment articles)
  /\ environmental (theme_totals summary)
     = list_sum (map (count_or_zero environmental) articles)
  /\ social (theme_totals summary)
     = list_sum (map (count_or_zero social) articles)
  /\ governance (theme_totals summary)
     = list_sum (map (count_or_zero governance) articles)
  /\ (Forall (fun a => match primary_esg_focus a with
                       | Some f => In f ["environmental"; "social"; "governance";
                                         "undetermined"]
                       | None => True
                       end) articles ->
      map fst (primary_focus_count summary)
      = ["environmental"; "social"; "governance"; "undetermined"])
  /\ (Forall (fun a => match sentiment a with
                       | Some l => In l ["positive"; "neutral"; "negative"]
                       | None => True
                       end) articles ->
      map fst (sentiment_count summary) = ["positive"; "neutral"; "negative"]).
Proof.
  cbv zeta. unfold report_summary.
  cbn [primary_focus_count sentiment_count theme_totals].
  destruct (counters_fold primary_esg_focus articles
              [("environmental", 0); ("social", 0); ("governance", 0);
               ("undetermined", 0)]) as [Hf Hfk].
  destruct (counters_fold sentiment articles
              [("positive", 0); ("neutral", 0); ("negative", 0)]) as [Hs Hsk].
  destruct (theme_totals_fold articles (mkCounts 0 0 0)) as (He & Hso & Hg).
  cbv zeta in He, Hso, Hg.
  split; [exact Hf |]. split; [exact Hs |].
  split; [exact He |]. split; [exact Hso |]. split; [exact Hg |].
  split; [exact Hfk | exact Hsk].
Qed.

(** ** The run: which articles come out analysed *)

Lemma new_article_unanalysed (t d l e src m c : string) :
  unanalysed (new_article t d l e src m c).
Proof. repeat split. Qed.

Lemma read_container_unanalysed (method std : string) (c : Container) (a : Article) :
  read_container method std c = Some a -> unanalysed a.
Proof.
  unfold read_container. destruct (c_broken c); [discriminate |].
  destruct (resolve_first (c_find c) title_selectors); [| discriminate].
  intros [= <-]. apply new_article_unanalysed.
Qed.

Lemma search_unanalysed (b : Browser) (company_name : string) (max_pages : nat) :
  Forall unanalysed (search_esg_today_for_company b company_name max_pages).
Proof.
  unfold search_esg_today_for_company.
  destruct (normalize_company_name company_name) as [std vars].
  assert (Hd : Forall unanalysed (direct_search b company_name std)).
  { unfold direct_search.
    match goal with |- context [navigate ?g ?u] => destruct (navigate g u) end;
      [| constructor].
    match goal with |- context [body ?x ?u] => destruct (body x u) as [| src fe] end;
      [constructor |].
    match goal with |- context [if ?t then _ else _] => destruct t end;
      [constructor |].
    eapply appended_with_forall; [| constructor].
    apply appended_with_fold. intros l c.
    destruct (read_container "direct_search" std c) eqn:Hr.
    - apply appended_with_one. now apply read_container_unanalysed in Hr.
    - apply appended_with_refl. }
  assert (Hb : forall l, appended_with unanalysed l
                           (browse_filter b vars std max_pages l)).
  { intros l. unfold browse_filter. apply appended_with_fold. intros l0 page.
    generalize (news_urls page). intros urls. revert l0.
    induction urls as [| u tl IH]; intros l0; simpl.
    - apply appended_with_refl.
    - destruct (navigate (get_ok b u) u); [| apply IH].
      destruct (body b u) as [| src fe]; [apply appended_with_refl |].
      destruct (Str.contains "Page not found" src); [apply IH |].
      destruct (Str.any_in vars (Str.lower src)); [| apply appended_with_refl].
      apply appended_with_fold. intros l' c. unfold browse_container.
      destruct (c_broken c); [apply appended_with_refl |].
      destruct (Str.any_in vars (Str.lower (c_text c)));
        [| apply appended_with_refl].
      destruct (read_container "browse_filter" std c) eqn:Hr;
        [| apply appended_with_refl].
      apply appended_with_new. now apply read_container_unanalysed in Hr. }
  assert (Hg : forall l, appended_with unanalysed l
                           (google_search b company_name std l)).
  { intros l. unfold google_search.
    match goal with |- context [navigate ?g ?u] => destruct (navigate g u) end;
      [| apply appended_with_refl].
    match goal with |- context [body ?x ?u] => destruct (body x u) as [| src fe] end;
      [apply appended_with_refl |].
    apply appended_with_fold. intros l0 c. unfold google_result.
    destruct (c_broken c); [apply appended_with_refl |].
    destruct (c_find c "a") as [le |]; [| apply appended_with_refl].
    destruct (Str.contains "esgtoday.com" (se_href le));
      [| apply appended_with_refl].
    destruct (c_find c "h3"); [| apply appended_with_refl].
    apply appended_with_new. apply new_article_unanalysed. }
  destruct (List.length (direct_search b company_name std) <? 3)%nat.
  - match goal with |- context [if ?t then _ else _] => destruct t end.
    + eapply appended_with_forall; [apply Hg |].
      eapply appended_with_forall; [apply Hb | exact Hd].
    + eapply appended_with_forall; [apply Hb | exact Hd].
  - match goal with |- context [if ?t then _ else _] => destruct t end.
    + eapply appended_with_forall; [apply Hg | exact Hd].
    + exact Hd.
Qed.

Lemma alternative_unanalysed (b : Browser) (company_name : string)
    (max_results : nat) :
  Forall unanalysed (search_alternative_esg_sources b company_name max_results).
Proof.
  unfold search_alternative_esg_sources.
  generalize (alternative_sources company_name). intros sources.
  assert (H : forall results, Forall unanalysed results ->
              Forall unanalysed
                (alt_sources_loop b company_name max_results sources results)).
  { induction sources as [| [name url] tl IH]; intros results Hres;
      cbn [alt_sources_loop]; [exact Hres |].
    destruct (navigate (get_ok b url) url); [| now apply IH].
    destruct (body b url) as [| src fe]; [now apply IH |].
    match goal with |- context [fold_left ?f ?xs ?r] =>
      assert (Hf : Forall unanalysed (fold_left f xs r));
      [| destruct (fold_left f xs r); [apply IH; constructor | exact Hf]]
    end.
    eapply appended_with_forall; [| exact Hres].
    apply appended_with_fold. intros l c. unfold alt_container.
    destruct (c_broken c); [apply appended_with_refl |].
    destruct (resolve_first (c_find c) alt_title_selectors);
      [| apply appended_with_refl].
    apply appended_with_one. apply new_article_unanalysed. }
  apply H. constructor.
Qed.

Lemma discover_unanalysed (b : Browser) (company_name : string) :
  Forall unanalysed (discover b company_name).
Proof.
  unfold discover.
  destruct (List.length (search_esg_today_for_company b company_name 5) <? 3)%nat.
  - apply Forall_app. split;
      [apply search_unanalysed | apply alternative_unanalysed].
  - apply search_unanalysed.
Qed.

Lemma retrieve_unanalysed (a : Article) (v : Visit) :
  unanalysed a -> unanalysed (retrieve a v).
Proof.
  intros H. unfold retrieve.
  destruct (negb (navigate (v_get_ok v) (link a))); [exact H |].
  destruct (resolve_first (find_content (v_page v)) content_selectors);
    [| exact H].
  destruct (early_failure (v_page v)); [exact H |].
  cbv zeta. destruct (late_failure (v_page v)); exact H.
Qed.

Lemma sentiment_label_range (q : Q) :
  In (sentiment_label q) ["positive"; "neutral"; "negative"].
Proof.
  unfold sentiment_label.
  destruct (Qltb tenth q); [simpl; tauto |].
  destruct (Qltb q (- tenth)); simpl; tauto.
Qed.

Lemma primary_focus_range (c : ThemeCounts) :
  In (primary_focus c) ["environmental"; "social"; "governance"; "undetermined"].
Proof.
  destruct (primary_focus_cases c)
    as [(_ & _ & _ & ->) | [(-> & _) | [(-> & _) | (-> & _)]]]; simpl; tauto.
Qed.

Ltac pass_frame a :=
  unfold analyze_article, finance_article, sentiment_article, quotes_article;
  destruct (no_content a); repeat split; reflexivity.

Lemma analyze_frame (a : Article) :
  sustainable_finance_mentions (analyze_article a) = sustainable_finance_mentions a
  /\ sustainable_finance_keywords (analyze_article a) = sustainable_finance_keywords a
  /\ sustainable_finance_focus (analyze_article a) = sustainable_finance_focus a
  /\ sentiment_score (analyze_article a) = sentiment_score a
  /\ sentiment (analyze_article a) = sentiment a
  /\ positive_words (analyze_article a) = positive_words a
  /\ negative_words (analyze_article a) = negative_words a
  /\ quotes (analyze_article a) = quotes a
  /\ quote_count (analyze_article a) = quote_count a.
Proof. pass_frame a. Qed.

Lemma finance_frame (a : Article) :
  esg_theme_counts (finance_article a) = esg_theme_counts a
  /\ esg_keywords (finance_article a) = esg_keywords a
  /\ primary_esg_focus (finance_article a) = primary_esg_focus a
  /\ sentiment_score (finance_article a) = sentiment_score a
  /\ sentiment (finance_article a) = sentiment a
  /\ positive_words (finance_article a) = positive_words a
  /\ negative_words (finance_article a) = negative_words a
  /\ quotes (finance_article a) = quotes a
  /\ quote_count (finance_article a) = quote_count a.
Proof. pass_frame a. Qed.

Lemma sentiment_frame (a : Article) :
  esg_theme_counts (sentiment_article a) = esg_theme_counts a
  /\ esg_keywords (sentiment_article a) = esg_keywords a
  /\ primary_esg_focus (sentiment_article a) = primary_esg_focus a
  /\ sustainable_finance_mentions (sentiment_article a)
     = sustainable_finance_mentions a
  /\ sustainable_finance_keywords (sentiment_article a)
     = sustainable_finance_keywords a
  /\ sustainable_finance_focus (sentiment_article a) = sustainable_finance_focus a
  /\ quotes (sentiment_article a) = quotes a
  /\ quote_count (sentiment_article a) = quote_count a.
Proof. pass_frame a. Qed.

Lemma quotes_frame (m1 m2 : string -> list (string * string)) (a : Article) :
  esg_theme_counts (quotes_article m1 m2 a) = esg_theme_counts a
  /\ esg_keywords (quotes_article m1 m2 a) = esg_keywords a
  /\ primary_esg_focus (quotes_article m1 m2 a) = primary_esg_focus a
  /\ sustainable_finance_mentions (quotes_article m1 m2 a)
     = sustainable_finance_mentions a
  /\ sustainable_finance_keywords (quotes_article m1 m2 a)
     = sustainable_finance_keywords a
  /\ sustainable_finance_focus (quotes_article m1 m2 a)
     = sustainable_finance_focus a
  /\ sentiment_score (quotes_article m1 m2 a) = sentiment_score a
  /\ sentiment (quotes_article m1 m2 a) = sentiment a
  /\ positive_words (quotes_article m1 m2 a) = positive_words a
  /\ negative_words (quotes_article m1 m2 a) = negative_words a.
Proof. pass_frame a. Qed.

(** What each pass writes on an article that has a content. *)
Lemma passes_write (m1 m2 : string -> list (string * string)) (a : Article) :
  no_content a = false ->
  ((exists f, primary_esg_focus (analyze_article a) = Some f
              /\ In f ["environmental"; "social"; "governance"; "undetermined"])
   /\ esg_theme_counts (analyze_article a) <> None
   /\ esg_keywords (analyze_article a) <> None)
  /\ (sustainable_finance_mentions (finance_article a) <> None
      /\ sustainable_finance_keywords (finance_article a) <> None
      /\ sustainable_finance_focus (finance_article a) <> None)
  /\ ((exists l, sentiment (sentiment_article a) = Some l
                 /\ In l ["positive"; "neutral"; "negative"])
      /\ sentiment_score (sentiment_article a) <> None
      /\ positive_words (sentiment_article a) <> None
      /\ negative_words (sentiment_article a) <> None)
  /\ (quotes (quotes_article m1 m2 a) <> None
      /\ quote_count (quotes_article m1 m2 a) <> None).
Proof.
  intros Hc.
  unfold analyze_article, finance_article, sentiment_article, quotes_article.
  rewrite Hc. cbv zeta.
  cbn [primary_esg_focus esg_theme_counts esg_keywords
       sustainable_finance_mentions sustainable_finance_keywords
       sustainable_finance_focus sentiment sentiment_score positive_words
       negative_words quotes quote_count].
  split; [split; [eexists; split; [reflexivity | apply primary_focus_range] |];
          split; discriminate |].
  split; [repeat split; discriminate |].
  split; [split; [eexists; split; [reflexivity | apply sentiment_label_range] |];
          repeat split; discriminate |].
  split; discriminate.
Qed.

Lemma no_content_kept (f : Article -> Article) (a : Article) :
  kept_by_pass f -> no_content (f a) = no_content a.
Proof.
  intros H. destruct (H a) as (_ & _ & _ & Hfc & _).
  unfold no_content. now rewrite Hfc.
Qed.

(** The four passes on an article no pass has touched. *)
Lemma passes_on_unanalysed (m1 m2 : string -> list (string * string)) (a : Article) :
  unanalysed a ->
  let a' := quotes_article m1 m2
              (sentiment_article (finance_article (analyze_article a))) in
  (no_content a' = true /\ unanalysed a')
  \/ (no_content a' = false /\ analysed a').
Proof.
  intros H. cbv zeta.
  destruct (passes_keep m1 m2) as (K1 & K2 & K3 & K4).
  destruct (no_content a) eqn:Hc.
  - left.
    assert (H1 : analyze_article a = a)
      by (unfold analyze_article; now rewrite Hc).
    assert (H2 : finance_article a = a)
      by (unfold finance_article; now rewrite Hc).
    assert (H3 : sentiment_article a = a)
      by (unfold sentiment_article; now rewrite Hc).
    assert (H4 : quotes_article m1 m2 a = a)
      by (unfold quotes_article; now rewrite Hc).
    rewrite H1, H2, H3, H4. now split.
  - right.
    destruct (passes_write m1 m2 a Hc) as ((W1 & W2 & W3) & _).
    assert (C1 : no_content (analyze_article a) = false)
      by now rewrite (no_content_kept _ a K1).
    generalize dependent (analyze_article a). intros x1 W1 W2 W3 C1.
    destruct (passes_write m1 m2 x1 C1) as (_ & (X1 & X2 & X3) & _).
    destruct (finance_frame x1) as (F1 & F2 & F3 & _).
    assert (C2 : no_content (finance_article x1) = false)
      by now rewrite (no_content_kept _ x1 K2).
    rewrite <- F1 in W2. rewrite <- F2 in W3. rewrite <- F3 in W1.
    generalize dependent (finance_article x1). intros x2 W1 W2 W3 X1 X2 X3 _ _ _ C2.
    destruct (passes_write m1 m2 x2 C2) as (_ & _ & (Y1 & Y2 & Y3 & Y4) & _).
    destruct (sentiment_frame x2) as (S1 & S2 & S3 & S4 & S5 & S6 & _).
    assert (C3 : no_content (sentiment_article x2) = false)
      by now rewrite (no_content_kept _ x2 K3).
    rewrite <- S1 in W2. rewrite <- S2 in W3. rewrite <- S3 in W1.
    rewrite <- S4 in X1. rewrite <- S5 in X2. rewrite <- S6 in X3.
    generalize dependent (sentiment_article x2).
    intros x3 W1 W2 W3 X1 X2 X3 Y1 Y2 Y3 Y4 _ _ _ _ _ _ C3.
    destruct (passes_write m1 m2 x3 C3) as (_ & _ & _ & (Z1 & Z2)).
    destruct (quotes_frame m1 m2 x3)
      as (Q1 & Q2 & Q3 & Q4 & Q5 & Q6 & Q7 & Q8 & Q9 & Q10).
    split; [now rewrite (no_content_kept _ x3 K4) |].
    unfold analysed.
    rewrite Q1, Q2, Q3, Q4, Q5, Q6, Q7, Q8, Q9, Q10.
    repeat split; assumption.
Qed.

Lemma retrieved_analysed_iff_content (m1 m2 : string -> list (string * string))
    (visits : nat -> Visit) (found : list Article) :
  Forall unanalysed found ->
  Forall (fun a => (no_content a = true /\ unanalysed a)
                   \/ (no_content a = false /\ analysed a))
         (analysis_passes m1 m2 (get_article_content visits found)).
Proof.
  intros Hfresh.
  rewrite analysis_passes_map. unfold get_article_content.
  pose proof (get_article_content_from_forall2 visits found 0) as Hret.
  generalize dependent (get_article_content_from 0 visits found).
  intros got Hret.
  induction Hret as [| a y la ly [v ->] _ IH]; [constructor |].
  inversion Hfresh as [| ? ? Ha Hla]; subst. cbn [map]. constructor.
  - apply (passes_on_unanalysed m1 m2 (retrieve a v)).
    now apply retrieve_unanalysed.
  - now apply IH.
Qed.

(** X25: a run that found an article and could write its JSON file returns
    articles of which each one with an empty content carries no analysis
    field at all and each one with a content carries all of them, its
    primary focus being one of environmental, social, governance,
    undetermined and its sentiment one of positive, neutral, negative; a
    run returns nothing only when it found no article or could not write
    the JSON file. *)
Theorem run_articles_analysed_iff_content
    (m1 m2 : string -> list (string * string))
    (d : Disk) (b : Browser) (visits : nat -> Visit) (company_name : string) :
  Str.is_ascii company_name = true ->
  match run_complete_analysis m1 m2 d b visits company_name with
  | None =>
      discover b company_name = []
      \/ writes d (json_file_name d company_name) = false
  | Some r =>
      Forall (fun a => (no_content a = true /\ unanalysed a)
                       \/ (no_content a = false /\ analysed a))
             (r_articles r)
  end.
Proof.
  intros _.
  pose proof (discover_unanalysed b company_name) as Hfresh.
  destruct (discover b company_name) as [| x tl] eqn:Hd.
  - rewrite (run_complete_analysis_nothing m1 m2 d b visits company_name Hd).
    now left.
  - assert (H : discover b company_name <> []) by (rewrite Hd; discriminate).
    destruct (run_complete_analysis_found m1 m2 d b visits company_name H)
      as [_ ->].
    destruct (writes d (json_file_name d company_name)); [| now right].
    cbn [r_articles]. rewrite Hd.
    now apply retrieved_analysed_iff_content.
Qed.

(** A run for "shell" that finds one article and reads its page. *)
Lemma run_articles_analysed_iff_content_witness :
  Str.is_ascii "shell" = true
  /\ exists r a,
       run_complete_analysis no_quotes no_quotes flat_disk single_result_browser
         (fun _ => full_page_visit) "shell" = Some r
       /\ r_articles r = [a]
       /\ no_content a = false
       /\ analysed a.
Proof.
  split; [reflexivity |].
  pose proof (run_articles_analysed_iff_content no_quotes no_quotes flat_disk
                single_result_browser (fun _ => full_page_visit) "shell"
                eq_refl) as H.
  destruct (run_complete_analysis no_quotes no_quotes flat_disk
              single_result_browser (fun _ => full_page_visit) "shell")
    as [r |] eqn:Hr.
  - assert (Hlen : List.length (r_articles r) = 1)
      by (vm_compute in Hr; injection Hr as <-; reflexivity).
    destruct (r_articles r) as [| a [| a2 tl]] eqn:Ha; try discriminate.
    exists r, a. split; [reflexivity |]. split; [exact Ha |].
    inversion H as [| ? ? Hcase _]; subst.
    assert (Hc : no_content a = false).
    { vm_compute in Hr. injection Hr as <-. cbn [r_articles] in Ha.
      injection Ha as <-. reflexivity. }
    split; [exact Hc |].
    destruct Hcase as [[Hno _] | [_ Han]]; [congruence | exact Han].
  - exfalso. vm_compute in Hr. discriminate.
Defined.

(** ** Browsing needs a mention; query URLs *)



Lemma prefix_space (c : ascii) (r : string) :
  prefix " " (String c r) = Ascii.eqb " " c.
Proof.
  change (prefix " " (String c r))
    with (if Ascii.ascii_dec " " c then prefix "" r else false).
  destruct (Ascii.ascii_dec " " c) as [<- | Hne].
  - now rewrite prefix_empty.
  - symmetry. now apply Ascii.eqb_neq.
Qed.

Lemma contains_space_app (a b : string) :
  Str.contains " " (a ++ b) = Str.contains " " a || Str.contains " " b.
Proof.
  induction a as [| c a IH].
  - destruct b; reflexivity.
  - change (String c a ++ b) with (String c (a ++ b)).
    cbn [Str.contains]. rewrite !prefix_space, IH.
    now rewrite orb_assoc.
Qed.

Lemma plus_for_spaces_no_space (s : string) :
  Str.contains " " (plus_for_spaces s) = false.
Proof.
  induction s as [| c r IH]; [reflexivity |].
  change (plus_for_spaces (String c r))
    with (String (if Ascii.eqb c " " then "+"%char else c) (plus_for_spaces r)).
  cbn [Str.contains]. rewrite prefix_space.
  rewrite IH, orb_false_r.
  destruct (Ascii.eqb c " ") eqn:Hc; [reflexivity |].
  apply Ascii.eqb_neq. apply Ascii.eqb_neq in Hc. congruence.
Qed.

(** X27: whatever the company name, the query part of the search URLs has
    no space left in it, and none of the URLs of the alternative sources
    contains a space. *)
Theorem query_urls_without_space (company_name : string) :
  Str.contains " " (plus_for_spaces company_name) = false
  /\ String.length (plus_for_spaces company_name) = String.length company_name
  /\ Forall (fun source => Str.contains " " (snd source) = false)
            (alternative_sources company_name).
Proof.
  split; [apply plus_for_spaces_no_space |]. split.
  - induction company_name as [| c r IH]; [reflexivity |].
    change (plus_for_spaces (String c r))
      with (String (if Ascii.eqb c " " then "+"%char else c) (plus_for_spaces r)).
    simpl String.length. now rewrite IH.
  - unfold alternative_sources.
    repeat constructor; cbn [snd]; rewrite contains_space_app,
      plus_for_spaces_no_space; reflexivity.
Qed.

(** ** The date loop; mentions and substrings *)

(** X28: in the loop that looks the date up on the article page, the date
    becomes the value (text, or else [datetime] attribute) of the first
    selector whose element has a non-empty one, selectors whose call raises
    being passed over; when every call raises the date stays what it was. *)
Theorem date_loop_outcome (find : string -> option (string * option string))
    (selectors : list string) (current : option string) :
  (Forall (fun s => find s = None) selectors ->
   resolve_date find selectors current = current)
  /\ (forall before s after found,
        selectors = (before ++ s :: after)%list ->
        Forall (fun s' => match find s' with
                          | None => True
                          | Some f => truthy (date_value f) = false
                          end) before ->
        find s = Some found ->
        truthy (date_value found) = true ->
        resolve_date find selectors current = date_value found).
Proof.
  split.
  - intros Hall. induction Hall as [| s tl Hs _ IH]; [reflexivity |].
    cbn [resolve_date]. now rewrite Hs.
  - intros before s after found -> Hbefore Hs Htruthy. revert current.
    induction Hbefore as [| s' tl Hs' _ IH]; intros current.
    + cbn [app resolve_date]. rewrite Hs. destruct found as [text dt].
      unfold date_value in Htruthy. cbn [fst snd] in Htruthy.
      unfold date_value. cbn [fst snd]. now rewrite Htruthy.
    + cbn [app resolve_date]. destruct (find s') as [[text dt] |]; [| apply IH].
      unfold date_value in Hs'. cbn [fst snd] in Hs'. rewrite Hs'. apply IH.
Qed.

Lemma findall_positive_contains (kw : string) :
  forall s prev skip,
    0 < Re.findall_from kw prev s skip -> Str.contains kw s = true.
Proof.
  induction s as [| c r IH]; intros prev skip Hpos.
  - destruct skip; [| simpl in Hpos; lia].
    cbn [Re.findall_from] in Hpos.
    destruct (Re.match_here kw prev "") eqn:Hm; [| lia].
    apply match_here_prefix in Hm. cbn [Str.contains].
    now rewrite (proj1 Hm).
  - cbn [Str.contains]. destruct skip as [| k].
    + cbn [Re.findall_from] in Hpos.
      destruct (Re.match_here kw prev (String c r)) eqn:Hm.
      * apply match_here_prefix in Hm. now rewrite (proj1 Hm).
      * rewrite (IH _ _ Hpos). apply orb_true_r.
    + cbn [Re.findall_from] in Hpos. rewrite (IH _ _ Hpos). apply orb_true_r.
Qed.

Lemma lower_cons (c : ascii) (r : string) :
  Str.lower (String c r) = String c r ->
  Str.lower_char c = c /\ Str.lower r = r.
Proof. simpl. intros [= H1 H2]. now split. Qed.

(** Between two texts in lower case, matching in either case is matching. *)
Lemma prefix_ignorecase_lower (kw : string) :
  forall s,
    Str.lower kw = kw -> Str.lower s = s ->
    Re.prefix_ignorecase kw s = prefix kw s.
Proof.
  induction kw as [| a kw IH]; intros s Hkw Hs; [now destruct s |].
  destruct s as [| b s]; [reflexivity |].
  apply lower_cons in Hkw. apply lower_cons in Hs.
  destruct Hkw as [Ha Hkw], Hs as [Hb Hs].
  cbn [Re.prefix_ignorecase prefix]. unfold Re.same_letter. rewrite Ha, Hb.
  rewrite (IH s Hkw Hs).
  destruct (Ascii.ascii_dec a b) as [-> | Hne].
  - now rewrite Ascii.eqb_refl.
  - apply Ascii.eqb_neq in Hne. now rewrite Hne.
Qed.

Lemma findall_ignorecase_lower (kw : string) :
  Str.lower kw = kw ->
  forall s prev skip,
    Str.lower s = s ->
    Re.findall_ignorecase_from kw prev s skip = Re.findall_from kw prev s skip.
Proof.
  intros Hkw.
  assert (Hm : forall s prev, Str.lower s = s ->
                 Re.match_here_ignorecase kw prev s = Re.match_here kw prev s).
  { intros s prev Hs. unfold Re.match_here_ignorecase, Re.match_here.
    now rewrite (prefix_ignorecase_lower kw s Hkw Hs). }
  induction s as [| c r IH]; intros prev skip Hs.
  - cbn [Re.findall_ignorecase_from Re.findall_from]. now rewrite (Hm _ _ Hs).
  - cbn [Re.findall_ignorecase_from Re.findall_from]. rewrite (Hm _ _ Hs).
    destruct (lower_cons c r Hs) as [_ Hr].
    destruct skip; [| now apply IH].
    now rewrite !IH by exact Hr.
Qed.

Lemma variations_in_lower_case (company_name : string) :
  Forall (fun v => Str.lower v = v) (snd (normalize_company_name company_name)).
Proof.
  unfold normalize_company_name, normalize_company_name_with.
  destruct (find (entry_has (Str.lower company_name)) company_variations)
    as [[std vs] |] eqn:Hfind.
  - destruct (find_some _ _ Hfind) as [Hin _].
    pose proof table_aliases_lower as Hal. rewrite Forall_forall in Hal.
    specialize (Hal _ Hin). cbn [fst snd] in *.
    eapply Forall_impl; [| exact Hal]. intros v [Hv _]. exact Hv.
  - cbn [snd]. repeat constructor.
    + apply lower_idem.
    + rewrite <- remove_spaces_lower. now rewrite lower_idem.
Qed.

(** X29: for a company name and a content in ASCII (where the letters, the
    word characters and the lower case of the model are those of Python), a
    number of mentions greater than 0 means that a variation of the company
    name is found in the lower-cased content. *)
Theorem mentions_imply_substring (company_name content : string) :
  Str.is_ascii company_name = true ->
  Str.is_ascii content = true ->
  0 < count_mentions (snd (normalize_company_name company_name)) content ->
  Str.any_in (snd (normalize_company_name company_name)) (Str.lower content)
  = true.
Proof.
  intros _ _.
  pose proof (variations_in_lower_case company_name) as Hlow.
  generalize dependent (snd (normalize_company_name company_name)).
  intros name_variations Hlow.
  unfold count_mentions, Str.any_in. rewrite fold_left_add_sum. simpl.
  induction Hlow as [| v tl Hv Htl IH]; simpl; [lia |].
  intros Hpos.
  assert (Hci : Re.count_words_ignorecase v (Str.lower content)
                = Re.findall_from v None (Str.lower content) 0).
  { unfold Re.count_words_ignorecase.
    apply (findall_ignorecase_lower v Hv), lower_idem. }
  rewrite Hci in Hpos.
  destruct (Nat.eq_dec (Re.findall_from v None (Str.lower content) 0) 0)
    as [Hz | Hnz].
  - rewrite IH by lia. apply orb_true_r.
  - rewrite (findall_positive_contains v (Str.lower content) None 0);
      [reflexivity | lia].
Qed.

(** The converse fails: "seashells" contains "shell" and is no mention. *)
Lemma mentions_imply_substring_witness :
  Str.is_ascii "Shell" = true
  /\ Str.is_ascii "Shell sells seashells" = true
  /\ 0 < count_mentions (snd (normalize_company_name "Shell"))
           "Shell sells seashells"
  /\ Str.any_in (snd (normalize_company_name "Shell"))
       (Str.lower "Shell sells seashells") = true
  /\ count_mentions (snd (normalize_company_name "Shell")) "Seashells" = 0
  /\ Str.any_in (snd (normalize_company_name "Shell")) (Str.lower "Seashells")
     = true.
Proof.
  assert (H : 0 < count_mentions (snd (normalize_company_name "Shell"))
                    "Shell sells seashells")
    by (vm_compute; lia).
  split; [reflexivity |]. split; [reflexivity |].
  split; [exact H |].
  split; [exact (mentions_imply_substring "Shell" "Shell sells seashells"
                   eq_refl eq_refl H) |].
  split; reflexivity.
Defined.
